(** * packedancestrymap: a shallow embedding of [packedancestrymap.go]

    The Go package reads the three files of a PackedAncestryMap data set
    ([*.geno], [*.ind], [*.snp]), checks the hashes stored in the header of
    the binary file against the two text tables, unpacks the 2-bit genotypes
    and hands every row to a caller-supplied function on its own goroutine.

    Go strings and byte slices are lists of 8-bit characters, machine
    integers are [Z] with their wrap-around written out ([int] has 64
    bits), and the Go library functions the package calls are modelled in
    [Module Go] from their documented behaviour. *)

From Stdlib Require Import ZArith List Ascii String Bool Lia Permutation.
Import ListNotations.
Open Scope Z_scope.

(** ** The Go runtime and library functions used by the package *)
Module Go.

Definition byte := ascii.
(** A Go [string] (and a [[]byte] read from a file) is a sequence of bytes. *)
Definition gostring := list byte.

Definition str (s : string) : gostring := list_ascii_of_string s.

Definition byteval (b : byte) : Z := Z.of_N (N_of_ascii b).

(** Conversions to the unsigned types: reduction modulo [2^w]. *)
Definition uint8 (z : Z) : Z := z mod 2 ^ 8.
Definition uint32 (z : Z) : Z := z mod 2 ^ 32.

(** [float64(i)] for an integer [i]: the nearest value with a 53-bit
    significand, ties to the even significand.  Only integers are ever
    converted by the package, so the result is kept as the integer it
    denotes. *)
Definition float64_of_int (z : Z) : Z :=
  if Z.abs z <? 2 ^ 53 then z
  else
    let e := Z.log2 (Z.abs z) - 52 in
    let q := z / 2 ^ e in
    let r := z mod 2 ^ e in
    let half := 2 ^ (e - 1) in
    if r <? half then q * 2 ^ e
    else if half <? r then (q + 1) * 2 ^ e
    else if Z.even q then q * 2 ^ e
    else (q + 1) * 2 ^ e.

(** [int(math.Floor(f / 4))] and [int(math.Ceil(f / 4))] for a float64 [f]
    holding an integer: dividing by four only changes the exponent, so the
    quotient is exact and so are its floor and ceiling. *)
Definition floorQuarter (f : Z) : Z := f / 4.
Definition ceilQuarter (f : Z) : Z := - ((- f) / 4).

(** *** Errors, results and panics *)

Inductive error : Type :=
| ErrNotExist (path : string)               (* os.Open *)
| ErrTooLong                                (* bufio.Scanner *)
| NumError (func : string) (num : gostring) (* strconv *)
| ErrRegexp (expr : gostring)               (* regexp.Compile *)
| ErrNew (text : string).                   (* errors.New *)

(** The three ways a Go computation ends here: with a value, with a
    non-nil [error], or with a run-time panic. *)
Inductive result (A : Type) : Type :=
| Val (a : A)
| Fail (e : error)
| Crash.
Arguments Val {A} a.
Arguments Fail {A} e.
Arguments Crash {A}.

Definition bind {A B} (m : result A) (k : A -> result B) : result B :=
  match m with
  | Val a => k a
  | Fail e => Fail e
  | Crash => Crash
  end.

Notation "x <- m ;; k" := (bind m (fun x => k))
  (at level 61, m at next level, right associativity).

(** [s[i]] on a slice or a string: out of range is a panic. *)
Definition index {A} (s : list A) (i : nat) : result A :=
  match nth_error s i with
  | Some a => Val a
  | None => Crash
  end.

(** *** os: the files the package can open *)
Definition filesystem := string -> option gostring.

Definition Open (fs : filesystem) (path : string) : result gostring :=
  match fs path with
  | Some data => Val data
  | None => Fail (ErrNotExist path)
  end.

(** *** Character classes *)
Definition newline : byte := "010"%char.

Definition inCodes (codes : list Z) (b : byte) : bool :=
  existsb (Z.eqb (byteval b)) codes.

(** The white space of [unicode.IsSpace] within ASCII: tab, newline,
    vertical tab, form feed, carriage return and space. *)
Definition isSpace : byte -> bool := inCodes [9; 10; 11; 12; 13; 32].

(** The width in bytes of the white space character that [s] starts with,
    0 when it starts with none.  Beyond ASCII, [unicode.IsSpace] holds of
    U+0085, U+00A0, U+1680, U+2000 to U+200A, U+2028, U+2029, U+202F, U+205F
    and U+3000; in UTF-8 each starts with a byte that is never inside
    another character, so the bytes below are such a character wherever
    they occur. *)
Definition spaceWidth (s : gostring) : nat :=
  match s with
  | [] => 0%nat
  | c0 :: s1 =>
      let b0 := byteval c0 in
      if isSpace c0 then 1%nat
      else
        match map byteval (firstn 2 s1) with
        | [b1] =>
            if (b0 =? 194) && ((b1 =? 133) || (b1 =? 160)) then 2%nat
            else 0%nat
        | [b1; b2] =>
            if (b0 =? 194) && ((b1 =? 133) || (b1 =? 160)) then 2%nat
            else if (b0 =? 225) && (b1 =? 154) && (b2 =? 128) then 3%nat
            else if (b0 =? 226) && (b1 =? 128)
                    && (((128 <=? b2) && (b2 <=? 138))
                        || (b2 =? 168) || (b2 =? 169) || (b2 =? 175))
                 then 3%nat
            else if (b0 =? 226) && (b1 =? 129) && (b2 =? 159) then 3%nat
            else if (b0 =? 227) && (b1 =? 128) && (b2 =? 128) then 3%nat
            else 0%nat
        | _ => 0%nat
        end
  end.

(** The class [\s] of package regexp is [[\t\n\f\r ]]: no vertical
    tab. *)
Definition isPerlSpace : byte -> bool := inCodes [9; 10; 12; 13; 32].

Definition isAlnum (b : byte) : bool :=
  let v := byteval b in
  ((48 <=? v) && (v <=? 57)) || ((65 <=? v) && (v <=? 90))
  || ((97 <=? v) && (v <=? 122)).

(** *** bufio.Scanner with the default split function ScanLines *)

(** The lines of [data]: the text between newlines, and a last line that
    needs no newline to end it. *)
Fixpoint splitLines (data : gostring) : list gostring :=
  match data with
  | [] => []
  | c :: data' =>
      if Ascii.eqb c newline then [] :: splitLines data'
      else match splitLines data' with
           | [] => [[c]]
           | l :: ls => (c :: l) :: ls
           end
  end.

(** ScanLines drops one trailing carriage return. *)
Definition dropCR (line : gostring) : gostring :=
  match line with
  | [] => line
  | _ => if Ascii.eqb (last line zero) "013"%char then removelast line
         else line
  end.

(** A line that does not fit the scanner's buffer of [MaxScanTokenSize]
    bytes, newline included, stops the scan with [ErrTooLong]. *)
Definition MaxScanTokenSize : Z := 64 * 1024.

(** The tokens [Scan]/[Text] deliver, and what [Err] returns after the
    last of them. *)
Fixpoint scanTokens (raw : list gostring) : list gostring * option error :=
  match raw with
  | [] => ([], None)
  | l :: raw' =>
      if MaxScanTokenSize <=? Z.of_nat (List.length l)
      then ([], Some ErrTooLong)
      else let '(ts, e) := scanTokens raw' in (dropCR l :: ts, e)
  end.

Definition scanLines (data : gostring) : list gostring * option error :=
  scanTokens (splitLines data).

(** *** bufio.Reader *)

(** Successive [ReadString(delim)] calls: the strings returned with a nil
    error, each ending in [delim], and the rest of the data, which the
    last call returns together with [io.EOF]. *)
Fixpoint readStrings (delim : byte) (data : gostring)
  : list gostring * gostring :=
  match data with
  | [] => ([], [])
  | c :: data' =>
      let '(ls, tail) := readStrings delim data' in
      if Ascii.eqb c delim then ([c] :: ls, tail)
      else match ls with
           | [] => ([], c :: tail)
           | l :: ls' => ((c :: l) :: ls', tail)
           end
  end.

(** A reader over a file: the bytes waiting in its buffer and the bytes not
    yet read from the file. *)
Record Reader : Type := { buffered : gostring; unread : gostring }.

Definition defaultBufSize : Z := 4096.

Definition NewReader (data : gostring) : Reader :=
  {| buffered := []; unread := data |}.

(** [copy(p, b.buf[b.r:b.w])]: as many bytes as both hold; the rest of
    [p] keeps what it held. *)
Definition copyOut (r : Reader) (p : list byte) : Reader * list byte :=
  let n := Nat.min (List.length p) (List.length (buffered r)) in
  ({| buffered := skipn n (buffered r); unread := unread r |},
   firstn n (buffered r) ++ skipn n p).

(** [Read(p)] takes its bytes from at most one read of the file: with an
    empty buffer a [p] of at least the buffer's size is read into
    directly, otherwise the buffer is filled once, and [p] receives what
    the buffer holds, which may be less than [len(p)].  The count and the
    error that [Read] returns are not part of the model: the package
    drops both. *)
Definition Read (r : Reader) (p : list byte) : Reader * list byte :=
  match p, buffered r with
  | [], _ => (r, p)
  | _, [] =>
      if defaultBufSize <=? Z.of_nat (List.length p) then
        let got := firstn (List.length p) (unread r) in
        ({| buffered := []; unread := skipn (List.length p) (unread r) |},
         got ++ skipn (List.length got) p)
      else
        let size := Z.to_nat defaultBufSize in
        copyOut {| buffered := firstn size (unread r);
                   unread := skipn size (unread r) |} p
  | _, _ => copyOut r p
  end.

(** *** strings *)
Fixpoint trimLeft (c : byte) (s : gostring) : gostring :=
  match s with
  | x :: s' => if Ascii.eqb x c then trimLeft c s' else s
  | [] => []
  end.

(** [strings.Trim(s, cutset)] for a cutset of one character. *)
Definition Trim (s : gostring) (c : byte) : gostring :=
  rev (trimLeft c (rev (trimLeft c s))).

(** [strings.Fields(s)]: the fields of [s], the runs of bytes between
    white space characters.  [skip] counts the bytes still to pass of a
    white space character of several bytes, [field] holds the bytes of the
    field under way, last byte first. *)
Definition closeField (field : gostring) (fields : list gostring)
  : list gostring :=
  match field with
  | [] => fields
  | _ => rev field :: fields
  end.

Fixpoint fieldsFrom (s : gostring) (skip : nat) (field : gostring)
  : list gostring :=
  match s with
  | [] => closeField field []
  | c :: s' =>
      match skip with
      | S skip' => fieldsFrom s' skip' field
      | O =>
          match spaceWidth s with
          | O => fieldsFrom s' 0 (c :: field)
          | S skip' => closeField field (fieldsFrom s' skip' [])
          end
      end
  end.

Definition Fields (s : gostring) : list gostring := fieldsFrom s 0 [].

(** *** strconv *)
Definition digitVal (b : byte) : option Z :=
  let v := byteval b in
  if (48 <=? v) && (v <=? 57) then Some (v - 48) else None.

Fixpoint digits (s : gostring) (acc : Z) : option Z :=
  match s with
  | [] => Some acc
  | c :: s' =>
      match digitVal c with
      | Some d => digits s' (acc * 10 + d)
      | None => None
      end
  end.

(** A non-empty run of decimal digits, as the number it denotes. *)
Definition decimal (s : gostring) : option Z :=
  match s with
  | [] => None
  | _ => digits s 0
  end.

(** [strconv.Atoi]: an optional sign and decimal digits, within the range
    of the 64-bit [int]. *)
Definition Atoi (s : gostring) : result Z :=
  let '(neg, body) :=
    match s with
    | c :: s' =>
        if Ascii.eqb c "-"%char then (true, s')
        else if Ascii.eqb c "+"%char then (false, s')
        else (false, s)
    | [] => (false, s)
    end in
  match decimal body with
  | Some v =>
      let i := if neg then - v else v in
      if (- 2 ^ 63 <=? i) && (i <? 2 ^ 63) then Val i
      else Fail (NumError "Atoi" s)
  | None => Fail (NumError "Atoi" s)
  end.

(** [strconv.ParseUint(s, 10, 0)]: decimal digits only, within [uint64]. *)
Definition ParseUint (s : gostring) : result Z :=
  match decimal s with
  | Some v => if v <? 2 ^ 64 then Val v else Fail (NumError "ParseUint" s)
  | None => Fail (NumError "ParseUint" s)
  end.

(** [strconv.ParseFloat(s, 32)] decides which tokens are numbers and
    rounds them to [float32]; the package only stores the value, so the
    parser is an interface of the model. *)
Class FloatParser : Type := {
  float32 : Type;
  parseFloat32 : gostring -> option float32
}.

Definition ParseFloat `{FloatParser} (s : gostring) : result float32 :=
  match parseFloat32 s with
  | Some f => Val f
  | None => Fail (NumError "ParseFloat" s)
  end.

Definition digitChar (d : Z) : byte :=
  nth (Z.to_nat d) (str "0123456789abcdefghijklmnopqrstuvwxyz") "0"%char.

(** The digits of [u >= 0] in [base], most significant first. *)
Fixpoint formatBits (fuel : nat) (u base : Z) : gostring :=
  match fuel with
  | O => []
  | S fuel' =>
      if u <? base then [digitChar u]
      else formatBits fuel' (u / base) base ++ [digitChar (u mod base)]
  end.

(** [strconv.FormatInt(i, base)] for a 64-bit [i]. *)
Definition FormatInt (i : Z) (base : Z) : gostring :=
  if i <? 0 then "-"%char :: formatBits 64 (- i) base
  else formatBits 64 i base.

(** *** regexp *)
Fixpoint dropWhile {A} (f : A -> bool) (s : list A) : list A :=
  match s with
  | x :: s' => if f x then dropWhile f s' else s
  | [] => []
  end.

Fixpoint takeWhile {A} (f : A -> bool) (s : list A) : list A :=
  match s with
  | x :: s' => if f x then x :: takeWhile f s' else []
  | [] => []
  end.

(** [FindString] of the expression [\S+]: the leftmost longest run of
    characters outside [\s], empty when there is none. *)
Definition FindString_nonspace (s : gostring) : gostring :=
  takeWhile (fun b => negb (isPerlSpace b)) (dropWhile isPerlSpace s).

Fixpoint hasPrefix (pat s : gostring) : bool :=
  match pat, s with
  | [], _ => true
  | p :: pat', c :: s' => Ascii.eqb p c && hasPrefix pat' s'
  | _ :: _, [] => false
  end.

Fixpoint contains (pat s : gostring) : bool :=
  hasPrefix pat s ||
  match s with
  | [] => false
  | _ :: s' => contains pat s'
  end.

(** A compiled expression.  The package compiles the output of
    [FormatInt]: letters and digits, which have no special meaning and
    match themselves.  Other expressions are outside this model and are
    turned down. *)
Inductive Regexp : Type := Literal (pat : gostring).

Definition Compile (expr : gostring) : result Regexp :=
  if forallb isAlnum expr then Val (Literal expr)
  else Fail (ErrRegexp expr).

(** An unanchored match: the literal occurs somewhere in [s]. *)
Definition MatchString (re : Regexp) (s : gostring) : bool :=
  match re with
  | Literal pat => contains pat s
  end.

End Go.
Import Go.

Notation "x <- m ;; k" := (Go.bind m (fun x => k))
  (at level 61, m at next level, right associativity).

(** ** HashIt (lines 180-189) *)

(** One turn of the loop: [hash *= 23; hash += uint32(str[j])]. *)
Definition hashStep (hash : Z) (b : byte) : Z :=
  uint32 (uint32 (hash * 23) + uint32 (byteval b)).

(** [length] is [uint32(len(str))] and the loop runs over [j < length]. *)
Definition HashIt (s : gostring) : Z :=
  let length := uint32 (Z.of_nat (List.length s)) in
  fold_left hashStep (firstn (Z.to_nat length) s) 0.

(** ** The record width and the bit unpacking of ProcessGenoRows
       (lines 142-165) *)

(** [chunkSize := int(math.Ceil(float64(len(inds)) / 4))], raised to 48. *)
Definition chunkSize (n : Z) : Z := ceilQuarter (float64_of_int n).

Definition genoChunkSize (n : Z) : Z :=
  let genoChunkSize := chunkSize n in
  if genoChunkSize <? 48 then 48 else genoChunkSize.

(** The body of the inner loop for one [indIndex]; [None] is the run-time
    panic of [rchunk[byteOffset]] when the index is out of range. *)
Definition genotypeAt (rchunk : list byte) (indIndex : Z) : option Z :=
  let byteOffset := floorQuarter (float64_of_int indIndex) in
  let bitOffset := uint8 (uint8 (Z.rem indIndex 4) * 2) in
  match nth_error rchunk (Z.to_nat byteOffset) with
  | Some b => Some (Z.land (Z.shiftr (byteval b) bitOffset) 3)
  | None => None
  end.

(** The inner loop from [indIndex] on, [count] iterations left. *)
Fixpoint decodeFrom (rchunk : list byte) (indIndex : Z) (count : nat)
  : option (list Z) :=
  match count with
  | O => Some []
  | S count' =>
      match genotypeAt rchunk indIndex with
      | None => None
      | Some genotype =>
          match decodeFrom rchunk (indIndex + 1) count' with
          | None => None
          | Some row => Some (genotype :: row)
          end
      end
  end.

(** [genoRow] for [n = len(inds)] individuals. *)
Definition decodeRow (rchunk : list byte) (n : nat) : option (list Z) :=
  decodeFrom rchunk 0 n.

(** ** Go functions returning [(value, error)] *)

(** What a call leaves behind: the pair it returns, or a panic. *)
Inductive outcome (A : Type) : Type :=
| Returns (a : A) (err : option error)
| Panics.
Arguments Returns {A} a err.
Arguments Panics {A}.

(** The caller's [v, err := f(...); if err != nil { return ..., err }]. *)
Definition try {A} (o : outcome A) : result A :=
  match o with
  | Returns a None => Val a
  | Returns _ (Some err) => Fail err
  | Panics => Crash
  end.

(** A body all of whose error exits are [return zero, err]. *)
Definition returning {A} (zero : A) (body : result A) : outcome A :=
  match body with
  | Val a => Returns a None
  | Fail err => Returns zero (Some err)
  | Crash => Panics
  end.

Section Package.
Context `{FloatParser}.

(** ** The two tables (lines 24-113) *)
Record Snp : Type := {
  Name : gostring;
  Chromosome : Z;      (* uint8 *)
  GeneticPos : float32;
  PhysicalPos : Z;     (* uint32 *)
  Ref : Z;             (* uint8 *)
  Alt : Z              (* uint8 *)
}.

Record Ind : Type := {
  SampleID : gostring;
  Gender : gostring;
  Label : gostring
}.

(** The body of the loop of ReadSnpFile on the fields of one line
    (lines 58-79). *)
Definition snpOfFields (fields : list gostring) : result Snp :=
  id <- index fields 0 ;;
  field1 <- index fields 1 ;;
  chr <- Atoi field1 ;;
  field2 <- index fields 2 ;;
  gpos <- ParseFloat field2 ;;
  field3 <- index fields 3 ;;
  ppos <- ParseUint field3 ;;
  field4 <- index fields 4 ;;
  ref <- index field4 0 ;;
  field5 <- index fields 5 ;;
  alt <- index field5 0 ;;
  Val {| Name := id;
         Chromosome := uint8 chr;
         GeneticPos := gpos;
         PhysicalPos := uint32 ppos;
         Ref := byteval ref;
         Alt := byteval alt |}.

(** [strings.Fields(strings.Trim(scanner.Text(), " "))] *)
Definition fieldsOf (text : gostring) : list gostring :=
  Fields (Trim text " "%char).

(** [for scanner.Scan() { ... }] over the lines the scanner delivers, then
    the check of [scanner.Err()]. *)
Fixpoint snpLoop (texts : list gostring) (scanErr : option error)
  (snps : list Snp) : outcome (list Snp) :=
  match texts with
  | [] => Returns snps scanErr
  | text :: texts' =>
      match snpOfFields (fieldsOf text) with
      | Val snp => snpLoop texts' scanErr (snps ++ [snp])
      | Fail err => Returns snps (Some err)
      | Crash => Panics
      end
  end.

Definition ReadSnpFile (fs : filesystem) (path : string)
  : outcome (list Snp) :=
  match Open fs path with
  | Val file =>
      let '(texts, scanErr) := scanLines file in snpLoop texts scanErr []
  | Fail err => Returns [] (Some err)
  | Crash => Panics
  end.

(** The body of the loop of ReadIndFile (lines 100-106). *)
Definition indOfFields (fields : list gostring) : result Ind :=
  field0 <- index fields 0 ;;
  field1 <- index fields 1 ;;
  field2 <- index fields 2 ;;
  Val {| SampleID := field0; Gender := field1; Label := field2 |}.

Fixpoint indLoop (texts : list gostring) (scanErr : option error)
  (inds : list Ind) : outcome (list Ind) :=
  match texts with
  | [] => Returns inds scanErr
  | text :: texts' =>
      match indOfFields (fieldsOf text) with
      | Val ind => indLoop texts' scanErr (inds ++ [ind])
      | Fail err => Returns inds (Some err)
      | Crash => Panics
      end
  end.

Definition ReadIndFile (fs : filesystem) (path : string)
  : outcome (list Ind) :=
  match Open fs path with
  | Val file =>
      let '(texts, scanErr) := scanLines file in indLoop texts scanErr []
  | Fail err => Returns [] (Some err)
  | Crash => Panics
  end.

(** ** HashFileFirstColumn (lines 194-217) *)

(** One turn of the loop on a string that [ReadString] returned with a nil
    error: [thash = HashIt(...); hash *= 17; hash ^= thash]. *)
Definition foldLine (hash : Z) (line : gostring) : Z :=
  let thash := HashIt (FindString_nonspace line) in
  Z.lxor (uint32 (hash * 17)) thash.

(** The loop ends at the first error of [ReadString], which at the end of
    the file is [io.EOF]; the bytes that came with it are not hashed. *)
Definition hashOfData (data : gostring) : Z :=
  fold_left foldLine (fst (readStrings newline data)) 0.

Definition HashFileFirstColumn (fs : filesystem) (path : string)
  : outcome Z :=
  match Open fs path with
  | Val file => Returns (hashOfData file) None
  | Fail err => Returns 0 (Some err)
  | Crash => Panics
  end.

(** ** Calcishash (lines 221-258) *)

(** [scanner.Scan()] once, then [scanner.Text()]: [None] when [Scan]
    reports false. *)
Definition firstLine (data : gostring) : option gostring :=
  match fst (scanLines data) with
  | header :: _ => Some header
  | [] => None
  end.

Definition Calcishash (fs : filesystem) (genoPath indPath snpPath : string)
  : outcome bool :=
  returning false (
    file <- Open fs genoPath ;;
    match firstLine file with
    | None => Val false   (* [return false, err] with the nil [err] of Open *)
    | Some header =>
        hashInd <- try (HashFileFirstColumn fs indPath) ;;
        let indHash := FormatInt hashInd 16 in
        hashSnp <- try (HashFileFirstColumn fs snpPath) ;;
        let snpHash := FormatInt hashSnp 16 in
        indRegexp <- Compile indHash ;;
        snpRegexp <- Compile snpHash ;;
        let hashOk := MatchString indRegexp header
                      && MatchString snpRegexp header
                      && negb (String.eqb indPath snpPath) in
        Val hashOk
    end).

(** ** ProcessGenoRows (lines 115-177) *)

(** Lines 116-141: everything before the first byte of a record is read. *)
Definition prelude (fs : filesystem) (genoPath indPath snpPath : string)
  : result (list Snp * list Ind * Reader) :=
  ok <- try (Calcishash fs genoPath indPath snpPath) ;;
  if negb ok then Fail (ErrNew "Hash is not ok")
  else
    snps <- try (ReadSnpFile fs snpPath) ;;
    inds <- try (ReadIndFile fs indPath) ;;
    genoFile <- Open fs genoPath ;;
    Val (snps, inds, NewReader genoFile).

(** One call [processFunc(genoRow, snp, inds)]. *)
Record Call : Type := {
  genoRowArg : list Z;
  snpArg : Snp;
  indsArg : list Ind
}.

(** [rchunk := make([]byte, genoChunkSize)] *)
Definition makeChunk (inds : list Ind) : list byte :=
  repeat zero (Z.to_nat (genoChunkSize (Z.of_nat (List.length inds)))).

(** Where the main goroutine is. *)
Inductive position : Type :=
| InLoop          (* lines 155-173, [wg.Wait()] included *)
| Returned        (* [return nil] *)
| Panicked.       (* an index out of range in the inner loop *)

(** The state of the call from line 152 on: the main goroutine with its
    reader and record buffer, the goroutines it has started, and the
    counter of the wait group. *)
Record State : Type := {
  at_ : position;
  reader : Reader;
  rchunk : list byte;
  snpIndex : nat;
  started : list Call;    (* goroutines that have not entered processFunc *)
  running : list Call;    (* goroutines inside processFunc *)
  finished : list Call;   (* calls that have returned, oldest first *)
  counter : Z             (* the WaitGroup *)
}.

(** Lines 151-152: the buffer is made and the header is read into it. *)
Definition enter (inds : list Ind) (genoReader : Reader) : State :=
  let '(r, chunk) := Read genoReader (makeChunk inds) in
  {| at_ := InLoop; reader := r; rchunk := chunk; snpIndex := 0;
     started := []; running := []; finished := []; counter := 0 |}.

Inductive step (snps : list Snp) (inds : list Ind) : State -> State -> Prop :=
(** one turn of the outer loop: read, unpack, [wg.Add(1)], [go] *)
| step_row : forall st s r chunk row,
    at_ st = InLoop ->
    nth_error snps (snpIndex st) = Some s ->
    Read (reader st) (rchunk st) = (r, chunk) ->
    decodeRow chunk (List.length inds) = Some row ->
    step snps inds st
      {| at_ := InLoop; reader := r; rchunk := chunk;
         snpIndex := S (snpIndex st);
         started := started st
                    ++ [{| genoRowArg := row; snpArg := s; indsArg := inds |}];
         running := running st; finished := finished st;
         counter := counter st + 1 |}
(** the same turn when [rchunk[byteOffset]] is out of range *)
| step_row_panic : forall st s r chunk,
    at_ st = InLoop ->
    nth_error snps (snpIndex st) = Some s ->
    Read (reader st) (rchunk st) = (r, chunk) ->
    decodeRow chunk (List.length inds) = None ->
    step snps inds st
      {| at_ := Panicked; reader := r; rchunk := chunk;
         snpIndex := snpIndex st;
         started := started st; running := running st;
         finished := finished st; counter := counter st |}
(** some goroutine enters [processFunc] *)
| step_call : forall st before c after,
    started st = before ++ c :: after ->
    step snps inds st
      {| at_ := at_ st; reader := reader st; rchunk := rchunk st;
         snpIndex := snpIndex st;
         started := before ++ after; running := c :: running st;
         finished := finished st; counter := counter st |}
(** some call of [processFunc] returns and its goroutine does
    [wg.Done()] *)
| step_done : forall st before c after,
    running st = before ++ c :: after ->
    step snps inds st
      {| at_ := at_ st; reader := reader st; rchunk := rchunk st;
         snpIndex := snpIndex st;
         started := started st; running := before ++ after;
         finished := finished st ++ [c]; counter := counter st - 1 |}
(** the loop is over and [wg.Wait()] finds the counter at zero *)
| step_return : forall st,
    at_ st = InLoop ->
    nth_error snps (snpIndex st) = None ->
    counter st = 0 ->
    step snps inds st
      {| at_ := Returned; reader := reader st; rchunk := rchunk st;
         snpIndex := snpIndex st;
         started := started st; running := running st;
         finished := finished st; counter := counter st |}.

Inductive steps (snps : list Snp) (inds : list Ind) : State -> State -> Prop :=
| steps_refl : forall st, steps snps inds st st
| steps_step : forall st1 st2 st3,
    steps snps inds st1 st2 -> step snps inds st2 st3 ->
    steps snps inds st1 st3.

(** How a call of ProcessGenoRows ends. *)
Inductive ending : Type :=
| Ended (err : option error)
| Aborted.                     (* a panic *)

(** [ProcessGenoRows fs genoPath indPath snpPath e calls]: a call can end
    as [e], and [calls] are the calls of [processFunc] that have returned
    by then, in the order in which they returned. *)
Inductive ProcessGenoRows (fs : filesystem) (genoPath indPath snpPath : string)
  : ending -> list Call -> Prop :=
| run_fail : forall err,
    prelude fs genoPath indPath snpPath = Fail err ->
    ProcessGenoRows fs genoPath indPath snpPath (Ended (Some err)) []
| run_crash :
    prelude fs genoPath indPath snpPath = Crash ->
    ProcessGenoRows fs genoPath indPath snpPath Aborted []
| run_return : forall snps inds genoReader st,
    prelude fs genoPath indPath snpPath = Val (snps, inds, genoReader) ->
    steps snps inds (enter inds genoReader) st ->
    at_ st = Returned ->
    ProcessGenoRows fs genoPath indPath snpPath (Ended None) (finished st)
| run_panic : forall snps inds genoReader st,
    prelude fs genoPath indPath snpPath = Val (snps, inds, genoReader) ->
    steps snps inds (enter inds genoReader) st ->
    at_ st = Panicked ->
    ProcessGenoRows fs genoPath indPath snpPath Aborted (finished st).

(** The rows in the order the main goroutine hands them out: the outer
    loop without the goroutines. *)
Fixpoint rowsFrom (todo : list Snp) (inds : list Ind) (r : Reader)
  (chunk : list byte) : option (list Call) :=
  match todo with
  | [] => Some []
  | s :: todo' =>
      let '(r', chunk') := Read r chunk in
      match decodeRow chunk' (List.length inds) with
      | None => None
      | Some row =>
          match rowsFrom todo' inds r' chunk' with
          | None => None
          | Some calls =>
              Some ({| genoRowArg := row; snpArg := s; indsArg := inds |}
                    :: calls)
          end
      end
  end.

Definition rows (snps : list Snp) (inds : list Ind) (genoReader : Reader)
  : option (list Call) :=
  let st := enter inds genoReader in
  rowsFrom snps inds (reader st) (rchunk st).

(** What holds of every state that the call can reach, [dispatched] being
    the rows of the sequential loop: no panic, the rows still to come are
    the rest of [dispatched], the goroutines and the finished calls are the
    rows handed out so far, and the counter counts the goroutines. *)
Definition loopInvariant (snps : list Snp) (inds : list Ind)
  (dispatched : list Call) (st : State) : Prop :=
  at_ st <> Panicked /\
  rowsFrom (skipn (snpIndex st) snps) inds (reader st) (rchunk st)
  = Some (skipn (snpIndex st) dispatched) /\
  Permutation (started st ++ running st ++ finished st)
              (firstn (snpIndex st) dispatched) /\
  counter st
  = Z.of_nat (List.length (started st) + List.length (running st)) /\
  (at_ st = Returned ->
   nth_error snps (snpIndex st) = None /\ counter st = 0).

End Package.

(** The reader and the record buffer after [k] more calls of [Read]. *)
Fixpoint reads (k : nat) (r : Reader) (chunk : list byte)
  : Reader * list byte :=
  match k with
  | O => (r, chunk)
  | S k' => let '(r', chunk') := Read r chunk in reads k' r' chunk'
  end.

(** A reader from which the records of [w] bytes still in the file are
    read whole: [Read] has as many bytes to hand out as the record buffer
    takes.  Either the records are as wide as the reader's own buffer of
    4096 bytes and are read into the record buffer directly, or their width
    divides 4096 and the reader's buffer holds whole records, or what is
    left of the file is all in the reader's buffer or will be after the
    next read. *)
Definition readsWhole (w : nat) (r : Reader) : Prop :=
  ((4096 <= w)%nat /\ buffered r = []) \/
  (Nat.divide w 4096 /\ Nat.divide w (List.length (buffered r))) \/
  unread r = [] \/
  ((List.length (unread r) <= 4096)%nat /\ buffered r = []).

(** ** The digest in the words of the specification *)
Module Spec.

(** [tokenHash = tokenHash*23 + byteValue] over the bytes of the token, in
    unsigned 32-bit arithmetic. *)
Definition polynomialHash (token : gostring) : Z :=
  fold_left (fun tokenHash b => (tokenHash * 23 + byteval b) mod 2 ^ 32)
            token 0.

(** The first run of non-whitespace characters of a line, empty if the line
    has none.  White space is what the expression of the code, [\S+],
    leaves out: space, tab, newline, form feed and carriage return. *)
Definition firstToken (line : gostring) : gostring :=
  takeWhile (fun b => negb (isPerlSpace b)) (dropWhile isPerlSpace line).

(** [hash = (hash*17) XOR tokenHash], line after line, from 0. *)
Definition foldLines (lines : list gostring) : Z :=
  fold_left
    (fun hash line =>
       Z.lxor ((hash * 17) mod 2 ^ 32) (polynomialHash (firstToken line)))
    lines 0.

(** The digest of a file: the fold over its lines. *)
Definition computeDigest (data : gostring) : Z :=
  foldLines (splitLines data).

End Spec.

(** The lines of [data] that end in a newline: all of its lines, but for
    what follows the last newline. *)
Fixpoint terminatedLines (data : gostring) : list gostring :=
  match data with
  | [] => []
  | c :: data' =>
      if Ascii.eqb c newline then [] :: terminatedLines data'
      else match terminatedLines data' with
           | [] => []
           | l :: ls => (c :: l) :: ls
           end
  end.

(** ** A data set for the examples *)
Module Example.

(** A parser for the examples: a literal of at most twenty digits with at
    most one decimal point is a number, in the range of [float32], for
    [strconv.ParseFloat] too.  Its value is kept as the literal. *)
Definition isPlainDecimal (s : gostring) : bool :=
  let point c := Ascii.eqb c "."%char in
  match decimal (filter (fun c => negb (point c)) s) with
  | Some _ =>
      (List.length (filter point s) <=? 1)%nat && (List.length s <=? 20)%nat
  | None => false
  end.

#[export] Instance plainFloats : FloatParser := {|
  float32 := gostring;
  parseFloat32 := fun s => if isPlainDecimal s then Some s else None
|}.

Definition line (s : string) : gostring := str s ++ [newline].

(** [s] filled with zero bytes up to [n] bytes. *)
Definition pad (n : nat) (s : gostring) : gostring :=
  s ++ repeat zero (n - List.length s).

(** One individual and one marker. *)
Definition indFile : gostring := line "i1 M pop".
Definition snpFile : gostring := line "rs1 1 0.0 100 A G".

(** The header carries the hashes of the two tables, 0x9a0 and 0xf618. *)
Definition header : gostring := str "GENO 1 1 9a0 f618".

(** The header record and the record of the marker: genotype 2. *)
Definition genoFile : gostring := pad 48 header ++ pad 48 [ascii_of_nat 2].

(** The same file cut off after the header record, and cut off within
    it. *)
Definition genoCut : gostring := pad 48 header.
Definition genoStub : gostring := header.

Definition disk (geno ind snp : gostring) : filesystem :=
  fun path =>
    if String.eqb path "d.geno" then Some geno
    else if String.eqb path "d.ind" then Some ind
    else if String.eqb path "d.snp" then Some snp
    else None.

Definition theInd : Ind :=
  {| SampleID := str "i1"; Gender := str "M"; Label := str "pop" |}.

Definition theSnp : Snp :=
  {| Name := str "rs1"; Chromosome := 1; GeneticPos := str "0.0";
     PhysicalPos := 100; Ref := 65; Alt := 71 |}.

(** A marker table whose last line has no newline. *)
Definition openEnded : gostring :=
  line "rs1 1 0.0 100 A G" ++ str "rs2 1 0.0 200 A G".

(** A larger data set: one individual and [m] markers of genotype 1.  No
    byte of its geno file is a newline. *)
Definition snpLine (k : nat) : gostring :=
  str "rs" ++ FormatInt (Z.of_nat k) 10 ++ str " 1 0.0 "
  ++ FormatInt (Z.of_nat (1000 + k)) 10 ++ str " A G" ++ [newline].

Definition snpTable (m : nat) : gostring := flat_map snpLine (seq 1 m).

Definition genoOf (header : gostring) (m : nat) : gostring :=
  pad 48 header ++ flat_map (fun _ => pad 48 [ascii_of_nat 1]) (seq 1 m).

(** 1400 markers: a geno file of 67248 bytes. *)
Definition bigSnps : gostring := snpTable 1400.
Definition bigGeno : gostring :=
  genoOf (str "GENO 1 1400 9a0 6705f0d3") 1400.

(** 100 markers: a geno file of 4848 bytes, more than the 4096 bytes that
    the reader buffers at a time. *)
Definition midSnps : gostring := snpTable 100.
Definition midGeno : gostring := genoOf (str "GENO 1 100 9a0 d444b2a1") 100.

(** The marker that the line [snpLine k] stands for. *)
Definition midMarker (k : nat) : Snp :=
  {| Name := str "rs" ++ FormatInt (Z.of_nat k) 10; Chromosome := 1;
     GeneticPos := str "0.0"; PhysicalPos := 1000 + Z.of_nat k;
     Ref := 65; Alt := 71 |}.

(** The [k]-th record of a geno file for one individual, the header being
    record 0. *)
Definition recordOf (geno : gostring) (k : nat) : list byte :=
  firstn 48 (skipn (48 * k) geno).

(** Marker tables with chromosome codes beyond a byte, and with too few
    columns. *)
Definition oddChromosomes : gostring :=
  line "rs1 300 0.0 100 A G" ++ line "rs2 -1 0.0 200 A G".

Definition fourColumns : gostring := line "rs1 1 0.0 100".
Definition threeColumns : gostring := line "rs1 1 0.0".
Definition blankLine : gostring := snpFile ++ [newline].
Definition twoColumns : gostring := line "i1 M".

End Example.

(** * Properties *)

(** ** Integers, float64 and the record width *)

Lemma float64_of_int_exact (z : Z) :
  Z.abs z <= 2 ^ 53 -> float64_of_int z = z.
Proof.
  intros Hz. unfold float64_of_int.
  destruct (Z.abs z <? 2 ^ 53) eqn:E; [reflexivity|].
  apply Z.ltb_ge in E.
  assert (Habs : Z.abs z = 2 ^ 53) by lia.
  destruct (Z.abs_eq_or_opp z) as [Hs|Hs]; rewrite Hs in Habs.
  - rewrite Habs. reflexivity.
  - assert (Hm : z = - 2 ^ 53) by lia. rewrite Hm. reflexivity.
Qed.

Lemma chunkSize_exact (n : Z) :
  0 <= n <= 2 ^ 53 -> chunkSize n = (n + 3) / 4.
Proof.
  intros Hn. unfold chunkSize, ceilQuarter.
  rewrite float64_of_int_exact by lia.
  pose proof (Z.div_mod (- n) 4 ltac:(lia)) as H1.
  pose proof (Z.mod_pos_bound (- n) 4 ltac:(lia)) as H2.
  pose proof (Z.div_mod (n + 3) 4 ltac:(lia)) as H3.
  pose proof (Z.mod_pos_bound (n + 3) 4 ltac:(lia)) as H4.
  lia.
Qed.

(** [(n + 3) / 4] is the ceiling of [n / 4]: the least [c] with
    [n <= 4 * c]. *)
Lemma ceiling_quarter (n : Z) :
  4 * ((n + 3) / 4 - 1) < n <= 4 * ((n + 3) / 4).
Proof.
  pose proof (Z.div_mod (n + 3) 4 ltac:(lia)) as H3.
  pose proof (Z.mod_pos_bound (n + 3) 4 ltac:(lia)) as H4.
  lia.
Qed.

Lemma genoChunkSize_lower (n : Z) : chunkSize n <= genoChunkSize n.
Proof.
  unfold genoChunkSize. destruct (chunkSize n <? 48) eqn:E.
  - apply Z.ltb_lt in E. lia.
  - lia.
Qed.

Lemma genoChunkSize_pos (n : Z) : 48 <= genoChunkSize n.
Proof.
  unfold genoChunkSize. destruct (chunkSize n <? 48) eqn:E.
  - lia.
  - apply Z.ltb_ge in E. lia.
Qed.

(** ** The bit unpacking *)

Lemma genotypeAt_exact (rchunk : list byte) (i : Z) :
  0 <= i <= 2 ^ 53 ->
  genotypeAt rchunk i =
  match nth_error rchunk (Z.to_nat (i / 4)) with
  | Some b => Some (Z.land (Z.shiftr (byteval b) (i mod 4 * 2)) 3)
  | None => None
  end.
Proof.
  intros Hi. unfold genotypeAt, floorQuarter.
  rewrite float64_of_int_exact by lia.
  rewrite Z.rem_mod_nonneg by lia.
  pose proof (Z.mod_pos_bound i 4 ltac:(lia)) as Hm.
  unfold uint8.
  rewrite (Z.mod_small (i mod 4)) by (change (2 ^ 8) with 256; lia).
  rewrite (Z.mod_small (i mod 4 * 2)) by (change (2 ^ 8) with 256; lia).
  reflexivity.
Qed.

(** The inner loop does not leave a buffer that holds a byte for every
    fourth individual, and each code is the one [genotypeAt] reads. *)
Lemma decodeFrom_total (rchunk : list byte) (count : nat) :
  forall i : Z,
    0 <= i -> i + Z.of_nat count <= 2 ^ 53 ->
    (i + Z.of_nat count + 3) / 4 <= Z.of_nat (List.length rchunk) ->
    exists row,
      decodeFrom rchunk i count = Some row /\
      List.length row = count /\
      forall k, (k < count)%nat ->
        genotypeAt rchunk (i + Z.of_nat k) = Some (nth k row 0).
Proof.
  induction count as [|count IH]; intros i Hi Hmax Hlen.
  - exists []. split; [reflexivity|]. split; [reflexivity|]. intros k Hk. lia.
  - assert (Hin : (Z.to_nat (i / 4) < List.length rchunk)%nat).
    { pose proof (Z.div_pos i 4 Hi ltac:(lia)) as Hq.
      assert (i / 4 < (i + Z.of_nat (S count) + 3) / 4).
      { apply Z.div_lt_upper_bound; [lia|].
        pose proof (ceiling_quarter (i + Z.of_nat (S count))). lia. }
      lia. }
    destruct (nth_error rchunk (Z.to_nat (i / 4))) as [b|] eqn:Eb.
    2:{ apply nth_error_None in Eb. lia. }
    destruct (IH (i + 1)) as (row & Hrow & Hl & Hnth); try lia.
    { replace (i + 1 + Z.of_nat count) with (i + Z.of_nat (S count)) by lia.
      exact Hlen. }
    assert (Hg : genotypeAt rchunk i
                 = Some (Z.land (Z.shiftr (byteval b) (i mod 4 * 2)) 3)).
    { rewrite genotypeAt_exact by lia. rewrite Eb. reflexivity. }
    exists (Z.land (Z.shiftr (byteval b) (i mod 4 * 2)) 3 :: row).
    split; [|split].
    + simpl. rewrite Hg, Hrow. reflexivity.
    + simpl. rewrite Hl. reflexivity.
    + intros [|k] Hk.
      * simpl. rewrite Z.add_0_r. exact Hg.
      * simpl nth.
        replace (i + Z.of_nat (S k)) with (i + 1 + Z.of_nat k) by lia.
        apply Hnth. lia.
Qed.

Lemma decodeRow_total (rchunk : list byte) (n : nat) :
  Z.of_nat n <= 2 ^ 53 ->
  chunkSize (Z.of_nat n) <= Z.of_nat (List.length rchunk) ->
  exists row,
    decodeRow rchunk n = Some row /\
    List.length row = n /\
    forall k, (k < n)%nat ->
      genotypeAt rchunk (Z.of_nat k) = Some (nth k row 0).
Proof.
  intros Hn Hlen. rewrite chunkSize_exact in Hlen by lia.
  destruct (decodeFrom_total rchunk n 0) as (row & H1 & H2 & H3);
    [lia | lia | rewrite Z.add_0_l; exact Hlen |].
  exists row. split; [exact H1|]. split; [exact H2|].
  intros k Hk. apply (H3 k Hk).
Qed.

(** ** The record buffer *)

Lemma copyOut_length (r : Reader) (p : list byte) :
  List.length (snd (copyOut r p)) = List.length p.
Proof.
  unfold copyOut. simpl.
  rewrite length_app, length_firstn, length_skipn. lia.
Qed.

(** [Read] writes into [p]; it never changes its length. *)
Lemma Read_length (r : Reader) (p : list byte) :
  List.length (snd (Read r p)) = List.length p.
Proof.
  unfold Read. destruct p as [|c p]; [reflexivity|].
  destruct (buffered r) as [|b bs].
  - destruct (defaultBufSize <=? Z.of_nat (List.length (c :: p))).
    + cbn [snd]. rewrite length_app, length_skipn, length_firstn. lia.
    + apply copyOut_length.
  - apply copyOut_length.
Qed.

(** With nothing buffered and nothing left in the file, [Read] leaves the
    reader and the buffer [p] as they were. *)
Lemma Read_at_end (p : list byte) :
  Read {| buffered := []; unread := [] |} p
  = ({| buffered := []; unread := [] |}, p).
Proof.
  unfold Read. destruct p as [|c p]; [reflexivity|].
  cbn [buffered unread].
  destruct (defaultBufSize <=? Z.of_nat (List.length (c :: p))).
  - rewrite firstn_nil, skipn_nil. reflexivity.
  - unfold copyOut. cbn [buffered unread].
    rewrite firstn_nil, skipn_nil. reflexivity.
Qed.

Section Buffer.
Context `{FloatParser}.

Lemma makeChunk_length (inds : list Ind) :
  Z.of_nat (List.length (makeChunk inds))
  = genoChunkSize (Z.of_nat (List.length inds)).
Proof.
  unfold makeChunk. rewrite repeat_length.
  pose proof (genoChunkSize_pos (Z.of_nat (List.length inds))). lia.
Qed.

Lemma enter_length (inds : list Ind) (genoReader : Reader) :
  List.length (rchunk (enter inds genoReader))
  = List.length (makeChunk inds).
Proof.
  unfold enter.
  pose proof (Read_length genoReader (makeChunk inds)) as Hl.
  destruct (Read genoReader (makeChunk inds)) as [r chunk].
  exact Hl.
Qed.

Lemma step_length (snps : list Snp) (inds : list Ind) (st st' : State) :
  step snps inds st st' ->
  List.length (rchunk st') = List.length (rchunk st).
Proof.
  intros Hstep. destruct Hstep as
    [st s r chunk row _ _ HR _ | st s r chunk _ _ HR _ | | | ];
    cbn [rchunk]; try reflexivity.
  - pose proof (Read_length (reader st) (rchunk st)) as Hl.
    rewrite HR in Hl. exact Hl.
  - pose proof (Read_length (reader st) (rchunk st)) as Hl.
    rewrite HR in Hl. exact Hl.
Qed.

Lemma steps_length (snps : list Snp) (inds : list Ind) (st st' : State) :
  steps snps inds st st' ->
  List.length (rchunk st') = List.length (rchunk st).
Proof.
  induction 1 as [st|st1 st2 st3 _ IH Hstep]; [reflexivity|].
  rewrite (step_length _ _ _ _ Hstep). exact IH.
Qed.

End Buffer.

(** ** The outer loop and its goroutines *)

Lemma skipn_nth_error {A} (l : list A) (k : nat) (x : A) :
  nth_error l k = Some x -> skipn k l = x :: skipn (S k) l.
Proof.
  revert l. induction k as [|k IH]; intros [|y l] Hk; try discriminate.
  - injection Hk as ->. reflexivity.
  - apply (IH l Hk).
Qed.

Lemma skipn_cons_inv {A} (k : nat) (l : list A) (x : A) (t : list A) :
  skipn k l = x :: t ->
  skipn (S k) l = t /\ firstn (S k) l = firstn k l ++ [x].
Proof.
  revert l. induction k as [|k IH]; intros [|y l] Hk; try discriminate.
  - injection Hk as -> ->. split; reflexivity.
  - destruct (IH l Hk) as [H1 H2]. split; [exact H1|].
    change (firstn (S (S k)) (y :: l)) with (y :: firstn (S k) l).
    rewrite H2. reflexivity.
Qed.

Section Dispatch.
Context `{FloatParser}.
Variable snps : list Snp.
Variable inds : list Ind.

Hypothesis inds_bound : Z.of_nat (List.length inds) <= 2 ^ 53.

Lemma steps_trans (st1 st2 st3 : State) :
  steps snps inds st1 st2 -> steps snps inds st2 st3 ->
  steps snps inds st1 st3.
Proof.
  intros H12 H23. induction H23 as [|st2 st3 st4 _ IH Hstep].
  - exact H12.
  - eapply steps_step; [apply IH; exact H12 | exact Hstep].
Qed.

(** The sequential loop hands out one row per marker, each with the
    marker of its turn and the table of individuals. *)
Lemma rowsFrom_total (todo : list Snp) :
  forall (r : Reader) (chunk : list byte),
    chunkSize (Z.of_nat (List.length inds))
    <= Z.of_nat (List.length chunk) ->
    exists calls,
      rowsFrom todo inds r chunk = Some calls /\
      map snpArg calls = todo /\
      Forall (fun c => indsArg c = inds /\
                       List.length (genoRowArg c) = List.length inds) calls.
Proof.
  induction todo as [|s todo IH]; intros r chunk Hlen.
  - exists []. repeat split. constructor.
  - cbn [rowsFrom].
    pose proof (Read_length r chunk) as HRl.
    destruct (Read r chunk) as [r' chunk'] eqn:HR. cbn [snd] in HRl.
    destruct (decodeRow_total chunk' (List.length inds) inds_bound)
      as (row & Hrow & Hl & _); [lia|].
    rewrite Hrow.
    destruct (IH r' chunk') as (calls & Hcalls & Hmap & Hall); [lia|].
    rewrite Hcalls. eexists. split; [reflexivity|].
    split; [cbn; rewrite Hmap; reflexivity|].
    constructor; [split; [reflexivity | exact Hl] | exact Hall].
Qed.

Variable genoReader : Reader.
Variable dispatched : list Call.
Hypothesis rows_dispatched : rows snps inds genoReader = Some dispatched.

Lemma enter_fields :
  at_ (enter inds genoReader) = InLoop /\
  snpIndex (enter inds genoReader) = 0%nat /\
  started (enter inds genoReader) = [] /\
  running (enter inds genoReader) = [] /\
  finished (enter inds genoReader) = [] /\
  counter (enter inds genoReader) = 0.
Proof.
  unfold enter. destruct (Read genoReader (makeChunk inds)).
  repeat split.
Qed.

Lemma invariant_enter :
  loopInvariant snps inds dispatched (enter inds genoReader).
Proof.
  destruct enter_fields as (Hat & Hk & Hs & Hr & Hf & Hc).
  unfold loopInvariant. rewrite Hat, Hk, Hs, Hr, Hf, Hc.
  split; [discriminate|]. split; [exact rows_dispatched|].
  split; [constructor|]. split; [reflexivity|]. discriminate.
Qed.

Lemma invariant_step (st st' : State) :
  loopInvariant snps inds dispatched st -> step snps inds st st' ->
  loopInvariant snps inds dispatched st'.
Proof.
  intros (Hat & Hrows & Hperm & Hcount & Hret) Hstep.
  destruct Hstep as
    [st s r chunk row Hin Hs HR Hrow | st s r chunk Hin Hs HR Hrow
    | st before c after Hst | st before c after Hrun | st Hin Hs Hc];
    unfold loopInvariant; cbn [at_ reader rchunk snpIndex started running
                             finished counter].
  - (* a row is handed out *)
    rewrite (skipn_nth_error _ _ _ Hs) in Hrows. cbn [rowsFrom] in Hrows.
    rewrite HR, Hrow in Hrows.
    destruct (rowsFrom (skipn (S (snpIndex st)) snps) inds r chunk)
      as [calls|] eqn:Hcalls; [|discriminate].
    injection Hrows as Hrows. symmetry in Hrows.
    destruct (skipn_cons_inv _ _ _ _ Hrows) as [Hskip Hfirst].
    split; [discriminate|]. split; [rewrite Hskip; reflexivity|].
    split; [|split].
    + rewrite Hfirst, <- app_assoc. cbn [app].
      etransitivity; [symmetry; apply Permutation_middle|].
      etransitivity; [|apply Permutation_cons_append].
      apply perm_skip. exact Hperm.
    + rewrite Hcount, length_app. cbn [List.length]. lia.
    + discriminate.
  - (* the inner loop cannot panic *)
    rewrite (skipn_nth_error _ _ _ Hs) in Hrows. cbn [rowsFrom] in Hrows.
    rewrite HR, Hrow in Hrows. discriminate.
  - (* a goroutine enters processFunc *)
    rewrite Hst in Hperm, Hcount.
    split; [exact Hat|]. split; [exact Hrows|]. split; [|split].
    + etransitivity; [|exact Hperm].
      rewrite <- !app_assoc. apply Permutation_app_head.
      cbn [app]. symmetry. apply Permutation_middle.
    + rewrite Hcount, !length_app. cbn [List.length]. lia.
    + exact Hret.
  - (* a call returns *)
    rewrite Hrun in Hperm, Hcount.
    split; [exact Hat|]. split; [exact Hrows|]. split; [|split].
    + etransitivity; [|exact Hperm].
      apply Permutation_app_head. rewrite <- !app_assoc.
      apply Permutation_app_head. cbn [app]. rewrite app_assoc.
      symmetry. apply Permutation_cons_append.
    + rewrite Hcount, !length_app. cbn [List.length]. lia.
    + intros Hr. destruct (Hret Hr) as [_ H0].
      rewrite Hcount, !length_app in H0. cbn [List.length] in H0. lia.
  - (* the wait is over *)
    split; [discriminate|]. split; [exact Hrows|].
    split; [exact Hperm|]. split; [exact Hcount|].
    intros _. split; [exact Hs | exact Hc].
Qed.

Lemma invariant_steps (st st' : State) :
  loopInvariant snps inds dispatched st -> steps snps inds st st' ->
  loopInvariant snps inds dispatched st'.
Proof.
  intros Hinv Hsteps. induction Hsteps as [|st1 st2 st3 _ IH Hstep].
  - exact Hinv.
  - apply (invariant_step st2); [apply IH; exact Hinv | exact Hstep].
Qed.

Lemma dispatched_markers :
  map snpArg dispatched = snps /\
  Forall (fun c => indsArg c = inds /\
                   List.length (genoRowArg c) = List.length inds) dispatched.
Proof.
  pose proof rows_dispatched as Hd. unfold rows in Hd.
  destruct (rowsFrom_total snps (reader (enter inds genoReader))
              (rchunk (enter inds genoReader)))
    as (calls & Hcalls & Hmap & Hall).
  - rewrite enter_length, makeChunk_length. apply genoChunkSize_lower.
  - rewrite Hcalls in Hd. injection Hd as <-. split; assumption.
Qed.

(** When the call has returned, no goroutine is left and the calls that
    have returned are the dispatched ones, each once. *)
Lemma invariant_returned (st : State) :
  loopInvariant snps inds dispatched st -> at_ st = Returned ->
  started st = [] /\ running st = [] /\
  Permutation (finished st) dispatched.
Proof.
  intros (_ & _ & Hperm & Hcount & Hret) Hat.
  destruct (Hret Hat) as [Hend H0]. rewrite H0 in Hcount.
  assert (Hs : started st = []).
  { destruct (started st); [reflexivity | cbn in Hcount; lia]. }
  assert (Hr : running st = []).
  { destruct (running st); [reflexivity|].
    rewrite Hs in Hcount. cbn in Hcount. lia. }
  split; [exact Hs|]. split; [exact Hr|].
  rewrite Hs, Hr in Hperm. cbn [app] in Hperm.
  apply nth_error_None in Hend.
  destruct dispatched_markers as [Hmap _].
  rewrite firstn_all2 in Hperm; [exact Hperm|].
  rewrite <- (length_map snpArg), Hmap. exact Hend.
Qed.

(** *** The call does return *)

Lemma drain_started (n : nat) :
  forall st, List.length (started st) = n ->
    exists st', steps snps inds st st' /\
                started st' = [] /\
                at_ st' = at_ st /\ snpIndex st' = snpIndex st.
Proof.
  induction n as [|n IH]; intros st Hn.
  - exists st. split; [constructor|].
    destruct (started st); [repeat split | discriminate].
  - destruct (started st) as [|c rest] eqn:Hst; [discriminate|].
    pose proof (step_call snps inds st [] c rest Hst) as Hstep.
    cbn [app] in Hstep.
    match type of Hstep with step _ _ _ ?s1 =>
      destruct (IH s1) as (st' & Hsteps & Hnil & Hat & Hk)
    end.
    { cbn [started]. cbn in Hn. lia. }
    exists st'. split; [|repeat split; assumption].
    eapply steps_trans; [|exact Hsteps].
    eapply steps_step; [constructor | exact Hstep].
Qed.

Lemma drain_running (n : nat) :
  forall st, List.length (running st) = n ->
    exists st', steps snps inds st st' /\
                running st' = [] /\ started st' = started st /\
                at_ st' = at_ st /\ snpIndex st' = snpIndex st.
Proof.
  induction n as [|n IH]; intros st Hn.
  - exists st. split; [constructor|].
    destruct (running st); [repeat split | discriminate].
  - destruct (running st) as [|c rest] eqn:Hst; [discriminate|].
    pose proof (step_done snps inds st [] c rest Hst) as Hstep.
    cbn [app] in Hstep.
    match type of Hstep with step _ _ _ ?s1 =>
      destruct (IH s1) as (st' & Hsteps & Hnil & Hs & Hat & Hk)
    end.
    { cbn [running]. cbn in Hn. lia. }
    exists st'. split; [|repeat split; assumption].
    eapply steps_trans; [|exact Hsteps].
    eapply steps_step; [constructor | exact Hstep].
Qed.

Lemma run_loop (n : nat) :
  forall st, loopInvariant snps inds dispatched st -> at_ st = InLoop ->
    (List.length snps - snpIndex st = n)%nat ->
    exists st', steps snps inds st st' /\
                at_ st' = InLoop /\
                nth_error snps (snpIndex st') = None.
Proof.
  induction n as [|n IH]; intros st Hinv Hat Hn.
  - exists st. split; [constructor|]. split; [exact Hat|].
    apply nth_error_None. lia.
  - destruct (nth_error snps (snpIndex st)) as [s|] eqn:Hs.
    2:{ apply nth_error_None in Hs. lia. }
    destruct (Read (reader st) (rchunk st)) as [r chunk] eqn:HR.
    destruct (decodeRow chunk (List.length inds)) as [row|] eqn:Hrow.
    + pose proof (step_row snps inds st s r chunk row
                    Hat Hs HR Hrow) as Hstep.
      match type of Hstep with step _ _ _ ?s1 =>
        destruct (IH s1) as (st' & Hsteps & Hat' & Hend)
      end.
      * apply (invariant_step st); assumption.
      * reflexivity.
      * cbn [snpIndex]. lia.
      * exists st'. split; [|split; assumption].
        eapply steps_trans; [|exact Hsteps].
        eapply steps_step; [constructor | exact Hstep].
    + pose proof (step_row_panic snps inds st s r chunk
                    Hat Hs HR Hrow) as Hstep.
      destruct (invariant_step st _ Hinv Hstep) as [Hno _].
      exfalso. apply Hno. reflexivity.
Qed.

(** From every state in the loop the call can go on to its return. *)
Lemma can_return (st : State) :
  loopInvariant snps inds dispatched st -> at_ st = InLoop ->
  exists st', steps snps inds st st' /\ at_ st' = Returned.
Proof.
  intros Hinv Hat.
  destruct (run_loop _ st Hinv Hat eq_refl) as (st1 & H1 & Hat1 & Hend1).
  destruct (drain_started _ st1 eq_refl) as (st2 & H2 & Hs2 & Hat2 & Hk2).
  destruct (drain_running _ st2 eq_refl)
    as (st3 & H3 & Hr3 & Hs3 & Hat3 & Hk3).
  assert (Hsteps : steps snps inds st st3).
  { eapply steps_trans; [|exact H3].
    eapply steps_trans; [exact H1 | exact H2]. }
  pose proof (invariant_steps st st3 Hinv Hsteps)
    as (_ & _ & _ & Hcount & _).
  rewrite Hr3, Hs3, Hs2 in Hcount. cbn in Hcount.
  assert (Hat3' : at_ st3 = InLoop) by congruence.
  assert (Hend3 : nth_error snps (snpIndex st3) = None) by congruence.
  pose proof (step_return snps inds st3 Hat3' Hend3 Hcount)
    as Hstep.
  eexists. split; [eapply steps_step; [exact Hsteps | exact Hstep]|].
  reflexivity.
Qed.

End Dispatch.

(** ** ProcessGenoRows as a whole *)

Section Run.
Context `{FloatParser}.
Variable fs : filesystem.
Variables genoPath indPath snpPath : string.

Lemma Open_no_crash (path : string) : Open fs path <> Crash.
Proof. unfold Open. destruct (fs path); discriminate. Qed.

Lemma HashFileFirstColumn_no_panic (path : string) :
  HashFileFirstColumn fs path <> Panics.
Proof.
  unfold HashFileFirstColumn, Open. destruct (fs path); discriminate.
Qed.

Lemma Calcishash_no_panic :
  Calcishash fs genoPath indPath snpPath <> Panics.
Proof.
  unfold Calcishash, Open.
  destruct (fs genoPath) as [file|]; cbn; [|discriminate].
  destruct (firstLine file) as [header|]; [|discriminate].
  pose proof (HashFileFirstColumn_no_panic indPath) as Hi.
  pose proof (HashFileFirstColumn_no_panic snpPath) as Hs.
  destruct (HashFileFirstColumn fs indPath) as [hi [e|]|]; cbn;
    try discriminate; [|contradiction].
  destruct (HashFileFirstColumn fs snpPath) as [hs [e|]|]; cbn;
    try discriminate; [|contradiction].
  unfold Compile.
  destruct (forallb isAlnum (FormatInt hi 16)); cbn; [|discriminate].
  destruct (forallb isAlnum (FormatInt hs 16)); cbn; discriminate.
Qed.

(** The prelude hands over to the loop only after the hash check has
    said yes and both tables have been read without error. *)
Lemma prelude_Val (snps : list Snp) (inds : list Ind) (r : Reader) :
  prelude fs genoPath indPath snpPath = Val (snps, inds, r) ->
  Calcishash fs genoPath indPath snpPath = Returns true None /\
  ReadSnpFile fs snpPath = Returns snps None /\
  ReadIndFile fs indPath = Returns inds None /\
  exists file, fs genoPath = Some file /\ r = NewReader file.
Proof.
  unfold prelude.
  destruct (Calcishash fs genoPath indPath snpPath) as [[|] [e|]|];
    cbn; try discriminate.
  destruct (ReadSnpFile fs snpPath) as [snps' [e|]|]; cbn; try discriminate.
  destruct (ReadIndFile fs indPath) as [inds' [e|]|]; cbn; try discriminate.
  unfold Open. destruct (fs genoPath) as [file|]; cbn; [|discriminate].
  intros Heq. injection Heq as -> -> <-.
  repeat split. exists file. split; reflexivity.
Qed.

Lemma prelude_hash_not_ok :
  Calcishash fs genoPath indPath snpPath <> Returns true None ->
  exists err, prelude fs genoPath indPath snpPath = Fail err.
Proof.
  intros Hno. unfold prelude.
  pose proof Calcishash_no_panic as Hp.
  destruct (Calcishash fs genoPath indPath snpPath) as [[|] [e|]|]; cbn.
  - eexists; reflexivity.
  - contradiction.
  - eexists; reflexivity.
  - eexists; reflexivity.
  - contradiction.
Qed.

Lemma ProcessGenoRows_Fail (err : error) (e : ending) (calls : list Call) :
  prelude fs genoPath indPath snpPath = Fail err ->
  ProcessGenoRows fs genoPath indPath snpPath e calls ->
  e = Ended (Some err) /\ calls = [].
Proof.
  intros Hp Hrun. destruct Hrun as [err' Hp'|Hp'|? ? ? ? Hp'|? ? ? ? Hp'];
    rewrite Hp in Hp'; try discriminate.
  injection Hp' as <-. split; reflexivity.
Qed.

Lemma ProcessGenoRows_Crash (e : ending) (calls : list Call) :
  prelude fs genoPath indPath snpPath = Crash ->
  ProcessGenoRows fs genoPath indPath snpPath e calls ->
  e = Aborted /\ calls = [].
Proof.
  intros Hp Hrun. destruct Hrun as [err' Hp'|Hp'|? ? ? ? Hp'|? ? ? ? Hp'];
    rewrite Hp in Hp'; try discriminate.
  split; reflexivity.
Qed.

(** After a prelude without error every run of the loop returns nil, and
    by then [processFunc] has been called, and has returned, once for
    each row the loop handed out. *)
Lemma ProcessGenoRows_Val (snps : list Snp) (inds : list Ind) (r : Reader) :
  prelude fs genoPath indPath snpPath = Val (snps, inds, r) ->
  Z.of_nat (List.length inds) <= 2 ^ 53 ->
  exists dispatched,
    rows snps inds r = Some dispatched /\
    map snpArg dispatched = snps /\
    Forall (fun c => indsArg c = inds /\
                     List.length (genoRowArg c) = List.length inds)
           dispatched /\
    (forall st, steps snps inds (enter inds r) st ->
       at_ st <> Panicked /\
       (at_ st = Returned ->
        started st = [] /\ running st = [] /\
        Permutation (finished st) dispatched) /\
       (at_ st = InLoop ->
        exists st', steps snps inds st st' /\ at_ st' = Returned)) /\
    (forall e calls,
       ProcessGenoRows fs genoPath indPath snpPath e calls ->
       e = Ended None /\ Permutation calls dispatched) /\
    (exists calls,
       ProcessGenoRows fs genoPath indPath snpPath (Ended None) calls).
Proof.
  intros Hp Hn.
  destruct (rowsFrom_total inds Hn snps (reader (enter inds r))
              (rchunk (enter inds r)))
    as (dispatched & Hd & _).
  { rewrite enter_length, makeChunk_length. apply genoChunkSize_lower. }
  change (rows snps inds r = Some dispatched) in Hd.
  destruct (dispatched_markers snps inds Hn r dispatched Hd) as [Hmap Hall].
  pose proof (invariant_enter snps inds r dispatched Hd) as Hinv0.
  assert (Hreach : forall st, steps snps inds (enter inds r) st ->
    at_ st <> Panicked /\
    (at_ st = Returned ->
     started st = [] /\ running st = [] /\
     Permutation (finished st) dispatched) /\
    (at_ st = InLoop ->
     exists st', steps snps inds st st' /\ at_ st' = Returned)).
  { intros st Hsteps.
    pose proof (invariant_steps snps inds dispatched _ _ Hinv0 Hsteps)
      as Hinv.
    split; [apply Hinv|]. split.
    - apply (invariant_returned snps inds Hn r dispatched Hd st Hinv).
    - apply (can_return snps inds dispatched st Hinv). }
  exists dispatched. split; [exact Hd|]. split; [exact Hmap|].
  split; [exact Hall|]. split; [exact Hreach|]. split.
  - intros e calls Hrun.
    destruct Hrun as [err Hp'|Hp'|snps' inds' r' st Hp' Hsteps Hat
                     |snps' inds' r' st Hp' Hsteps Hat];
      rewrite Hp in Hp'; try discriminate;
      injection Hp' as <- <- <-;
      destruct (Hreach st Hsteps) as (Hno & Hret & _).
    + split; [reflexivity|]. apply Hret. exact Hat.
    + contradiction.
  - destruct (Hreach _ (steps_refl snps inds _)) as (_ & _ & Hgo).
    destruct Hgo as (st' & Hsteps & Hat).
    { apply enter_fields. }
    exists (finished st'). eapply run_return; eassumption.
Qed.

End Run.

(** The call for the [k]-th marker carries that marker and the row
    unpacked from the record buffer as the [k]-th read of the loop left
    it. *)
Lemma rowsFrom_nth `{FloatParser} (todo : list Snp) (inds : list Ind) :
  forall (r : Reader) (chunk : list byte) (calls : list Call) (k : nat)
         (c : Call),
    rowsFrom todo inds r chunk = Some calls ->
    nth_error calls k = Some c ->
    nth_error todo k = Some (snpArg c) /\
    indsArg c = inds /\
    decodeRow (snd (reads (S k) r chunk)) (List.length inds)
    = Some (genoRowArg c).
Proof.
  induction todo as [|s todo IH]; intros r chunk calls k c Hrows Hk.
  - injection Hrows as <-. destruct k; discriminate.
  - cbn [rowsFrom] in Hrows. cbn [reads].
    destruct (Read r chunk) as [r' chunk'] eqn:HR.
    destruct (decodeRow chunk' (List.length inds)) as [row|] eqn:Hrow;
      [|discriminate].
    destruct (rowsFrom todo inds r' chunk') as [calls'|] eqn:Hcalls;
      [|discriminate].
    injection Hrows as <-. destruct k as [|k].
    + injection Hk as <-. cbn. repeat split. exact Hrow.
    + apply (IH r' chunk' calls' k c Hcalls Hk).
Qed.

(** ** The hash of the first column *)

Lemma hashStep_mod (hash : Z) (b : byte) :
  hashStep hash b = (hash * 23 + byteval b) mod 2 ^ 32.
Proof.
  unfold hashStep, uint32.
  rewrite Zplus_mod_idemp_l, Zplus_mod_idemp_r. reflexivity.
Qed.

Lemma HashIt_polynomialHash (s : gostring) :
  Z.of_nat (List.length s) < 2 ^ 32 ->
  HashIt s = Spec.polynomialHash s.
Proof.
  intros Hlen. unfold HashIt, Spec.polynomialHash, uint32.
  rewrite Z.mod_small by lia. rewrite Nat2Z.id, firstn_all.
  generalize 0. induction s as [|b s IH]; intros acc; [reflexivity|].
  cbn [fold_left]. rewrite hashStep_mod. apply IH.
  cbn [List.length] in Hlen. lia.
Qed.

Lemma takeWhile_app_stop {A} (f : A -> bool) (l : list A) (c : A) :
  f c = false -> takeWhile f (l ++ [c]) = takeWhile f l.
Proof.
  intros Hc. induction l as [|x l IH]; cbn.
  - rewrite Hc. reflexivity.
  - destruct (f x); [rewrite IH|]; reflexivity.
Qed.

Lemma takeWhile_length {A} (f : A -> bool) (l : list A) :
  (List.length (takeWhile f l) <= List.length l)%nat.
Proof.
  induction l as [|x l IH]; cbn; [lia|]. destruct (f x); cbn; lia.
Qed.

Lemma dropWhile_length {A} (f : A -> bool) (l : list A) :
  (List.length (dropWhile f l) <= List.length l)%nat.
Proof.
  induction l as [|x l IH]; cbn; [lia|]. destruct (f x); cbn; lia.
Qed.

Lemma FindString_nonspace_length (s : gostring) :
  (List.length (FindString_nonspace s) <= List.length s)%nat.
Proof.
  unfold FindString_nonspace.
  pose proof (takeWhile_length (fun b => negb (isPerlSpace b))
                (dropWhile isPerlSpace s)).
  pose proof (dropWhile_length isPerlSpace s). lia.
Qed.

(** The newline that ends a string of [ReadString] is white space: it is
    never part of the first column. *)
Lemma FindString_nonspace_newline (line : gostring) :
  FindString_nonspace (line ++ [newline]) = Spec.firstToken line.
Proof.
  unfold FindString_nonspace, Spec.firstToken.
  induction line as [|x line IH]; [reflexivity|].
  cbn [app dropWhile]. destruct (isPerlSpace x) eqn:Hx; [exact IH|].
  change (x :: line ++ [newline]) with ((x :: line) ++ [newline]).
  apply takeWhile_app_stop. reflexivity.
Qed.

Lemma readStrings_terminatedLines (data : gostring) :
  fst (readStrings newline data)
  = map (fun l => l ++ [newline]) (terminatedLines data).
Proof.
  induction data as [|c data IH]; [reflexivity|].
  cbn [readStrings terminatedLines].
  destruct (readStrings newline data) as [ls tail]. cbn [fst] in IH.
  destruct (Ascii.eqb c newline) eqn:Hc.
  - apply Ascii.eqb_eq in Hc. subst c. cbn. rewrite IH. reflexivity.
  - destruct (terminatedLines data) as [|l rest]; cbn in IH; subst ls;
      reflexivity.
Qed.

Lemma terminatedLines_length (data : gostring) :
  Forall (fun l => (List.length l <= List.length data)%nat)
         (terminatedLines data).
Proof.
  induction data as [|c data IH]; [constructor|].
  cbn [terminatedLines List.length].
  destruct (Ascii.eqb c newline).
  - constructor; [cbn; lia|].
    eapply Forall_impl; [|exact IH]. cbn. intros l Hl. lia.
  - destruct (terminatedLines data) as [|l rest]; [constructor|].
    inversion IH as [|? ? Hl Hrest]; subst. constructor; [cbn; lia|].
    eapply Forall_impl; [|exact Hrest]. cbn. intros l' Hl'. lia.
Qed.

Lemma splitLines_nil (data : gostring) : splitLines data = [] -> data = [].
Proof.
  destruct data as [|c data]; [reflexivity|]. cbn.
  destruct (Ascii.eqb c newline); [discriminate|].
  destruct (splitLines data); discriminate.
Qed.

(** In a file that ends with a newline every line is a terminated one. *)
Lemma terminatedLines_all (body : gostring) :
  terminatedLines (body ++ [newline]) = splitLines (body ++ [newline]).
Proof.
  induction body as [|c body IH]; [reflexivity|].
  cbn [app terminatedLines splitLines]. rewrite IH.
  destruct (Ascii.eqb c newline); [reflexivity|].
  destruct (splitLines (body ++ [newline])) as [|l ls] eqn:Hs;
    [|reflexivity].
  apply splitLines_nil in Hs. destruct body; discriminate.
Qed.

Lemma fold_foldLine (lines : list gostring) (bound : nat) :
  Z.of_nat bound < 2 ^ 32 ->
  Forall (fun l => (List.length l <= bound)%nat) lines ->
  forall hash,
    fold_left foldLine (map (fun l => l ++ [newline]) lines) hash
    = fold_left
        (fun hash line =>
           Z.lxor ((hash * 17) mod 2 ^ 32)
                  (Spec.polynomialHash (Spec.firstToken line)))
        lines hash.
Proof.
  intros Hb Hall. induction Hall as [|l lines Hl _ IH]; intros hash;
    [reflexivity|].
  cbn [map fold_left]. rewrite <- IH. f_equal.
  unfold foldLine. rewrite FindString_nonspace_newline.
  rewrite HashIt_polynomialHash; [reflexivity|].
  pose proof (takeWhile_length (fun b => negb (isPerlSpace b))
                (dropWhile isPerlSpace l)).
  pose proof (dropWhile_length isPerlSpace l).
  unfold Spec.firstToken. lia.
Qed.

Lemma hashOfData_terminatedLines (data : gostring) :
  Z.of_nat (List.length data) < 2 ^ 32 ->
  hashOfData data = Spec.foldLines (terminatedLines data).
Proof.
  intros Hlen. unfold hashOfData, Spec.foldLines.
  rewrite readStrings_terminatedLines.
  apply (fold_foldLine _ (List.length data) Hlen).
  apply terminatedLines_length.
Qed.

(** ** The hash check *)

Lemma fold_left_nonneg {A} (f : Z -> A -> Z) (l : list A) :
  (forall h a, 0 <= f h a) -> forall h, 0 <= h -> 0 <= fold_left f l h.
Proof.
  intros Hf. induction l as [|a l IH]; intros h Hh; [exact Hh|].
  cbn. apply IH. apply Hf.
Qed.

Lemma HashIt_nonneg (s : gostring) : 0 <= HashIt s.
Proof.
  unfold HashIt. apply fold_left_nonneg; [|lia].
  intros h b. unfold hashStep, uint32. apply Z.mod_pos_bound. lia.
Qed.

Lemma hashOfData_nonneg (data : gostring) : 0 <= hashOfData data.
Proof.
  unfold hashOfData. apply fold_left_nonneg; [|lia].
  intros h l. unfold foldLine. apply Z.lxor_nonneg.
  pose proof (HashIt_nonneg (FindString_nonspace l)).
  assert (0 <= uint32 (h * 17)) by (apply Z.mod_pos_bound; lia).
  tauto.
Qed.

Lemma digitChar_alnum (d : Z) : isAlnum (digitChar d) = true.
Proof.
  unfold digitChar.
  set (alphabet := str "0123456789abcdefghijklmnopqrstuvwxyz").
  assert (Hall : forallb isAlnum alphabet = true) by reflexivity.
  rewrite forallb_forall in Hall.
  destruct (nth_in_or_default (Z.to_nat d) alphabet "0"%char) as [Hin | ->].
  - apply Hall. exact Hin.
  - reflexivity.
Qed.

Lemma formatBits_alnum (fuel : nat) (base : Z) :
  forall u, forallb isAlnum (formatBits fuel u base) = true.
Proof.
  induction fuel as [|fuel IH]; intros u; [reflexivity|].
  cbn [formatBits]. destruct (u <? base).
  - cbn [forallb]. rewrite digitChar_alnum. reflexivity.
  - rewrite forallb_app, IH. cbn [forallb].
    rewrite digitChar_alnum. reflexivity.
Qed.

(** The hexadecimal form of a hash always compiles, to itself. *)
Lemma Compile_FormatInt (i : Z) :
  0 <= i -> Compile (FormatInt i 16) = Val (Literal (FormatInt i 16)).
Proof.
  intros Hi. unfold Compile, FormatInt.
  destruct (i <? 0) eqn:E; [apply Z.ltb_lt in E; lia|].
  rewrite formatBits_alnum. reflexivity.
Qed.

Lemma hasPrefix_spec (pat s : gostring) :
  hasPrefix pat s = true <-> exists post, s = pat ++ post.
Proof.
  revert s. induction pat as [|p pat IH]; intros s.
  - split; [intros _; exists s; reflexivity | reflexivity].
  - destruct s as [|c s]; cbn.
    + split; [discriminate | intros [post Hp]; discriminate].
    + rewrite andb_true_iff, Ascii.eqb_eq, IH. split.
      * intros [-> [post ->]]. exists post. reflexivity.
      * intros [post Hp]. injection Hp as -> ->.
        split; [reflexivity | exists post; reflexivity].
Qed.

(** [contains pat s] says that [pat] is a substring of [s]. *)
Lemma contains_spec (pat s : gostring) :
  contains pat s = true <-> exists pre post, s = pre ++ pat ++ post.
Proof.
  induction s as [|c s IH].
  - cbn. rewrite orb_false_r, hasPrefix_spec. split.
    + intros [post Hp]. exists [], post. exact Hp.
    + intros ([|x pre] & post & Hp); [exists post; exact Hp | discriminate].
  - cbn [contains]. rewrite orb_true_iff, hasPrefix_spec, IH. split.
    + intros [[post Hp]|(pre & post & Hp)].
      * exists [], post. exact Hp.
      * exists (c :: pre), post. rewrite Hp. reflexivity.
    + intros ([|x pre] & post & Hp).
      * left. exists post. exact Hp.
      * right. injection Hp as -> ->. exists pre, post. reflexivity.
Qed.

(** When the scanner delivers a first line, Calcishash answers, with a nil
    error, whether that line has both hexadecimal hashes as substrings and
    the two table paths differ. *)
Lemma Calcishash_with_header
  (fs : filesystem) (genoPath indPath snpPath : string)
  (geno header ind snp : gostring) :
  fs genoPath = Some geno -> firstLine geno = Some header ->
  fs indPath = Some ind -> fs snpPath = Some snp ->
  Calcishash fs genoPath indPath snpPath
  = Returns (contains (FormatInt (hashOfData ind) 16) header
             && contains (FormatInt (hashOfData snp) 16) header
             && negb (String.eqb indPath snpPath)) None.
Proof.
  intros Hg Hh Hi Hs. unfold Calcishash, HashFileFirstColumn, Open.
  rewrite Hg, Hi, Hs. cbn [bind]. rewrite Hh. cbn [try bind].
  rewrite !Compile_FormatInt by apply hashOfData_nonneg.
  reflexivity.
Qed.

(** A table is never accepted as its own partner. *)
Lemma Calcishash_same_path
  (fs : filesystem) (genoPath path : string) :
  exists err, Calcishash fs genoPath path path = Returns false err.
Proof.
  unfold Calcishash, HashFileFirstColumn, Open.
  destruct (fs genoPath) as [geno|]; cbn; [|eexists; reflexivity].
  destruct (firstLine geno) as [header|]; [|eexists; reflexivity].
  destruct (fs path) as [data|]; cbn; [|eexists; reflexivity].
  rewrite !Compile_FormatInt by apply hashOfData_nonneg. cbn.
  rewrite String.eqb_refl, andb_false_r. eexists; reflexivity.
Qed.

(** The scanner delivers the first line of a file when it is shorter than
    its buffer; a longer one ends the scan. *)
Lemma firstLine_spec (data : gostring) :
  firstLine data =
  match splitLines data with
  | [] => None
  | l :: _ =>
      if MaxScanTokenSize <=? Z.of_nat (List.length l) then None
      else Some (dropCR l)
  end.
Proof.
  unfold firstLine, scanLines.
  destruct (splitLines data) as [|l ls]; [reflexivity|].
  cbn [scanTokens].
  destruct (MaxScanTokenSize <=? Z.of_nat (List.length l)); [reflexivity|].
  destruct (scanTokens ls). reflexivity.
Qed.

(** ** The table readers *)

Section Tables.
Context `{FloatParser}.

(** The markers that ReadSnpFile returns without error come from the lines
    of the file, one by one. *)
Lemma snpLoop_lines (texts : list gostring) (scanErr : option error) :
  forall acc snps,
    snpLoop texts scanErr acc = Returns snps None ->
    exists new,
      snps = acc ++ new /\ scanErr = None /\
      Forall2 (fun text s => snpOfFields (fieldsOf text) = Val s) texts new.
Proof.
  induction texts as [|text texts IH]; intros acc snps Hloop.
  - cbn in Hloop. injection Hloop as -> ->.
    exists []. rewrite app_nil_r. repeat split. constructor.
  - cbn [snpLoop] in Hloop.
    destruct (snpOfFields (fieldsOf text)) as [s|err|] eqn:Hs;
      try discriminate.
    destruct (IH _ _ Hloop) as (new & -> & Herr & Hall).
    exists (s :: new). rewrite <- app_assoc. repeat split; [exact Herr|].
    constructor; assumption.
Qed.

Lemma ReadSnpFile_lines (fs : filesystem) (path : string) (snps : list Snp) :
  ReadSnpFile fs path = Returns snps None ->
  exists file,
    fs path = Some file /\
    Forall2 (fun text s => snpOfFields (fieldsOf text) = Val s)
            (fst (scanLines file)) snps.
Proof.
  unfold ReadSnpFile, Open. destruct (fs path) as [file|]; [|discriminate].
  destruct (scanLines file) as [texts scanErr] eqn:Hscan. intros Hloop.
  destruct (snpLoop_lines _ _ _ _ Hloop) as (new & -> & _ & Hall).
  exists file. split; [reflexivity|]. rewrite Hscan. exact Hall.
Qed.

(** What the loop body stores for a line it accepts. *)
Lemma snpOfFields_Val (fields : list gostring) (s : Snp) :
  snpOfFields fields = Val s ->
  exists id field1 chr field2 gpos field3 ppos field4 ref field5 alt,
    nth_error fields 0 = Some id /\
    nth_error fields 1 = Some field1 /\ Atoi field1 = Val chr /\
    nth_error fields 2 = Some field2 /\ parseFloat32 field2 = Some gpos /\
    nth_error fields 3 = Some field3 /\ ParseUint field3 = Val ppos /\
    nth_error fields 4 = Some field4 /\ nth_error field4 0 = Some ref /\
    nth_error fields 5 = Some field5 /\ nth_error field5 0 = Some alt /\
    s = {| Name := id; Chromosome := uint8 chr; GeneticPos := gpos;
           PhysicalPos := uint32 ppos; Ref := byteval ref;
           Alt := byteval alt |}.
Proof.
  unfold snpOfFields, index, ParseFloat.
  destruct (nth_error fields 0) as [id|] eqn:E0; [|discriminate].
  destruct (nth_error fields 1) as [field1|] eqn:E1; [|discriminate].
  cbn [bind].
  destruct (Atoi field1) as [chr|e|] eqn:Echr; try discriminate. cbn [bind].
  destruct (nth_error fields 2) as [field2|] eqn:E2; [|discriminate].
  cbn [bind].
  destruct (parseFloat32 field2) as [gpos|] eqn:Eg; [|discriminate].
  cbn [bind].
  destruct (nth_error fields 3) as [field3|] eqn:E3; [|discriminate].
  cbn [bind].
  destruct (ParseUint field3) as [ppos|e|] eqn:Ep; try discriminate.
  cbn [bind].
  destruct (nth_error fields 4) as [field4|] eqn:E4; [|discriminate].
  cbn [bind].
  destruct (nth_error field4 0) as [ref|] eqn:Er; [|discriminate].
  cbn [bind].
  destruct (nth_error fields 5) as [field5|] eqn:E5; [|discriminate].
  cbn [bind].
  destruct (nth_error field5 0) as [alt|] eqn:Ea; [|discriminate].
  cbn [bind].
  intros Hs. injection Hs as <-.
  exists id, field1, chr, field2, gpos, field3, ppos, field4, ref, field5, alt.
  repeat split; assumption.
Qed.

(** A number that does not parse is an error, not a panic, as long as the
    tokens up to it are there. *)
Lemma snpOfFields_bad_number (id field1 field2 field3 : gostring)
  (more : list gostring) :
  (forall chr, Atoi field1 <> Val chr) \/
  parseFloat32 field2 = None \/
  (forall ppos, ParseUint field3 <> Val ppos) ->
  exists err,
    snpOfFields (id :: field1 :: field2 :: field3 :: more) = Fail err.
Proof.
  intros Hbad. unfold snpOfFields, index, ParseFloat. cbn [nth_error bind].
  destruct (Atoi field1) as [chr|e|] eqn:Hchr; cbn [bind].
  2:{ eexists; reflexivity. }
  2:{ unfold Atoi in Hchr.
      destruct (match field1 with
                | [] => (false, field1)
                | c :: s' =>
                    if Ascii.eqb c "-"%char then (true, s')
                    else if Ascii.eqb c "+"%char then (false, s')
                    else (false, field1)
                end) as [neg body].
      destruct (decimal body) as [v|]; [|discriminate].
      destruct ((- 2 ^ 63 <=? (if neg then - v else v))
                && ((if neg then - v else v) <? 2 ^ 63)); discriminate. }
  destruct (parseFloat32 field2) as [gpos|] eqn:Hg; cbn [bind].
  2:{ eexists; reflexivity. }
  destruct (ParseUint field3) as [ppos|e|] eqn:Hp; cbn [bind].
  - destruct Hbad as [Hb|[Hb|Hb]].
    + exfalso. apply (Hb chr). reflexivity.
    + discriminate.
    + exfalso. apply (Hb ppos). reflexivity.
  - eexists; reflexivity.
  - unfold ParseUint in Hp. destruct (decimal field3) as [v|]; [|discriminate].
    destruct (v <? 2 ^ 64); discriminate.
Qed.

End Tables.

(** ** A geno file that fits the reader's buffer *)

(** With at least [len(p)] bytes waiting in the buffer [Read] is a full
    read. *)
Lemma Read_buffered (r : Reader) (p : list byte) (w : nat) :
  List.length p = w -> (0 < w)%nat ->
  (w <= List.length (buffered r))%nat ->
  Read r p = ({| buffered := skipn w (buffered r); unread := unread r |},
              firstn w (buffered r)).
Proof.
  intros Hp Hw Hb. unfold Read.
  destruct p as [|c p]; [cbn in Hp; lia|].
  destruct (buffered r) as [|b bs] eqn:Hbuf; [cbn in Hb; lia|].
  unfold copyOut. rewrite Hbuf, Hp.
  replace (Nat.min w (List.length (b :: bs))) with w by lia.
  rewrite (skipn_all2 (c :: p)) by lia. rewrite app_nil_r. reflexivity.
Qed.

Lemma reads_buffered (w : nat) (k : nat) :
  forall (r : Reader) (p : list byte),
    List.length p = w -> (0 < w)%nat ->
    (w * S k <= List.length (buffered r))%nat ->
    reads (S k) r p
    = ({| buffered := skipn (w * S k) (buffered r); unread := unread r |},
       firstn w (skipn (w * k) (buffered r))).
Proof.
  induction k as [|k IH]; intros r p Hp Hw Hb.
  - cbn [reads]. rewrite (Read_buffered r p w Hp Hw) by lia.
    rewrite Nat.mul_1_r, Nat.mul_0_r. reflexivity.
  - change (reads (S (S k)) r p)
      with (let '(r', p') := Read r p in reads (S k) r' p').
    rewrite (Read_buffered r p w Hp Hw) by lia.
    rewrite IH; cbn [buffered unread].
    + rewrite !skipn_skipn. do 2 f_equal; [f_equal; lia|].
      f_equal. lia.
    + rewrite length_firstn. lia.
    + exact Hw.
    + rewrite length_skipn. lia.
Qed.

Section SmallFile.
Context `{FloatParser}.

Lemma enter_buffered (inds : list Ind) (geno : gostring) :
  let w := List.length (makeChunk inds) in
  (w < 4096)%nat -> (w <= List.length geno <= 4096)%nat ->
  reader (enter inds (NewReader geno))
  = {| buffered := skipn w geno; unread := [] |} /\
  rchunk (enter inds (NewReader geno)) = firstn w geno.
Proof.
  intros w Hw Hg. unfold enter, Read, NewReader. cbn [buffered unread].
  pose proof (makeChunk_length inds) as Hl. fold w in Hl.
  pose proof (genoChunkSize_pos (Z.of_nat (List.length inds))) as Hpos.
  destruct (makeChunk inds) as [|c p] eqn:Hp; [cbn in Hl; lia|].
  fold w.
  replace (defaultBufSize <=? Z.of_nat w) with false
    by (symmetry; apply Z.leb_gt; unfold defaultBufSize; lia).
  assert (Hsize : Z.to_nat defaultBufSize = 4096%nat) by reflexivity.
  rewrite Hsize, firstn_all2, skipn_all2 by lia.
  unfold copyOut. cbn [buffered unread reader rchunk].
  fold w. replace (Nat.min w (List.length geno)) with w by lia.
  rewrite (skipn_all2 (c :: p)) by (fold w; lia).
  rewrite app_nil_r. split; reflexivity.
Qed.

(** When the whole geno file is within the first 4096 bytes, the reader
    buffers it at once and every marker's row is unpacked from that
    marker's own record: the bytes [w * (k + 1)] to [w * (k + 2)] of the
    file for the marker at index [k]. *)
Lemma rows_of_buffered_file
  (snps : list Snp) (inds : list Ind) (geno : gostring)
  (dispatched : list Call) :
  let w := List.length (makeChunk inds) in
  (w < 4096)%nat -> (List.length geno <= 4096)%nat ->
  (w * S (List.length snps) <= List.length geno)%nat ->
  rows snps inds (NewReader geno) = Some dispatched ->
  forall k c,
    nth_error dispatched k = Some c ->
    decodeRow (firstn w (skipn (w * S k) geno)) (List.length inds)
    = Some (genoRowArg c).
Proof.
  intros w Hw Hg Hall Hrows k c Hk.
  pose proof (makeChunk_length inds) as Hl. fold w in Hl.
  pose proof (genoChunkSize_pos (Z.of_nat (List.length inds))) as Hpos.
  destruct (rowsFrom_nth snps inds _ _ dispatched k c Hrows Hk)
    as (Hs & _ & Hrow).
  assert (Hlt : (k < List.length snps)%nat)
    by (apply nth_error_Some; rewrite Hs; discriminate).
  destruct (enter_buffered inds geno Hw) as [Hr Hc]; [fold w; nia|].
  fold w in Hr, Hc. rewrite Hr, Hc in Hrow.
  rewrite (reads_buffered w k) in Hrow; cbn [buffered unread snd] in *.
  - rewrite skipn_skipn in Hrow.
    replace (w * k + w)%nat with (w * S k)%nat in Hrow by lia.
    exact Hrow.
  - rewrite length_firstn. nia.
  - lia.
  - rewrite length_skipn. nia.
Qed.

End SmallFile.

(** The length of a string enters HashIt through [uint32]: of a string of
    2^32 bytes nothing is hashed. *)
Lemma HashIt_length_wraps (s : gostring) :
  Z.of_nat (List.length s) = 2 ^ 32 -> HashIt s = 0.
Proof.
  intros Hlen. unfold HashIt, uint32. rewrite Hlen, Z_mod_same_full.
  reflexivity.
Qed.

(** * The claims *)

Import Example.

(** C1: the decoder produces one code per individual, and the code of the
    individual with 0-based index [i] is
    [(record[i / 4] >> ((i % 4) * 2)) & 3].  In particular, for five
    individuals and a record whose first byte is 0b11100100 the codes are
    0, 1, 2, 3 and then the two lowest bits of the second byte.  (The
    number of individuals is within the integers that a float64 holds
    exactly, as every slice length is.) *)
Theorem decodeRow_two_bit_codes (record : list byte) (n : nat) :
  Z.of_nat n <= 2 ^ 53 ->
  Z.of_nat (List.length record) = genoChunkSize (Z.of_nat n) ->
  exists row,
    decodeRow record n = Some row /\
    List.length row = n /\
    (forall i, (i < n)%nat ->
       exists b,
         nth_error record (i / 4) = Some b /\
         nth_error row i
         = Some (Z.land (Z.shiftr (byteval b) (Z.of_nat (i mod 4 * 2))) 3)) /\
    (n = 5%nat -> nth_error record 0 = Some (ascii_of_nat 228) ->
       exists b1,
         nth_error record 1 = Some b1 /\
         row = [0; 1; 2; 3; Z.land (byteval b1) 3]).
Proof.
  intros Hn Hlen.
  assert (Hc : chunkSize (Z.of_nat n) <= Z.of_nat (List.length record)).
  { rewrite Hlen. apply genoChunkSize_lower. }
  destruct (decodeRow_total record n Hn Hc) as (row & Hrow & Hl & Hnth).
  assert (Hcodes : forall i, (i < n)%nat ->
    exists b,
      nth_error record (i / 4) = Some b /\
      nth_error row i
      = Some (Z.land (Z.shiftr (byteval b) (Z.of_nat (i mod 4 * 2))) 3)).
  { intros i Hi. specialize (Hnth i Hi).
    rewrite genotypeAt_exact in Hnth by lia.
    replace (Z.to_nat (Z.of_nat i / 4)) with (i / 4)%nat in Hnth
      by (rewrite <- (Nat2Z.id (i / 4)), Nat2Z.inj_div; reflexivity).
    destruct (nth_error record (i / 4)) as [b|]; [|discriminate].
    exists b. split; [reflexivity|].
    rewrite (nth_error_nth' row 0) by lia.
    injection Hnth as Hnth. rewrite <- Hnth.
    rewrite Nat2Z.inj_mul, Nat2Z.inj_mod. reflexivity. }
  exists row. split; [exact Hrow|]. split; [exact Hl|]. split; [exact Hcodes|].
  intros H5 Hfirst. subst n.
  destruct (Hcodes 0%nat ltac:(lia)) as (a0 & Ha0 & H0).
  destruct (Hcodes 1%nat ltac:(lia)) as (a1 & Ha1 & H1).
  destruct (Hcodes 2%nat ltac:(lia)) as (a2 & Ha2 & H2).
  destruct (Hcodes 3%nat ltac:(lia)) as (a3 & Ha3 & H3).
  destruct (Hcodes 4%nat ltac:(lia)) as (b1 & Hb1 & H4).
  change (0 / 4)%nat with 0%nat in Ha0. change (1 / 4)%nat with 0%nat in Ha1.
  change (2 / 4)%nat with 0%nat in Ha2. change (3 / 4)%nat with 0%nat in Ha3.
  change (4 / 4)%nat with 1%nat in Hb1.
  rewrite Hfirst in Ha0, Ha1, Ha2, Ha3.
  injection Ha0 as <-. injection Ha1 as <-. injection Ha2 as <-.
  injection Ha3 as <-.
  exists b1. split; [exact Hb1|].
  destruct row as [|c0 [|c1 [|c2 [|c3 [|c4 [|c5 row]]]]]]; try discriminate.
  cbn in H0, H1, H2, H3, H4.
  injection H0 as ->. injection H1 as ->. injection H2 as ->.
  injection H3 as ->. injection H4 as ->.
  reflexivity.
Qed.

Lemma decodeRow_two_bit_codes_witness :
  exists row,
    decodeRow (ascii_of_nat 228 :: ascii_of_nat 2 :: repeat zero 46) 5
    = Some row /\
    row = [0; 1; 2; 3; 2].
Proof.
  destruct (decodeRow_two_bit_codes
              (ascii_of_nat 228 :: ascii_of_nat 2 :: repeat zero 46) 5)
    as (row & Hrow & _ & _ & Hfive).
  - vm_compute. discriminate.
  - reflexivity.
  - exists row. split; [exact Hrow|].
    destruct (Hfive eq_refl eq_refl) as (b1 & Hb1 & ->).
    injection Hb1 as <-. reflexivity.
Defined.

(** C2 (the code departs from the claim): in a well-formed data set of one
    individual and 1400 markers no byte of the geno file is a newline, so
    its first line, the whole file of 67248 bytes, has both hexadecimal
    hashes as substrings, and the two table paths differ; but the line does
    not fit the scanner's buffer, [Scan] reports false, and Calcishash
    returns false with a nil error. *)
Theorem Calcishash_long_first_line :
  Z.of_nat (List.length bigGeno) = 48 * (1400 + 1) /\
  (exists snps,
     ReadSnpFile (disk bigGeno indFile bigSnps) "d.snp" = Returns snps None /\
     Z.of_nat (List.length snps) = 1400) /\
  ReadIndFile (disk bigGeno indFile bigSnps) "d.ind"
  = Returns [theInd] None /\
  List.length (splitLines bigGeno) = 1%nat /\
  contains (FormatInt (hashOfData indFile) 16)
           (hd [] (splitLines bigGeno)) = true /\
  contains (FormatInt (hashOfData bigSnps) 16)
           (hd [] (splitLines bigGeno)) = true /\
  String.eqb "d.ind" "d.snp" = false /\
  Calcishash (disk bigGeno indFile bigSnps) "d.geno" "d.ind" "d.snp"
  = Returns false None.
Proof.
  split; [vm_compute; reflexivity|].
  split.
  { assert (Hlen : match ReadSnpFile (disk bigGeno indFile bigSnps) "d.snp"
                   with
                   | Returns l None => Z.of_nat (List.length l)
                   | _ => -1
                   end = 1400) by (vm_compute; reflexivity).
    destruct (ReadSnpFile (disk bigGeno indFile bigSnps) "d.snp")
      as [snps [err|]|]; try discriminate Hlen.
    exists snps. split; [reflexivity | exact Hlen]. }
  split; [vm_compute; reflexivity|].
  split; [vm_compute; reflexivity|].
  split; [vm_compute; reflexivity|].
  split; [vm_compute; reflexivity|].
  split; [reflexivity|].
  vm_compute. reflexivity.
Qed.

(** C3 as it was stated does not hold: the last line of a file that does
    not end with a newline is left out of the hash. *)
Lemma HashFileFirstColumn_not_all_lines :
  splitLines openEnded = [str "rs1 1 0.0 100 A G"; str "rs2 1 0.0 200 A G"] /\
  HashFileFirstColumn (disk genoFile indFile openEnded) "d.snp"
  <> Returns (Spec.computeDigest openEnded) None.
Proof.
  split; [vm_compute; reflexivity|]. vm_compute. discriminate.
Qed.

(** C3 (as amended): for every text file of less than 2^32 bytes
    HashFileFirstColumn is the fold, from 0, of
    [hash = (hash*17) XOR tokenHash] over the lines of the file that end in
    a newline, [tokenHash] being the polynomial hash
    [tokenHash*23 + byteValue] of the line's first run of non-whitespace
    characters, all in wrapping unsigned 32-bit arithmetic; what follows
    the last newline is not hashed.  For a file that is empty or ends with
    a newline this is the fold over all its lines. *)
Theorem HashFileFirstColumn_folds_terminated_lines
  (fs : filesystem) (path : string) (data : gostring) :
  fs path = Some data ->
  Z.of_nat (List.length data) < 2 ^ 32 ->
  HashFileFirstColumn fs path
  = Returns (Spec.foldLines (terminatedLines data)) None /\
  (data = [] \/ (exists body, data = body ++ [newline]) ->
   HashFileFirstColumn fs path = Returns (Spec.computeDigest data) None).
Proof.
  intros Hfile Hlen.
  assert (Hcode : HashFileFirstColumn fs path
                  = Returns (Spec.foldLines (terminatedLines data)) None).
  { unfold HashFileFirstColumn, Open. rewrite Hfile.
    rewrite hashOfData_terminatedLines by exact Hlen. reflexivity. }
  split; [exact Hcode|].
  intros [->|[body ->]]; [exact Hcode|].
  rewrite Hcode. unfold Spec.computeDigest.
  rewrite terminatedLines_all. reflexivity.
Qed.

Lemma HashFileFirstColumn_folds_terminated_lines_witness :
  HashFileFirstColumn (disk genoFile indFile openEnded) "d.snp"
  = Returns (Spec.foldLines [str "rs1 1 0.0 100 A G"]) None.
Proof.
  apply (HashFileFirstColumn_folds_terminated_lines
           (disk genoFile indFile openEnded) "d.snp" openEnded).
  - reflexivity.
  - vm_compute. reflexivity.
Defined.

(** A read that comes short also happens in the middle of a complete file.
    In a well-formed data set of one individual and 100 markers, all of genotype
    1, the hash check passes and every record of the geno file unpacks to
    the row [1]; but the reader hands out the 4096 bytes it has buffered,
    the read for the marker at index 84 gets the 16 bytes left of them, and
    from the next marker on the buffer is filled from the wrong place: the
    last 15 rows come out as [0]. *)
Lemma short_read_at_buffer_boundary :
  Calcishash (disk midGeno indFile midSnps) "d.geno" "d.ind" "d.snp"
  = Returns true None /\
  Z.of_nat (List.length midGeno) = 48 * (100 + 1) /\
  map (fun k => decodeRow (recordOf midGeno (S k)) 1) (seq 0 100)
  = repeat (Some [1]) 100 /\
  match prelude (disk midGeno indFile midSnps) "d.geno" "d.ind" "d.snp" with
  | Val (snps, inds, r) => option_map (map genoRowArg) (rows snps inds r)
  | _ => None
  end = Some (repeat [1] 85 ++ repeat [0] 15).
Proof.
  repeat split; vm_compute; reflexivity.
Qed.

(** C4 (the code departs from the claim): a geno file that ends after the
    header record, where the record of the one marker is expected, or
    within the header record, is not turned down.  [Read] returns fewer
    bytes than asked for, or none and [io.EOF]; count and error are
    dropped, the buffer still holds the header, and ProcessGenoRows returns
    nil after calling [processFunc] with the row unpacked from the header's
    first byte, the letter G. *)
Theorem short_record_goes_unnoticed :
  List.length genoCut = 48%nat /\
  List.length genoStub = 17%nat /\
  genoChunkSize (Z.of_nat (List.length [theInd])) = 48 /\
  forall geno, geno = genoCut \/ geno = genoStub ->
    prelude (disk geno indFile snpFile) "d.geno" "d.ind" "d.snp"
    = Val ([theSnp], [theInd], NewReader geno) /\
    (exists calls,
       ProcessGenoRows (disk geno indFile snpFile)
                       "d.geno" "d.ind" "d.snp" (Ended None) calls) /\
    forall e calls,
      ProcessGenoRows (disk geno indFile snpFile)
                      "d.geno" "d.ind" "d.snp" e calls ->
      e = Ended None /\
      calls
      = [{| genoRowArg := [3]; snpArg := theSnp; indsArg := [theInd] |}].
Proof.
  split; [reflexivity|]. split; [reflexivity|]. split; [reflexivity|].
  intros geno Hgeno.
  assert (Hp : prelude (disk geno indFile snpFile) "d.geno" "d.ind" "d.snp"
               = Val ([theSnp], [theInd], NewReader geno))
    by (destruct Hgeno as [-> | ->]; vm_compute; reflexivity).
  assert (Hrows : rows [theSnp] [theInd] (NewReader geno)
                  = Some [{| genoRowArg := [3]; snpArg := theSnp;
                             indsArg := [theInd] |}])
    by (destruct Hgeno as [-> | ->]; vm_compute; reflexivity).
  split; [exact Hp|].
  destruct (ProcessGenoRows_Val _ _ _ _ _ _ _ Hp)
    as (dispatched & Hd & _ & _ & _ & Hruns & Hex).
  { vm_compute. discriminate. }
  rewrite Hrows in Hd. injection Hd as <-.
  split; [exact Hex|].
  intros e calls Hrun. destruct (Hruns e calls Hrun) as [-> Hperm].
  split; [reflexivity|].
  apply Permutation_sym, Permutation_length_1_inv in Hperm. exact Hperm.
Qed.

(** C5 (the code departs from the claim): a line of the marker table with
    fewer than six tokens, be it the four columns that the comment on [Snp]
    allows, three columns or none, and a line of the individual table with
    fewer than three tokens do not make the reader return an error: the
    reader indexes a token that is not there and panics. *)
Theorem short_line_panics :
  ReadSnpFile (disk genoFile indFile fourColumns) "d.snp" = Panics /\
  ReadSnpFile (disk genoFile indFile threeColumns) "d.snp" = Panics /\
  ReadSnpFile (disk genoFile indFile blankLine) "d.snp" = Panics /\
  ReadIndFile (disk genoFile twoColumns snpFile) "d.ind" = Panics.
Proof.
  repeat split; vm_compute; reflexivity.
Qed.

(** C6: a call of ProcessGenoRows whose hash check does not say yes returns
    an error and [processFunc] is never called.  More generally a call
    ends in one of two ways only: the check and both table loads have
    succeeded, nil is returned and [processFunc] has been called for every
    marker; or the call fails (an error, or a panic in a table reader) and
    [processFunc] has not been called at all.  (The table of individuals
    has at most 2^53 lines.) *)
Theorem ProcessGenoRows_all_or_nothing `{FloatParser}
  (fs : filesystem) (genoPath indPath snpPath : string) :
  (forall inds, ReadIndFile fs indPath = Returns inds None ->
                Z.of_nat (List.length inds) <= 2 ^ 53) ->
  (exists e calls, ProcessGenoRows fs genoPath indPath snpPath e calls) /\
  forall e calls,
    ProcessGenoRows fs genoPath indPath snpPath e calls ->
    (Calcishash fs genoPath indPath snpPath <> Returns true None ->
     (exists err, e = Ended (Some err)) /\ calls = []) /\
    ((e = Ended None /\
      Calcishash fs genoPath indPath snpPath = Returns true None /\
      exists snps inds dispatched,
        ReadSnpFile fs snpPath = Returns snps None /\
        ReadIndFile fs indPath = Returns inds None /\
        map snpArg dispatched = snps /\
        Permutation calls dispatched)
     \/ (e <> Ended None /\ calls = [])).
Proof.
  intros Hbound.
  destruct (prelude fs genoPath indPath snpPath) as [[[snps inds] r]|err|]
    eqn:Hp.
  - destruct (prelude_Val fs genoPath indPath snpPath snps inds r Hp)
      as (Hhash & Hsnp & Hind & _).
    destruct (ProcessGenoRows_Val fs genoPath indPath snpPath snps inds r Hp
                (Hbound inds Hind))
      as (dispatched & _ & Hmap & _ & _ & Hruns & calls0 & Hrun0).
    split; [exists (Ended None), calls0; exact Hrun0|].
    intros e calls Hrun. destruct (Hruns e calls Hrun) as [-> Hperm].
    split; [intros Hno; contradiction|].
    left. split; [reflexivity|]. split; [exact Hhash|].
    exists snps, inds, dispatched. repeat split; assumption.
  - split; [exists (Ended (Some err)), []; apply run_fail; exact Hp|].
    intros e calls Hrun.
    destruct (ProcessGenoRows_Fail fs genoPath indPath snpPath err e calls
                Hp Hrun) as [-> ->].
    split; [intros _; split; [exists err; reflexivity | reflexivity]|].
    right. split; [discriminate | reflexivity].
  - split; [exists Aborted, []; apply run_crash; exact Hp|].
    intros e calls Hrun.
    destruct (ProcessGenoRows_Crash fs genoPath indPath snpPath e calls
                Hp Hrun) as [-> ->].
    split.
    + intros Hno.
      destruct (prelude_hash_not_ok fs genoPath indPath snpPath Hno)
        as [err Herr].
      rewrite Hp in Herr. discriminate.
    + right. split; [discriminate | reflexivity].
Qed.

Lemma ProcessGenoRows_all_or_nothing_witness :
  (exists e calls,
     ProcessGenoRows (disk genoFile indFile snpFile)
                     "d.geno" "d.ind" "d.ind" e calls) /\
  forall e calls,
    ProcessGenoRows (disk genoFile indFile snpFile)
                    "d.geno" "d.ind" "d.ind" e calls ->
    (exists err, e = Ended (Some err)) /\ calls = [].
Proof.
  assert (Hbound : forall inds,
            ReadIndFile (disk genoFile indFile snpFile) "d.ind"
            = Returns inds None ->
            Z.of_nat (List.length inds) <= 2 ^ 53).
  { intros inds Hinds. vm_compute in Hinds. injection Hinds as <-.
    vm_compute. discriminate. }
  pose proof (ProcessGenoRows_all_or_nothing
                (disk genoFile indFile snpFile) "d.geno" "d.ind" "d.ind"
                Hbound) as [Hex Hall].
  split; [exact Hex|].
  intros e calls Hrun. destruct (Hall e calls Hrun) as [Hfail _].
  apply Hfail. vm_compute. discriminate.
Defined.

(** C7: the width of the record buffer, used for the read that skips the
    header and for the read of every marker record, is
    [max(48, ceil(n / 4))] for [n] individuals: 48 up to 192 individuals
    and [ceil(n / 4)] beyond.  [c] below is that ceiling, the least integer
    with [n <= 4 * c]. *)
Theorem genoChunkSize_max_48_ceiling `{FloatParser} (inds : list Ind) :
  let n := Z.of_nat (List.length inds) in
  let c := (n + 3) / 4 in
  n <= 2 ^ 53 ->
  4 * (c - 1) < n <= 4 * c /\
  genoChunkSize n = Z.max 48 c /\
  (n <= 192 -> genoChunkSize n = 48) /\
  (192 < n -> genoChunkSize n = c) /\
  forall (snps : list Snp) (genoReader : Reader) (st : State),
    steps snps inds (enter inds genoReader) st ->
    Z.of_nat (List.length (makeChunk inds)) = genoChunkSize n /\
    Z.of_nat (List.length (rchunk st)) = genoChunkSize n.
Proof.
  intros n c Hn.
  assert (Hc : chunkSize n = c) by (apply chunkSize_exact; lia).
  pose proof (ceiling_quarter n) as Hceil. fold c in Hceil.
  assert (Hw : genoChunkSize n = Z.max 48 c).
  { unfold genoChunkSize. rewrite Hc. destruct (c <? 48) eqn:E.
    - apply Z.ltb_lt in E. lia.
    - apply Z.ltb_ge in E. lia. }
  split; [exact Hceil|]. split; [exact Hw|].
  split; [intros; lia|]. split; [intros; lia|].
  intros snps genoReader st Hsteps.
  split; [apply makeChunk_length|].
  rewrite (steps_length _ _ _ _ Hsteps), enter_length.
  apply makeChunk_length.
Qed.

Lemma genoChunkSize_max_48_ceiling_witness :
  Z.of_nat (List.length [theInd]) <= 2 ^ 53 /\
  genoChunkSize 1 = Z.max 48 ((1 + 3) / 4) /\ genoChunkSize 1 = 48.
Proof.
  assert (Hn : Z.of_nat (List.length [theInd]) <= 2 ^ 53)
    by (vm_compute; discriminate).
  split; [exact Hn|].
  destruct (genoChunkSize_max_48_ceiling [theInd] Hn) as (_ & H1 & H2 & _).
  split; [exact H1|]. apply H2. vm_compute. discriminate.
Defined.

Lemma map_seq_constant {A} (f : nat -> A) (v : A) (n : nat) :
  map f (seq 0 n) = repeat v n -> forall k, (k < n)%nat -> f k = v.
Proof.
  intros Hmap k Hk.
  assert (Hnth : nth k (map f (seq 0 n)) (f 0%nat) = nth k (repeat v n) v)
    by (rewrite Hmap; apply nth_indep; rewrite repeat_length; exact Hk).
  rewrite map_nth, seq_nth, nth_repeat in Hnth by exact Hk. exact Hnth.
Qed.

Lemma nth_error_two_runs {A} (a b : A) (m n k : nat) (x : A) :
  nth_error (repeat a m ++ repeat b n) k = Some x ->
  x = if (k <? m)%nat then a else b.
Proof.
  intros Hk. destruct (k <? m)%nat eqn:E.
  - apply Nat.ltb_lt in E.
    rewrite nth_error_app1 in Hk by (rewrite repeat_length; exact E).
    apply nth_error_In, repeat_spec in Hk. exact Hk.
  - apply Nat.ltb_ge in E.
    rewrite nth_error_app2 in Hk by (rewrite repeat_length; exact E).
    apply nth_error_In, repeat_spec in Hk. exact Hk.
Qed.

(** The marker at index [k] of the table of [m] markers. *)
Lemma nth_error_midMarkers (m k : nat) (s : Snp) :
  nth_error (map midMarker (seq 1 m)) k = Some s ->
  (k < m)%nat /\ s = midMarker (S k).
Proof.
  intros Hk.
  assert (Hlt : (k < m)%nat).
  { assert (Hl : (k < List.length (map midMarker (seq 1 m)))%nat)
      by (apply nth_error_Some; rewrite Hk; discriminate).
    rewrite length_map, length_seq in Hl. exact Hl. }
  split; [exact Hlt|].
  rewrite (nth_error_nth' _ (midMarker 0)) in Hk
    by (rewrite length_map, length_seq; exact Hlt).
  injection Hk as <-. rewrite map_nth, seq_nth by exact Hlt. reflexivity.
Qed.

Lemma midMarker_inj (j k : nat) : midMarker j = midMarker k -> j = k.
Proof.
  intros Heq. apply (f_equal PhysicalPos) in Heq.
  unfold midMarker in Heq. cbn [PhysicalPos] in Heq. lia.
Qed.

(** C8 (the code departs from the claim): on a well-formed data set the
    handler is called once for every marker and all calls have returned
    when ProcessGenoRows returns nil, but not every marker comes with its
    own row.  The data set has one individual and the 100 markers rs1 to
    rs100; the hash check passes, both tables load, the geno file has its
    header record and 100 records of 48 bytes, and every record unpacks to
    the row [1].  [Read] returns what is left of the 4096 bytes that the
    reader has buffered, the count it returns is dropped, and from the 86th
    marker on the record buffer is filled from the wrong place of the file:
    in every run the calls for rs1 to rs85 get the row [1] and the calls for
    rs86 to rs100 get the row [0]. *)
Theorem own_row_lost_at_buffer_boundary :
  Calcishash (disk midGeno indFile midSnps) "d.geno" "d.ind" "d.snp"
  = Returns true None /\
  ReadSnpFile (disk midGeno indFile midSnps) "d.snp"
  = Returns (map midMarker (seq 1 100)) None /\
  ReadIndFile (disk midGeno indFile midSnps) "d.ind"
  = Returns [theInd] None /\
  Z.of_nat (List.length midGeno) = 48 * (100 + 1) /\
  (forall k, (k < 100)%nat ->
     decodeRow (recordOf midGeno (S k)) 1 = Some [1]) /\
  (exists calls,
     ProcessGenoRows (disk midGeno indFile midSnps)
                     "d.geno" "d.ind" "d.snp" (Ended None) calls) /\
  forall e calls,
    ProcessGenoRows (disk midGeno indFile midSnps)
                    "d.geno" "d.ind" "d.snp" e calls ->
    e = Ended None /\
    Permutation (map snpArg calls) (map midMarker (seq 1 100)) /\
    (forall c k, In c calls -> snpArg c = midMarker (S k) ->
       indsArg c = [theInd] /\
       genoRowArg c = if (k <? 85)%nat then [1] else [0]) /\
    exists c, In c calls /\ snpArg c = midMarker 86 /\ genoRowArg c = [0].
Proof.
  destruct short_read_at_buffer_boundary as (Hhash & Hlen & Hrecs & Hrows).
  assert (Hsnp : ReadSnpFile (disk midGeno indFile midSnps) "d.snp"
                 = Returns (map midMarker (seq 1 100)) None)
    by (vm_compute; reflexivity).
  assert (Hind : ReadIndFile (disk midGeno indFile midSnps) "d.ind"
                 = Returns [theInd] None)
    by (vm_compute; reflexivity).
  assert (Hp : prelude (disk midGeno indFile midSnps)
                       "d.geno" "d.ind" "d.snp"
               = Val (map midMarker (seq 1 100), [theInd],
                      NewReader midGeno)).
  { unfold prelude. rewrite Hhash, Hsnp, Hind. reflexivity. }
  rewrite Hp in Hrows.
  destruct (ProcessGenoRows_Val _ _ _ _ _ _ _ Hp)
    as (dispatched & Hd & Hmap & Hall & _ & Hruns & Hex).
  { vm_compute. discriminate. }
  rewrite Hd in Hrows.
  assert (Hcodes : map genoRowArg dispatched
                   = repeat [1] 85 ++ repeat [0] 15)
    by exact (f_equal (fun o => match o with
                                | Some l => l
                                | None => []
                                end) Hrows).
  split; [exact Hhash|]. split; [exact Hsnp|]. split; [exact Hind|].
  split; [exact Hlen|].
  split; [exact (map_seq_constant _ _ _ Hrecs)|].
  split; [exact Hex|].
  intros e calls Hrun. destruct (Hruns e calls Hrun) as [-> Hperm].
  assert (Hrow : forall c k, In c calls -> snpArg c = midMarker (S k) ->
            indsArg c = [theInd] /\
            genoRowArg c = if (k <? 85)%nat then [1] else [0]).
  { intros c k Hc Hs. apply (Permutation_in _ Hperm) in Hc.
    rewrite Forall_forall in Hall. destruct (Hall c Hc) as [Hi _].
    split; [exact Hi|].
    destruct (In_nth_error _ _ Hc) as [j Hj].
    pose proof (map_nth_error snpArg _ _ Hj) as Hjs.
    rewrite Hmap, Hs in Hjs.
    apply nth_error_midMarkers in Hjs. destruct Hjs as [_ Hjk].
    apply midMarker_inj in Hjk. injection Hjk as ->.
    pose proof (map_nth_error genoRowArg _ _ Hj) as Hjr.
    rewrite Hcodes in Hjr. exact (nth_error_two_runs _ _ _ _ _ _ Hjr). }
  assert (Hmarkers : Permutation (map snpArg calls)
                                 (map midMarker (seq 1 100)))
    by (rewrite <- Hmap; apply Permutation_map; exact Hperm).
  split; [reflexivity|]. split; [exact Hmarkers|]. split; [exact Hrow|].
  assert (Hin : In (midMarker 86) (map snpArg calls)).
  { apply (Permutation_in _ (Permutation_sym Hmarkers)).
    apply in_map, in_seq. lia. }
  apply in_map_iff in Hin. destruct Hin as (c & Hs & Hc).
  exists c. split; [exact Hc|]. split; [exact Hs|].
  destruct (Hrow c 85%nat Hc Hs) as [_ Hr]. exact Hr.
Qed.

(** C9: HashIt of the empty string is 0, and HashIt depends on the order of
    the bytes: "AB" and "BA" hash to different values. *)
Theorem HashIt_empty_and_order :
  HashIt (str "") = 0 /\ HashIt (str "AB") <> HashIt (str "BA").
Proof.
  split.
  - reflexivity.
  - vm_compute. discriminate.
Qed.

(** C10: every marker that ReadSnpFile returns carries the chromosome token
    of its line, as parsed by [Atoi], reduced modulo 256.  A token such as
    300 or -1 does not make the line fail: a line accepted with chromosome
    token 1 is accepted with either of them, and the chromosome stored is 44
    and 255. *)
Theorem Chromosome_reduced_modulo_256 `{FloatParser}
  (fs : filesystem) (path : string) (snps : list Snp) :
  ReadSnpFile fs path = Returns snps None ->
  (exists file,
     fs path = Some file /\
     Forall2 (fun text s =>
                exists token chr,
                  nth_error (fieldsOf text) 1 = Some token /\
                  Atoi token = Val chr /\
                  Chromosome s = chr mod 256)
             (fst (scanLines file)) snps) /\
  (forall id more s,
     snpOfFields (id :: str "1" :: more) = Val s ->
     snpOfFields (id :: str "300" :: more)
     = Val {| Name := Name s; Chromosome := 44;
              GeneticPos := GeneticPos s; PhysicalPos := PhysicalPos s;
              Ref := Ref s; Alt := Alt s |} /\
     snpOfFields (id :: str "-1" :: more)
     = Val {| Name := Name s; Chromosome := 255;
              GeneticPos := GeneticPos s; PhysicalPos := PhysicalPos s;
              Ref := Ref s; Alt := Alt s |}).
Proof.
  intros Hread. split.
  - destruct (ReadSnpFile_lines fs path snps Hread) as (file & Hfile & Hall).
    exists file. split; [exact Hfile|].
    eapply Forall2_impl; [|exact Hall].
    intros text s Hs. cbn beta in Hs.
    destruct (snpOfFields_Val _ _ Hs)
      as (id & field1 & chr & f2 & g & f3 & p & f4 & r & f5 & a
          & _ & H1 & Hchr & _ & _ & _ & _ & _ & _ & _ & _ & ->).
    exists field1, chr. repeat split; assumption.
  - intros id more s. unfold snpOfFields, index, ParseFloat.
    change (Atoi (str "1")) with (@Val Z 1).
    change (Atoi (str "300")) with (@Val Z 300).
    change (Atoi (str "-1")) with (@Val Z (-1)).
    destruct more as [|f2 [|f3 [|[|ref f4] [|[|alt f5] rest]]]];
      cbn [nth_error bind]; try discriminate;
      destruct (parseFloat32 f2) as [g|]; cbn [bind]; try discriminate;
      destruct (ParseUint f3) as [p|e|]; cbn [bind]; try discriminate.
    intros Hs. injection Hs as <-. split; reflexivity.
Qed.

Lemma Chromosome_reduced_modulo_256_witness :
  exists s1 s2,
    ReadSnpFile (disk genoFile indFile oddChromosomes) "d.snp"
    = Returns [s1; s2] None /\
    Chromosome s1 = 44 /\ Chromosome s2 = 255 /\
    exists file,
      disk genoFile indFile oddChromosomes "d.snp"%string = Some file /\
      Forall2 (fun text s =>
                 exists token chr,
                   nth_error (fieldsOf text) 1 = Some token /\
                   Atoi token = Val chr /\
                   Chromosome s = chr mod 256)
              (fst (scanLines file)) [s1; s2].
Proof.
  eexists. eexists.
  assert (Hread : ReadSnpFile (disk genoFile indFile oddChromosomes) "d.snp"
                  = Returns
                      [{| Name := str "rs1"; Chromosome := 44;
                          GeneticPos := str "0.0"; PhysicalPos := 100;
                          Ref := 65; Alt := 71 |};
                       {| Name := str "rs2"; Chromosome := 255;
                          GeneticPos := str "0.0"; PhysicalPos := 200;
                          Ref := 65; Alt := 71 |}] None)
    by (vm_compute; reflexivity).
  split; [exact Hread|]. split; [reflexivity|]. split; [reflexivity|].
  exact (proj1 (Chromosome_reduced_modulo_256 _ _ _ Hread)).
Defined.

(** * Further properties of the package *)

(** ** What the table readers return *)

Lemma Forall2_map_left {A B C} (f : A -> B) (P : B -> C -> Prop)
  (l : list A) (l' : list C) :
  Forall2 P (map f l) l' <-> Forall2 (fun a c => P (f a) c) l l'.
Proof.
  revert l'. induction l as [|a l IH]; intros l'; cbn.
  - split; intros Hl; inversion Hl; constructor.
  - split; intros Hl; inversion Hl; subst; constructor;
      try assumption; apply IH; assumption.
Qed.

(** The scanner delivers every line, its carriage return dropped, as long
    as the lines are shorter than its buffer, and stops with [ErrTooLong]
    at the first line that is not. *)
Lemma scanTokens_short (raw : list gostring) :
  Forall (fun l => Z.of_nat (List.length l) < MaxScanTokenSize) raw ->
  scanTokens raw = (map dropCR raw, None).
Proof.
  induction 1 as [|l raw Hl _ IH]; [reflexivity|].
  cbn [scanTokens map].
  replace (MaxScanTokenSize <=? Z.of_nat (List.length l)) with false
    by (symmetry; apply Z.leb_gt; exact Hl).
  rewrite IH. reflexivity.
Qed.

Lemma scanTokens_long (before after : list gostring) (long : gostring) :
  Forall (fun l => Z.of_nat (List.length l) < MaxScanTokenSize) before ->
  MaxScanTokenSize <= Z.of_nat (List.length long) ->
  scanTokens (before ++ long :: after)
  = (map dropCR before, Some ErrTooLong).
Proof.
  intros Hshort Hlong. induction Hshort as [|l raw Hl _ IH].
  - cbn [app scanTokens map].
    replace (MaxScanTokenSize <=? Z.of_nat (List.length long)) with true
      by (symmetry; apply Z.leb_le; exact Hlong).
    reflexivity.
  - cbn [app scanTokens map].
    replace (MaxScanTokenSize <=? Z.of_nat (List.length l)) with false
      by (symmetry; apply Z.leb_gt; exact Hl).
    rewrite IH. reflexivity.
Qed.

Lemma scanTokens_no_error (raw ts : list gostring) :
  scanTokens raw = (ts, None) ->
  ts = map dropCR raw /\
  Forall (fun l => Z.of_nat (List.length l) < MaxScanTokenSize) raw.
Proof.
  revert ts. induction raw as [|l raw IH]; intros ts Hscan.
  - injection Hscan as <-. split; [reflexivity | constructor].
  - cbn [scanTokens] in Hscan.
    destruct (MaxScanTokenSize <=? Z.of_nat (List.length l)) eqn:E;
      [discriminate|].
    destruct (scanTokens raw) as [ts' e]. injection Hscan as <- ->.
    destruct (IH ts' eq_refl) as [-> Hall].
    split; [reflexivity|]. constructor; [|exact Hall].
    apply Z.leb_gt. exact E.
Qed.

(** The loop of ReadIndFile accepts a line exactly when it has three
    fields or more, and keeps the first three. *)
Lemma indOfFields_Val (fields : list gostring) (ind : Ind) :
  indOfFields fields = Val ind <->
  exists rest,
    fields = SampleID ind :: Gender ind :: Label ind :: rest.
Proof.
  unfold indOfFields, index. split.
  - destruct fields as [|f0 [|f1 [|f2 rest]]]; cbn; try discriminate.
    intros Hv. injection Hv as <-. exists rest. reflexivity.
  - intros [rest ->]. cbn. destruct ind. reflexivity.
Qed.

Lemma indOfFields_no_error (fields : list gostring) (err : error) :
  indOfFields fields <> Fail err.
Proof.
  unfold indOfFields, index.
  destruct fields as [|f0 [|f1 [|f2 rest]]]; cbn; discriminate.
Qed.

(** The lines that the loop accepts are added to the slice in order. *)
Lemma indLoop_app (texts rest : list gostring) (scanErr : option error) :
  forall acc new,
    Forall2 (fun text ind => indOfFields (fieldsOf text) = Val ind)
            texts new ->
    indLoop (texts ++ rest) scanErr acc = indLoop rest scanErr (acc ++ new).
Proof.
  induction texts as [|text texts IH]; intros acc new Hall;
    inversion Hall as [|? ind ? new' Hind Hall']; subst.
  - rewrite app_nil_r. reflexivity.
  - cbn [app indLoop]. rewrite Hind.
    rewrite (IH _ new' Hall'), <- app_assoc. reflexivity.
Qed.

Lemma indLoop_lines (texts : list gostring) (scanErr : option error) :
  forall acc inds,
    indLoop texts scanErr acc = Returns inds None ->
    exists new,
      inds = acc ++ new /\ scanErr = None /\
      Forall2 (fun text ind => indOfFields (fieldsOf text) = Val ind)
              texts new.
Proof.
  induction texts as [|text texts IH]; intros acc inds Hloop.
  - cbn in Hloop. injection Hloop as -> ->.
    exists []. rewrite app_nil_r. repeat split. constructor.
  - cbn [indLoop] in Hloop.
    destruct (indOfFields (fieldsOf text)) as [ind|err|] eqn:Hind;
      try discriminate.
    destruct (IH _ _ Hloop) as (new & -> & Herr & Hall).
    exists (ind :: new). rewrite <- app_assoc. repeat split; [exact Herr|].
    constructor; assumption.
Qed.

Lemma snpLoop_app `{FloatParser} (texts rest : list gostring)
  (scanErr : option error) :
  forall acc new,
    Forall2 (fun text s => snpOfFields (fieldsOf text) = Val s) texts new ->
    snpLoop (texts ++ rest) scanErr acc = snpLoop rest scanErr (acc ++ new).
Proof.
  induction texts as [|text texts IH]; intros acc new Hall;
    inversion Hall as [|? s ? new' Hs Hall']; subst.
  - rewrite app_nil_r. reflexivity.
  - cbn [app snpLoop]. rewrite Hs.
    rewrite (IH _ new' Hall'), <- app_assoc. reflexivity.
Qed.

(** X1: ReadIndFile succeeds exactly when every line of the file is
    shorter than the scanner's buffer and has at least three fields; it
    then returns one individual per line, in the order of the file, made of
    the first three fields of the line.  Further fields are ignored. *)
Theorem ReadIndFile_one_per_line
  (fs : filesystem) (path : string) (file : gostring) (inds : list Ind) :
  fs path = Some file ->
  ReadIndFile fs path = Returns inds None <->
  Forall (fun l => Z.of_nat (List.length l) < MaxScanTokenSize)
         (splitLines file) /\
  Forall2 (fun l ind =>
             exists rest,
               fieldsOf (dropCR l)
               = SampleID ind :: Gender ind :: Label ind :: rest)
          (splitLines file) inds.
Proof.
  intros Hfile. unfold ReadIndFile, Open, scanLines. rewrite Hfile. split.
  - destruct (scanTokens (splitLines file)) as [texts scanErr] eqn:Hscan.
    intros Hloop.
    destruct (indLoop_lines _ _ _ _ Hloop) as (new & -> & -> & Hall).
    destruct (scanTokens_no_error _ _ Hscan) as [-> Hshort].
    split; [exact Hshort|]. cbn [app].
    apply Forall2_map_left in Hall.
    eapply Forall2_impl; [|exact Hall].
    intros l ind Hind. apply indOfFields_Val. exact Hind.
  - intros [Hshort Hall]. rewrite (scanTokens_short _ Hshort).
    rewrite <- (app_nil_r (map dropCR (splitLines file))).
    rewrite (indLoop_app _ [] None [] inds); [reflexivity|].
    apply Forall2_map_left.
    eapply Forall2_impl; [|exact Hall].
    intros l ind Hind. apply indOfFields_Val. exact Hind.
Qed.

Lemma ReadIndFile_one_per_line_witness :
  ReadIndFile (disk genoFile (line "i1 M pop extra" ++ str "i2 F ctl")
                    snpFile) "d.ind"
  = Returns [theInd;
             {| SampleID := str "i2"; Gender := str "F";
                Label := str "ctl" |}] None.
Proof.
  apply (ReadIndFile_one_per_line
           (disk genoFile (line "i1 M pop extra" ++ str "i2 F ctl") snpFile)
           "d.ind" (line "i1 M pop extra" ++ str "i2 F ctl")).
  - reflexivity.
  - split.
    + vm_compute. repeat constructor.
    + change (splitLines (line "i1 M pop extra" ++ str "i2 F ctl"))
        with [str "i1 M pop extra"; str "i2 F ctl"].
      constructor; [exists [str "extra"]; vm_compute; reflexivity|].
      constructor; [exists []; vm_compute; reflexivity|].
      constructor.
Defined.

(** A run of bytes without newline that a newline ends is a line of its
    own. *)
Lemma splitLines_line (l rest : gostring) :
  Forall (fun c => Ascii.eqb c newline = false) l ->
  splitLines (l ++ newline :: rest) = l :: splitLines rest.
Proof.
  induction 1 as [|c l Hc _ IH]; [reflexivity|].
  cbn [app splitLines]. rewrite Hc, IH. reflexivity.
Qed.

Lemma splitLines_last (l : gostring) :
  Forall (fun c => Ascii.eqb c newline = false) l -> l <> [] ->
  splitLines l = [l].
Proof.
  induction 1 as [|c l Hc Hl IH]; intros Hne; [contradiction|].
  cbn [splitLines]. rewrite Hc. destruct l as [|c' l]; [reflexivity|].
  rewrite IH by discriminate. reflexivity.
Qed.

(** What the loop of ReadSnpFile stores for a line that it accepts, in
    terms of the line's fields. *)
Lemma snpOfFields_shape `{FloatParser} (fields : list gostring) (s : Snp) :
  snpOfFields fields = Val s ->
  exists chr gpos ppos ref refTail alt altTail rest c p,
    fields = Name s :: chr :: gpos :: ppos
             :: (ref :: refTail) :: (alt :: altTail) :: rest /\
    Atoi chr = Val c /\ Chromosome s = c mod 2 ^ 8 /\
    parseFloat32 gpos = Some (GeneticPos s) /\
    ParseUint ppos = Val p /\ PhysicalPos s = p mod 2 ^ 32 /\
    Ref s = byteval ref /\ Alt s = byteval alt.
Proof.
  unfold snpOfFields, index, ParseFloat.
  destruct fields as [|id [|chr [|gpos [|ppos [|[|ref refTail]
                     [|[|alt altTail] rest]]]]]];
    cbn [nth_error bind]; try discriminate;
    try (destruct (Atoi chr) as [c|e|]; cbn [bind]; discriminate);
    destruct (Atoi chr) as [c|e|] eqn:Ec; cbn [bind]; try discriminate;
    try (destruct (parseFloat32 gpos) as [g|]; cbn [bind]; discriminate);
    destruct (parseFloat32 gpos) as [g|] eqn:Eg; cbn [bind];
    try discriminate;
    destruct (ParseUint ppos) as [p|e|] eqn:Ep; cbn [bind];
    try discriminate.
  intros Hs. injection Hs as <-. cbn.
  exists chr, gpos, ppos, ref, refTail, alt, altTail, rest, c, p.
  repeat split; assumption.
Qed.

(** X2: the markers that ReadSnpFile returns without error are one per line
    of the file, in the order of the file.  The name is the first field of
    the line; the physical position is the fourth field, parsed as an
    unsigned 64-bit number and reduced modulo 2^32; the two alleles are the
    first bytes of the fifth and sixth fields.  What follows in these
    fields, and any further field, is ignored. *)
Theorem ReadSnpFile_one_per_line `{FloatParser}
  (fs : filesystem) (path : string) (snps : list Snp) :
  ReadSnpFile fs path = Returns snps None ->
  exists file,
    fs path = Some file /\
    Forall2 (fun l s =>
               exists chr gpos ppos ref refTail alt altTail rest p,
                 fieldsOf (dropCR l)
                 = Name s :: chr :: gpos :: ppos
                   :: (ref :: refTail) :: (alt :: altTail) :: rest /\
                 parseFloat32 gpos = Some (GeneticPos s) /\
                 ParseUint ppos = Val p /\
                 PhysicalPos s = p mod 2 ^ 32 /\
                 Ref s = byteval ref /\ Alt s = byteval alt)
            (splitLines file) snps.
Proof.
  unfold ReadSnpFile, Open, scanLines.
  destruct (fs path) as [file|]; [|discriminate].
  destruct (scanTokens (splitLines file)) as [texts scanErr] eqn:Hscan.
  intros Hloop.
  destruct (snpLoop_lines _ _ _ _ Hloop) as (new & -> & -> & Hall).
  destruct (scanTokens_no_error _ _ Hscan) as [-> _].
  exists file. split; [reflexivity|]. cbn [app].
  apply Forall2_map_left in Hall.
  eapply Forall2_impl; [|exact Hall].
  intros l s Hs. cbn beta in Hs.
  destruct (snpOfFields_shape _ _ Hs)
    as (chr & gpos & ppos & ref & refTail & alt & altTail & rest & c & p
        & Hf & _ & _ & Hg & Hp & Hpp & Hr & Ha).
  exists chr, gpos, ppos, ref, refTail, alt, altTail, rest, p.
  repeat split; assumption.
Qed.

Lemma ReadSnpFile_one_per_line_witness :
  exists file,
    disk genoFile indFile
         (line "rs9 2 0.5 4294967396 Adenine Guanine more") "d.snp"%string
    = Some file /\
    Forall2 (fun l s =>
               exists chr gpos ppos ref refTail alt altTail rest p,
                 fieldsOf (dropCR l)
                 = Name s :: chr :: gpos :: ppos
                   :: (ref :: refTail) :: (alt :: altTail) :: rest /\
                 parseFloat32 gpos = Some (GeneticPos s) /\
                 ParseUint ppos = Val p /\
                 PhysicalPos s = p mod 2 ^ 32 /\
                 Ref s = byteval ref /\ Alt s = byteval alt)
            (splitLines file)
            [{| Name := str "rs9"; Chromosome := 2;
                GeneticPos := str "0.5"; PhysicalPos := 100;
                Ref := 65; Alt := 71 |}].
Proof.
  apply (ReadSnpFile_one_per_line
           (disk genoFile indFile
                 (line "rs9 2 0.5 4294967396 Adenine Guanine more"))
           "d.snp").
  vm_compute. reflexivity.
Defined.

(** X3: ReadSnpFile stops at the first line that it cannot take.  When a
    number of that line does not parse, it returns the markers of the lines
    before it together with the error; when the line has too few fields it
    panics and those markers are lost.  The lines after it are not looked
    at. *)
Theorem ReadSnpFile_stops_at_first_bad_line `{FloatParser}
  (fs : filesystem) (path : string) (file : gostring)
  (good rest : list gostring) (bad : gostring) (snps : list Snp) :
  fs path = Some file ->
  fst (scanLines file) = good ++ bad :: rest ->
  Forall2 (fun text s => snpOfFields (fieldsOf text) = Val s) good snps ->
  (forall err,
     snpOfFields (fieldsOf bad) = Fail err ->
     ReadSnpFile fs path = Returns snps (Some err)) /\
  (snpOfFields (fieldsOf bad) = Crash -> ReadSnpFile fs path = Panics).
Proof.
  intros Hfile Hlines Hgood. unfold ReadSnpFile, Open. rewrite Hfile.
  destruct (scanLines file) as [texts scanErr]. cbn [fst] in Hlines.
  subst texts. rewrite (snpLoop_app _ _ _ [] snps Hgood). cbn [app snpLoop].
  split.
  - intros err Hbad. rewrite Hbad. reflexivity.
  - intros Hbad. rewrite Hbad. reflexivity.
Qed.

Lemma ReadSnpFile_stops_at_first_bad_line_witness :
  ReadSnpFile (disk genoFile indFile
                 (snpFile ++ line "rs2 x 0.0 200 A G" ++ line "rs3"))
              "d.snp"
  = Returns [theSnp] (Some (NumError "Atoi" (str "x"))).
Proof.
  apply (ReadSnpFile_stops_at_first_bad_line
           (disk genoFile indFile
              (snpFile ++ line "rs2 x 0.0 200 A G" ++ line "rs3"))
           "d.snp"
           (snpFile ++ line "rs2 x 0.0 200 A G" ++ line "rs3")
           [str "rs1 1 0.0 100 A G"] [str "rs3"]
           (str "rs2 x 0.0 200 A G") [theSnp]).
  - reflexivity.
  - vm_compute. reflexivity.
  - constructor; [vm_compute; reflexivity | constructor].
  - vm_compute. reflexivity.
Defined.

(** X4: a line of 65536 bytes or more ends the reading of the table of
    individuals: ReadIndFile returns the individuals of the lines before
    it together with the scanner's error, and no line after it is read. *)
Theorem ReadIndFile_line_too_long
  (fs : filesystem) (path : string) (file : gostring)
  (before after : list gostring) (long : gostring) (inds : list Ind) :
  fs path = Some file ->
  splitLines file = before ++ long :: after ->
  Forall (fun l => Z.of_nat (List.length l) < MaxScanTokenSize) before ->
  MaxScanTokenSize <= Z.of_nat (List.length long) ->
  Forall2 (fun l ind =>
             exists rest,
               fieldsOf (dropCR l)
               = SampleID ind :: Gender ind :: Label ind :: rest)
          before inds ->
  ReadIndFile fs path = Returns inds (Some ErrTooLong).
Proof.
  intros Hfile Hlines Hshort Hlong Hall.
  unfold ReadIndFile, Open, scanLines. rewrite Hfile, Hlines.
  rewrite (scanTokens_long _ _ _ Hshort Hlong).
  rewrite <- (app_nil_r (map dropCR before)).
  rewrite (indLoop_app _ [] _ [] inds); [reflexivity|].
  apply Forall2_map_left.
  eapply Forall2_impl; [|exact Hall].
  intros l ind Hind. apply indOfFields_Val. exact Hind.
Qed.

Lemma ReadIndFile_line_too_long_witness :
  ReadIndFile (disk genoFile
                 (indFile ++ repeat "a"%char (Z.to_nat 65536)
                  ++ [newline] ++ str "i3")
                 snpFile) "d.ind"
  = Returns [theInd] (Some ErrTooLong).
Proof.
  apply (ReadIndFile_line_too_long
           (disk genoFile
              (indFile ++ repeat "a"%char (Z.to_nat 65536)
               ++ [newline] ++ str "i3")
              snpFile) "d.ind"
           (indFile ++ repeat "a"%char (Z.to_nat 65536)
            ++ [newline] ++ str "i3")
           [str "i1 M pop"] [str "i3"]
           (repeat "a"%char (Z.to_nat 65536)) [theInd]).
  - reflexivity.
  - change indFile with (str "i1 M pop" ++ newline :: []).
    rewrite <- app_assoc. cbn [app].
    rewrite splitLines_line by (vm_compute; repeat constructor).
    rewrite splitLines_line; [reflexivity|].
    apply Forall_forall. intros c Hc. apply repeat_spec in Hc.
    subst c. reflexivity.
  - constructor; [vm_compute; reflexivity | constructor].
  - rewrite repeat_length. vm_compute. discriminate.
  - constructor; [exists []; vm_compute; reflexivity | constructor].
Defined.

(** ** HashIt and the hash of the first column *)

Lemma hashStep_range (hash : Z) (b : byte) :
  0 <= hashStep hash b < 2 ^ 32.
Proof. unfold hashStep, uint32. apply Z.mod_pos_bound. lia. Qed.

Lemma fold_hashStep_range (s : gostring) :
  forall acc, 0 <= acc < 2 ^ 32 -> 0 <= fold_left hashStep s acc < 2 ^ 32.
Proof.
  induction s as [|b s IH]; intros acc Hacc; [exact Hacc|].
  cbn [fold_left]. apply IH. apply hashStep_range.
Qed.

(** For a string shorter than 2^32 bytes the loop of HashIt runs over all
    of it. *)
Lemma HashIt_fold (s : gostring) :
  Z.of_nat (List.length s) < 2 ^ 32 ->
  HashIt s = fold_left hashStep s 0.
Proof.
  intros Hlen. unfold HashIt, uint32.
  rewrite Z.mod_small by lia. rewrite Nat2Z.id, firstn_all. reflexivity.
Qed.

Lemma mod_mul_add (a p f m : Z) :
  (a mod m * p + f) mod m = (a * p + f) mod m.
Proof.
  rewrite <- (Zplus_mod_idemp_l (a mod m * p)).
  rewrite Zmult_mod_idemp_l, Zplus_mod_idemp_l. reflexivity.
Qed.

(** Starting the loop from [acc] instead of 0 adds [acc * 23^len]. *)
Lemma fold_hashStep_from (t : gostring) :
  forall acc, 0 <= acc < 2 ^ 32 ->
    fold_left hashStep t acc
    = (acc * 23 ^ Z.of_nat (List.length t) + fold_left hashStep t 0)
      mod 2 ^ 32.
Proof.
  induction t as [|b t IH]; intros acc Hacc.
  - cbn [fold_left List.length]. change (Z.of_nat 0) with 0.
    rewrite Z.pow_0_r, Z.mul_1_r, Z.add_0_r, Z.mod_small by lia.
    reflexivity.
  - cbn [fold_left List.length].
    rewrite (IH (hashStep acc b)) by apply hashStep_range.
    rewrite (IH (hashStep 0 b)) by apply hashStep_range.
    rewrite !hashStep_mod. rewrite Nat2Z.inj_succ, Z.pow_succ_r by lia.
    set (P := 23 ^ Z.of_nat (List.length t)).
    set (F := fold_left hashStep t 0).
    rewrite !mod_mul_add, Zplus_mod_idemp_r.
    f_equal. ring.
Qed.

(** X5: HashIt of a concatenation is [HashIt s * 23^len(t) + HashIt t] in
    wrapping 32-bit arithmetic, for strings whose lengths add up to less
    than 2^32: the hash is a polynomial in 23 with the bytes as
    coefficients. *)
Theorem HashIt_app (s t : gostring) :
  Z.of_nat (List.length s) + Z.of_nat (List.length t) < 2 ^ 32 ->
  HashIt (s ++ t)
  = (HashIt s * 23 ^ Z.of_nat (List.length t) + HashIt t) mod 2 ^ 32.
Proof.
  intros Hlen.
  rewrite (HashIt_fold (s ++ t)) by (rewrite length_app; lia).
  rewrite (HashIt_fold s), (HashIt_fold t) by lia.
  rewrite fold_left_app. apply fold_hashStep_from.
  apply fold_hashStep_range. lia.
Qed.

Lemma HashIt_app_witness :
  HashIt (str "rs" ++ str "12")
  = (HashIt (str "rs") * 23 ^ 2 + HashIt (str "12")) mod 2 ^ 32.
Proof.
  apply (HashIt_app (str "rs") (str "12")). vm_compute. reflexivity.
Defined.

(** The hash of the first column as a fold over the first tokens of the
    lines that end in a newline. *)
Lemma hashOfData_tokens (data : gostring) :
  hashOfData data
  = fold_left (fun hash token => Z.lxor (uint32 (hash * 17)) (HashIt token))
              (map FindString_nonspace (terminatedLines data)) 0.
Proof.
  unfold hashOfData. rewrite readStrings_terminatedLines.
  generalize 0. induction (terminatedLines data) as [|l ls IH]; intros h;
    [reflexivity|].
  cbn [map fold_left]. rewrite IH. f_equal. unfold foldLine.
  rewrite FindString_nonspace_newline. reflexivity.
Qed.

(** X6: the hash of HashFileFirstColumn depends on the first column only:
    two files whose newline-terminated lines have, one by one, the same
    first run of non-whitespace characters hash to the same value,
    whatever else the lines hold. *)
Theorem HashFileFirstColumn_first_column_only
  (fs : filesystem) (path1 path2 : string) (data1 data2 : gostring) :
  fs path1 = Some data1 -> fs path2 = Some data2 ->
  map FindString_nonspace (terminatedLines data1)
  = map FindString_nonspace (terminatedLines data2) ->
  HashFileFirstColumn fs path1 = HashFileFirstColumn fs path2.
Proof.
  intros H1 H2 Hcol. unfold HashFileFirstColumn, Open. rewrite H1, H2.
  rewrite !hashOfData_tokens, Hcol. reflexivity.
Qed.

Lemma HashFileFirstColumn_first_column_only_witness :
  HashFileFirstColumn (disk genoFile (line "i1 F other") indFile) "d.ind"
  = HashFileFirstColumn (disk genoFile (line "i1 F other") indFile) "d.snp".
Proof.
  apply (HashFileFirstColumn_first_column_only
           (disk genoFile (line "i1 F other") indFile) "d.ind" "d.snp"
           (line "i1 F other") indFile).
  - reflexivity.
  - reflexivity.
  - vm_compute. reflexivity.
Defined.

Lemma terminatedLines_nonempty (body : gostring) :
  terminatedLines (body ++ [newline]) <> [].
Proof.
  rewrite terminatedLines_all. intros Hnil.
  apply splitLines_nil in Hnil. destruct body; discriminate.
Qed.

Lemma terminatedLines_app (body rest : gostring) :
  terminatedLines ((body ++ [newline]) ++ rest)
  = terminatedLines (body ++ [newline]) ++ terminatedLines rest.
Proof.
  induction body as [|c body IH]; [reflexivity|].
  cbn [app terminatedLines]. rewrite IH.
  destruct (Ascii.eqb c newline); [reflexivity|].
  pose proof (terminatedLines_nonempty body) as Hne.
  destruct (terminatedLines (body ++ [newline])) as [|l ls];
    [contradiction | reflexivity].
Qed.

Lemma terminatedLines_one (l : gostring) :
  Forall (fun c => Ascii.eqb c newline = false) l ->
  terminatedLines (l ++ [newline]) = [l].
Proof.
  intros Hl. rewrite terminatedLines_all.
  rewrite (splitLines_line l [] Hl). reflexivity.
Qed.

(** X7: adding a line to a file that is empty or ends with a newline
    continues the hash where it stood: the new hash is
    [(hash * 17) XOR HashIt(token)] in 32-bit arithmetic, [token] being the
    first run of non-whitespace characters of the added line.  A blank
    line counts: it multiplies the hash by 17. *)
Theorem HashFileFirstColumn_add_line
  (fs : filesystem) (path1 path2 : string) (data l : gostring) :
  data = [] \/ (exists body, data = body ++ [newline]) ->
  Forall (fun c => Ascii.eqb c newline = false) l ->
  fs path1 = Some data ->
  fs path2 = Some (data ++ l ++ [newline]) ->
  exists hash,
    HashFileFirstColumn fs path1 = Returns hash None /\
    HashFileFirstColumn fs path2
    = Returns (Z.lxor (uint32 (hash * 17)) (HashIt (FindString_nonspace l)))
              None /\
    (FindString_nonspace l = [] ->
     HashFileFirstColumn fs path2 = Returns (uint32 (hash * 17)) None).
Proof.
  intros Hdata Hl H1 H2. exists (hashOfData data).
  assert (Hnew : hashOfData (data ++ l ++ [newline])
                 = Z.lxor (uint32 (hashOfData data * 17))
                          (HashIt (FindString_nonspace l))).
  { rewrite !hashOfData_tokens.
    assert (Hlines : terminatedLines (data ++ l ++ [newline])
                     = terminatedLines data ++ [l]).
    { destruct Hdata as [->|[body ->]].
      - cbn [app]. apply terminatedLines_one. exact Hl.
      - rewrite terminatedLines_app, (terminatedLines_one l Hl).
        reflexivity. }
    rewrite Hlines, map_app, fold_left_app. reflexivity. }
  unfold HashFileFirstColumn, Open. rewrite H1, H2, Hnew.
  split; [reflexivity|]. split; [reflexivity|].
  intros Hblank. rewrite Hblank.
  change (HashIt []) with 0. rewrite Z.lxor_0_r. reflexivity.
Qed.

Lemma HashFileFirstColumn_add_line_witness :
  exists hash,
    HashFileFirstColumn (disk genoFile indFile (indFile ++ line "i2 F ctl"))
                        "d.ind"
    = Returns hash None /\
    HashFileFirstColumn (disk genoFile indFile (indFile ++ line "i2 F ctl"))
                        "d.snp"
    = Returns (Z.lxor (uint32 (hash * 17)) (HashIt (str "i2"))) None.
Proof.
  destruct (HashFileFirstColumn_add_line
              (disk genoFile indFile (indFile ++ line "i2 F ctl"))
              "d.ind" "d.snp" indFile (str "i2 F ctl"))
    as (hash & H1 & H2 & _).
  - right. exists (str "i1 M pop"). reflexivity.
  - vm_compute. repeat constructor.
  - reflexivity.
  - reflexivity.
  - exists hash. split; [exact H1|]. exact H2.
Defined.

(** ** The first column as the hash and as the tables see it

    HashFileFirstColumn takes the first match of [\S+] in a line,
    ReadIndFile and ReadSnpFile the first field of [strings.Fields].  The
    two differ on the vertical tab and on the white space beyond ASCII,
    which separate fields but are part of a match of [\S+]; on other text
    they agree. *)

Lemma spaceWidth_ascii (c : byte) (s : gostring) :
  byteval c < 128 -> byteval c <> 11 ->
  spaceWidth (c :: s) = if isPerlSpace c then 1%nat else 0%nat.
Proof.
  intros Hascii Hvt. unfold spaceWidth.
  assert (Hsp : isSpace c = isPerlSpace c).
  { unfold isSpace, isPerlSpace, inCodes. cbn [existsb].
    replace (byteval c =? 11) with false by (symmetry; apply Z.eqb_neq; lia).
    reflexivity. }
  rewrite Hsp. destruct (isPerlSpace c); [reflexivity|].
  replace (byteval c =? 194) with false by (symmetry; apply Z.eqb_neq; lia).
  replace (byteval c =? 225) with false by (symmetry; apply Z.eqb_neq; lia).
  replace (byteval c =? 226) with false by (symmetry; apply Z.eqb_neq; lia).
  replace (byteval c =? 227) with false by (symmetry; apply Z.eqb_neq; lia).
  cbn [andb].
  destruct (map byteval (firstn 2 s)) as [|b1 [|b2 [|b3 bs]]]; reflexivity.
Qed.

(** A field under way runs on to the next white space. *)
Lemma fieldsFrom_under_way (s : gostring) :
  Forall (fun c => byteval c < 128 /\ byteval c <> 11) s ->
  forall f field,
  exists others,
    fieldsFrom s 0 (f :: field)
    = (rev (f :: field) ++ takeWhile (fun b => negb (isPerlSpace b)) s)
      :: others.
Proof.
  induction 1 as [|c s [Hascii Hvt] _ IH]; intros f field.
  - exists []. cbn [fieldsFrom closeField takeWhile].
    rewrite app_nil_r. reflexivity.
  - cbn [fieldsFrom takeWhile]. rewrite (spaceWidth_ascii c s Hascii Hvt).
    destruct (isPerlSpace c); cbn [negb].
    + exists (fieldsFrom s 0 []). cbn [closeField].
      rewrite app_nil_r. reflexivity.
    + destruct (IH c (f :: field)) as [others ->]. exists others.
      cbn [rev]. rewrite <- !app_assoc. reflexivity.
Qed.

(** The first field of [strings.Fields] is the first match of [\S+]. *)
Lemma Fields_first (s : gostring) :
  Forall (fun c => byteval c < 128 /\ byteval c <> 11) s ->
  forall field0 others,
    Fields s = field0 :: others -> field0 = FindString_nonspace s.
Proof.
  unfold Fields, FindString_nonspace.
  induction 1 as [|c s [Hascii Hvt] Hs IH]; intros field0 others;
    [discriminate|].
  cbn [fieldsFrom dropWhile]. rewrite (spaceWidth_ascii c s Hascii Hvt).
  destruct (isPerlSpace c) eqn:Hc.
  - cbn [closeField]. apply IH.
  - destruct (fieldsFrom_under_way s Hs c []) as [rest ->].
    intros Heq. injection Heq as <- _.
    cbn [takeWhile rev app]. rewrite Hc. reflexivity.
Qed.

Lemma takeWhile_app_spaces (u v : gostring) :
  forallb isPerlSpace v = true ->
  takeWhile (fun b => negb (isPerlSpace b)) (u ++ v)
  = takeWhile (fun b => negb (isPerlSpace b)) u.
Proof.
  intros Hv. induction u as [|c u IH].
  - destruct v as [|x v]; [reflexivity|]. cbn in Hv |- *.
    apply andb_prop in Hv. destruct Hv as [-> _]. reflexivity.
  - cbn [app takeWhile]. rewrite IH. reflexivity.
Qed.

(** White space at the end of a line does not change the match. *)
Lemma FindString_nonspace_app_spaces (u v : gostring) :
  forallb isPerlSpace v = true ->
  FindString_nonspace (u ++ v) = FindString_nonspace u.
Proof.
  intros Hv. unfold FindString_nonspace. induction u as [|c u IH].
  - cbn [app]. induction v as [|x v IHv]; [reflexivity|].
    cbn in Hv |- *. apply andb_prop in Hv. destruct Hv as [-> Hv].
    apply IHv. exact Hv.
  - cbn [app dropWhile]. destruct (isPerlSpace c); [exact IH|].
    change (c :: u ++ v) with ((c :: u) ++ v).
    apply takeWhile_app_spaces. exact Hv.
Qed.

Lemma trimLeft_spec (c : byte) (s : gostring) :
  exists k, s = repeat c k ++ trimLeft c s.
Proof.
  induction s as [|x s [k IH]]; [exists 0%nat; reflexivity|].
  cbn [trimLeft]. destruct (Ascii.eqb x c) eqn:Hx.
  - apply Ascii.eqb_eq in Hx. subst x. exists (S k). cbn [repeat app].
    rewrite <- IH. reflexivity.
  - exists 0%nat. reflexivity.
Qed.

(** What [strings.Trim] cuts off. *)
Lemma Trim_spec (s : gostring) (c : byte) :
  exists j k, s = repeat c j ++ Trim s c ++ repeat c k.
Proof.
  unfold Trim. destruct (trimLeft_spec c s) as [j Hj].
  destruct (trimLeft_spec c (rev (trimLeft c s))) as [k Hk].
  exists j, k. rewrite Hj at 1. f_equal.
  rewrite <- (rev_involutive (trimLeft c s)) at 1. rewrite Hk at 1.
  rewrite rev_app_distr. f_equal.
  clear. induction k as [|k IH]; [reflexivity|].
  cbn [repeat rev]. rewrite IH. clear.
  induction k as [|k IH]; [reflexivity|].
  cbn [repeat app]. rewrite IH. reflexivity.
Qed.

Lemma dropWhile_repeat_space (k : nat) (s : gostring) :
  dropWhile isPerlSpace (repeat " "%char k ++ s) = dropWhile isPerlSpace s.
Proof. induction k as [|k IH]; [reflexivity|]. exact IH. Qed.

Lemma FindString_nonspace_Trim (s : gostring) :
  FindString_nonspace (Trim s " "%char) = FindString_nonspace s.
Proof.
  destruct (Trim_spec s " "%char) as (j & k & Hs).
  remember (Trim s " "%char) as trimmed eqn:Ht. clear Ht. subst s.
  transitivity (FindString_nonspace (trimmed ++ repeat " "%char k)).
  - symmetry. apply FindString_nonspace_app_spaces.
    clear. induction k as [|k IH]; [reflexivity | exact IH].
  - unfold FindString_nonspace. rewrite dropWhile_repeat_space.
    reflexivity.
Qed.

Lemma dropCR_spec (l : gostring) :
  l = dropCR l \/ l = dropCR l ++ ["013"%char].
Proof.
  unfold dropCR. destruct l as [|c l]; [left; reflexivity|].
  destruct (Ascii.eqb (last (c :: l) zero) "013"%char) eqn:Hlast;
    [|left; reflexivity].
  right. apply Ascii.eqb_eq in Hlast. rewrite <- Hlast.
  apply app_removelast_last. discriminate.
Qed.

Lemma FindString_nonspace_dropCR (l : gostring) :
  FindString_nonspace (dropCR l) = FindString_nonspace l.
Proof.
  destruct (dropCR_spec l) as [Hl|Hl]; rewrite Hl at 2; [reflexivity|].
  rewrite FindString_nonspace_app_spaces; reflexivity.
Qed.

Lemma Forall_Trim (P : byte -> Prop) (s : gostring) (c : byte) :
  Forall P s -> Forall P (Trim s c).
Proof.
  intros Hs. destruct (Trim_spec s c) as (j & k & Heq).
  rewrite Heq in Hs. apply Forall_app in Hs. destruct Hs as [_ Hs].
  apply Forall_app in Hs. apply Hs.
Qed.

Lemma Forall_dropCR (P : byte -> Prop) (l : gostring) :
  Forall P l -> Forall P (dropCR l).
Proof.
  intros Hl. destruct (dropCR_spec l) as [Heq|Heq]; rewrite Heq in Hl;
    [exact Hl|].
  apply Forall_app in Hl. apply Hl.
Qed.

(** The first field that the table readers see in a line is the token that
    HashFileFirstColumn hashes. *)
Lemma fieldsOf_first (l field0 : gostring) (others : list gostring) :
  Forall (fun c => byteval c < 128 /\ byteval c <> 11) l ->
  fieldsOf (dropCR l) = field0 :: others ->
  field0 = FindString_nonspace l.
Proof.
  intros Hl Hfields. unfold fieldsOf in Hfields.
  apply Fields_first in Hfields;
    [|apply Forall_Trim, Forall_dropCR; exact Hl].
  rewrite Hfields, FindString_nonspace_Trim, FindString_nonspace_dropCR.
  reflexivity.
Qed.

Lemma Forall_splitLines (P : byte -> Prop) (data : gostring) :
  Forall P data -> Forall (Forall P) (splitLines data).
Proof.
  induction 1 as [|c data Hc _ IH]; [constructor|].
  cbn [splitLines]. destruct (Ascii.eqb c newline).
  - constructor; [constructor | exact IH].
  - destruct (splitLines data) as [|l ls];
      [repeat constructor; exact Hc|].
    inversion IH; subst. constructor; [constructor|]; assumption.
Qed.

Lemma terminatedLines_whole (data : gostring) :
  data = [] \/ (exists body, data = body ++ [newline]) ->
  terminatedLines data = splitLines data.
Proof.
  intros [->|[body ->]]; [reflexivity | apply terminatedLines_all].
Qed.

(** The hash of a table whose first column is the [key] of its entries. *)
Lemma hashOfData_keys {A} (key : A -> gostring) (data : gostring)
  (entries : list A) :
  data = [] \/ (exists body, data = body ++ [newline]) ->
  Forall2 (fun l entry => FindString_nonspace l = key entry)
          (splitLines data) entries ->
  hashOfData data
  = fold_left (fun hash entry => Z.lxor (uint32 (hash * 17))
                                        (HashIt (key entry)))
              entries 0.
Proof.
  intros Hend Hkeys.
  rewrite hashOfData_tokens, (terminatedLines_whole data Hend).
  generalize 0. induction Hkeys as [|l entry ls entries Hl _ IH]; intros h;
    [reflexivity|].
  cbn [map fold_left]. rewrite Hl. apply IH.
Qed.

Lemma Forall2_Forall_impl {A B} (P : A -> Prop) (Q R : A -> B -> Prop)
  (l : list A) (l' : list B) :
  (forall a b, P a -> Q a b -> R a b) ->
  Forall P l -> Forall2 Q l l' -> Forall2 R l l'.
Proof.
  intros Himp Hall H2. induction H2 as [|a b l l' Hab _ IH];
    [constructor|].
  inversion Hall; subst. constructor; [apply Himp; assumption|].
  apply IH. assumption.
Qed.

Lemma ReadIndFile_lines (fs : filesystem) (path : string) (file : gostring)
  (inds : list Ind) :
  fs path = Some file ->
  ReadIndFile fs path = Returns inds None ->
  Forall2 (fun l ind => indOfFields (fieldsOf (dropCR l)) = Val ind)
          (splitLines file) inds.
Proof.
  intros Hfile. unfold ReadIndFile, Open, scanLines. rewrite Hfile.
  destruct (scanTokens (splitLines file)) as [texts scanErr] eqn:Hscan.
  intros Hloop.
  destruct (indLoop_lines _ _ _ _ Hloop) as (new & -> & -> & Hall).
  destruct (scanTokens_no_error _ _ Hscan) as [-> _].
  apply Forall2_map_left in Hall. exact Hall.
Qed.

(** X8: the hash of an individuals file is the hash of the sample IDs that
    ReadIndFile returns for it: [hash = (hash * 17) XOR HashIt(SampleID)]
    over the individuals in order, from 0.  This holds for a file that
    ReadIndFile reads without error, that is empty or ends with a newline,
    and whose bytes are ASCII without the vertical tab. *)
Theorem HashFileFirstColumn_of_SampleIDs
  (fs : filesystem) (path : string) (file : gostring) (inds : list Ind) :
  fs path = Some file ->
  file = [] \/ (exists body, file = body ++ [newline]) ->
  Forall (fun c => byteval c < 128 /\ byteval c <> 11) file ->
  ReadIndFile fs path = Returns inds None ->
  HashFileFirstColumn fs path
  = Returns (fold_left (fun hash ind => Z.lxor (uint32 (hash * 17))
                                               (HashIt (SampleID ind)))
                       inds 0)
            None.
Proof.
  intros Hfile Hend Hplain Hread.
  unfold HashFileFirstColumn, Open. rewrite Hfile. f_equal.
  apply hashOfData_keys; [exact Hend|].
  eapply Forall2_Forall_impl;
    [| exact (Forall_splitLines _ _ Hplain)
     | exact (ReadIndFile_lines fs path file inds Hfile Hread)].
  intros l ind Hl Hind. cbn beta in Hind.
  apply indOfFields_Val in Hind. destruct Hind as [rest Hfields].
  symmetry. exact (fieldsOf_first l _ _ Hl Hfields).
Qed.

Lemma HashFileFirstColumn_of_SampleIDs_witness :
  HashFileFirstColumn
    (disk genoFile (line "  i1 M pop" ++ line "i2 F ctl") snpFile) "d.ind"
  = Returns (Z.lxor (uint32 (Z.lxor (uint32 (0 * 17)) (HashIt (str "i1"))
                             * 17))
                    (HashIt (str "i2")))
            None.
Proof.
  apply (HashFileFirstColumn_of_SampleIDs
           (disk genoFile (line "  i1 M pop" ++ line "i2 F ctl") snpFile)
           "d.ind" (line "  i1 M pop" ++ line "i2 F ctl")
           [theInd; {| SampleID := str "i2"; Gender := str "F";
                       Label := str "ctl" |}]).
  - reflexivity.
  - right. exists (line "  i1 M pop" ++ str "i2 F ctl"). reflexivity.
  - vm_compute. repeat constructor; discriminate.
  - vm_compute. reflexivity.
Defined.

(** X9: likewise the hash of a marker file is the hash of the names of the
    markers that ReadSnpFile returns for it. *)
Theorem HashFileFirstColumn_of_Names `{FloatParser}
  (fs : filesystem) (path : string) (file : gostring) (snps : list Snp) :
  fs path = Some file ->
  file = [] \/ (exists body, file = body ++ [newline]) ->
  Forall (fun c => byteval c < 128 /\ byteval c <> 11) file ->
  ReadSnpFile fs path = Returns snps None ->
  HashFileFirstColumn fs path
  = Returns (fold_left (fun hash s => Z.lxor (uint32 (hash * 17))
                                             (HashIt (Name s)))
                       snps 0)
            None.
Proof.
  intros Hfile Hend Hplain Hread.
  destruct (ReadSnpFile_lines fs path snps Hread) as (file' & Hfile' & Hall).
  rewrite Hfile in Hfile'. injection Hfile' as <-.
  unfold ReadSnpFile, Open in Hread. rewrite Hfile in Hread.
  unfold scanLines in Hall, Hread.
  destruct (scanTokens (splitLines file)) as [texts scanErr] eqn:Hscan.
  destruct (snpLoop_lines _ _ _ _ Hread) as (new & _ & -> & _).
  destruct (scanTokens_no_error _ _ Hscan) as [-> _]. cbn [fst] in Hall.
  apply Forall2_map_left in Hall.
  unfold HashFileFirstColumn, Open. rewrite Hfile. f_equal.
  apply hashOfData_keys; [exact Hend|].
  eapply Forall2_Forall_impl;
    [| exact (Forall_splitLines _ _ Hplain) | exact Hall].
  intros l s Hl Hs. cbn beta in Hs.
  apply snpOfFields_shape in Hs.
  destruct Hs as (chr & gpos & ppos & ref & refTail & alt & altTail & rest
                  & c & p & Hfields & _).
  symmetry. exact (fieldsOf_first l _ _ Hl Hfields).
Qed.

Lemma HashFileFirstColumn_of_Names_witness :
  HashFileFirstColumn (disk genoFile indFile snpFile) "d.snp"
  = Returns (Z.lxor (uint32 (0 * 17)) (HashIt (str "rs1"))) None.
Proof.
  apply (HashFileFirstColumn_of_Names
           (disk genoFile indFile snpFile) "d.snp" snpFile [theSnp]).
  - reflexivity.
  - right. exists (str "rs1 1 0.0 100 A G"). reflexivity.
  - vm_compute. repeat constructor; discriminate.
  - vm_compute. reflexivity.
Defined.

(** ** The hash check and what ProcessGenoRows does before its loop *)

Lemma firstLine_short (geno l : gostring) (rest : list gostring) :
  splitLines geno = l :: rest ->
  Z.of_nat (List.length l) < MaxScanTokenSize ->
  firstLine geno = Some (dropCR l).
Proof.
  intros Hlines Hshort. rewrite firstLine_spec, Hlines.
  replace (MaxScanTokenSize <=? Z.of_nat (List.length l)) with false
    by (symmetry; apply Z.leb_gt; exact Hshort).
  reflexivity.
Qed.

Lemma firstLine_none (geno : gostring) :
  geno = [] \/
  (exists l rest, splitLines geno = l :: rest /\
                  MaxScanTokenSize <= Z.of_nat (List.length l)) ->
  firstLine geno = None.
Proof.
  rewrite firstLine_spec. intros [->|(l & rest & -> & Hlong)];
    [reflexivity|].
  replace (MaxScanTokenSize <=? Z.of_nat (List.length l)) with true
    by (symmetry; apply Z.leb_le; exact Hlong).
  reflexivity.
Qed.

(** What ProcessGenoRows does when Calcishash returns an error or false. *)
Lemma ProcessGenoRows_hash_error `{FloatParser}
  (fs : filesystem) (genoPath indPath snpPath : string) (ok : bool)
  (err : error) (e : ending) (calls : list Call) :
  Calcishash fs genoPath indPath snpPath = Returns ok (Some err) ->
  ProcessGenoRows fs genoPath indPath snpPath e calls ->
  e = Ended (Some err) /\ calls = [].
Proof.
  intros Hhash. apply ProcessGenoRows_Fail.
  unfold prelude. rewrite Hhash. reflexivity.
Qed.

Lemma ProcessGenoRows_hash_false `{FloatParser}
  (fs : filesystem) (genoPath indPath snpPath : string)
  (e : ending) (calls : list Call) :
  Calcishash fs genoPath indPath snpPath = Returns false None ->
  ProcessGenoRows fs genoPath indPath snpPath e calls ->
  e = Ended (Some (ErrNew "Hash is not ok")) /\ calls = [].
Proof.
  intros Hhash. apply ProcessGenoRows_Fail.
  unfold prelude. rewrite Hhash. reflexivity.
Qed.

(** X10: when the first line of the geno file is shorter than the
    scanner's buffer of 64 KiB and both tables can be opened, Calcishash
    returns a nil error, and true exactly when the hexadecimal hash of
    each table occurs somewhere in that line and the two table paths
    differ.  Where in the line the hashes occur, and what else the line
    holds, does not matter. *)
Theorem Calcishash_substring_test
  (fs : filesystem) (genoPath indPath snpPath : string)
  (geno l ind snp : gostring) (rest : list gostring) :
  fs genoPath = Some geno ->
  splitLines geno = l :: rest ->
  Z.of_nat (List.length l) < MaxScanTokenSize ->
  fs indPath = Some ind -> fs snpPath = Some snp ->
  exists ok,
    Calcishash fs genoPath indPath snpPath = Returns ok None /\
    (ok = true <->
     (exists pre post,
        dropCR l = pre ++ FormatInt (hashOfData ind) 16 ++ post) /\
     (exists pre post,
        dropCR l = pre ++ FormatInt (hashOfData snp) 16 ++ post) /\
     indPath <> snpPath).
Proof.
  intros Hg Hlines Hshort Hi Hs.
  rewrite (Calcishash_with_header fs genoPath indPath snpPath geno
             (dropCR l) ind snp Hg (firstLine_short _ _ _ Hlines Hshort)
             Hi Hs).
  eexists. split; [reflexivity|].
  rewrite !andb_true_iff, negb_true_iff, String.eqb_neq, !contains_spec.
  tauto.
Qed.

Lemma Calcishash_substring_test_witness :
  exists ok,
    Calcishash (disk (str "f618 junk 19a0 more") indFile snpFile)
               "d.geno" "d.ind" "d.snp" = Returns ok None /\
    ok = true.
Proof.
  destruct (Calcishash_substring_test
              (disk (str "f618 junk 19a0 more") indFile snpFile)
              "d.geno" "d.ind" "d.snp"
              (str "f618 junk 19a0 more") (str "f618 junk 19a0 more")
              indFile snpFile [])
    as (ok & Hret & Hok).
  - reflexivity.
  - reflexivity.
  - vm_compute. reflexivity.
  - reflexivity.
  - reflexivity.
  - exists ok. split; [exact Hret|]. apply Hok. split; [|split].
    + exists (str "f618 junk 1"), (str " more"). vm_compute. reflexivity.
    + exists [], (str " junk 19a0 more"). vm_compute. reflexivity.
    + discriminate.
Defined.

(** X11: Calcishash cannot tell the two tables apart: when both can be
    opened, exchanging the path of the individuals and the path of the
    markers gives the same result. *)
Theorem Calcishash_tables_exchanged
  (fs : filesystem) (genoPath indPath snpPath : string)
  (ind snp : gostring) :
  fs indPath = Some ind -> fs snpPath = Some snp ->
  Calcishash fs genoPath indPath snpPath
  = Calcishash fs genoPath snpPath indPath.
Proof.
  intros Hi Hs. unfold Calcishash, HashFileFirstColumn, Open.
  rewrite Hi, Hs. destruct (fs genoPath) as [geno|]; [|reflexivity].
  cbn [bind]. destruct (firstLine geno) as [header|]; [|reflexivity].
  cbn [try bind].
  rewrite !Compile_FormatInt by apply hashOfData_nonneg. cbn [bind].
  rewrite (String.eqb_sym snpPath indPath).
  rewrite (andb_comm (MatchString (Literal (FormatInt (hashOfData snp) 16))
                                  header)).
  reflexivity.
Qed.

Lemma Calcishash_tables_exchanged_witness :
  Calcishash (disk genoFile indFile snpFile) "d.geno" "d.ind" "d.snp"
  = Calcishash (disk genoFile indFile snpFile) "d.geno" "d.snp" "d.ind".
Proof.
  apply (Calcishash_tables_exchanged
           (disk genoFile indFile snpFile) "d.geno" "d.ind" "d.snp"
           indFile snpFile); reflexivity.
Defined.

(** X12: a geno file without a first line that the scanner can deliver,
    because the file is empty or because its first line does not fit the
    buffer of 64 KiB, makes Calcishash return false with a nil error
    without looking at the tables, and ProcessGenoRows return the error
    [Hash is not ok] without calling [processFunc]. *)
Theorem no_first_line_hash_not_ok `{FloatParser}
  (fs : filesystem) (genoPath indPath snpPath : string) (geno : gostring) :
  fs genoPath = Some geno ->
  geno = [] \/
  (exists l rest, splitLines geno = l :: rest /\
                  MaxScanTokenSize <= Z.of_nat (List.length l)) ->
  Calcishash fs genoPath indPath snpPath = Returns false None /\
  ProcessGenoRows fs genoPath indPath snpPath
                  (Ended (Some (ErrNew "Hash is not ok"))) [] /\
  forall e calls,
    ProcessGenoRows fs genoPath indPath snpPath e calls ->
    e = Ended (Some (ErrNew "Hash is not ok")) /\ calls = [].
Proof.
  intros Hg Hnone. apply firstLine_none in Hnone.
  assert (Hhash : Calcishash fs genoPath indPath snpPath
                  = Returns false None).
  { unfold Calcishash, Open. rewrite Hg. cbn [bind]. rewrite Hnone.
    reflexivity. }
  split; [exact Hhash|]. split.
  - apply run_fail. unfold prelude. rewrite Hhash. reflexivity.
  - intros e calls. apply ProcessGenoRows_hash_false. exact Hhash.
Qed.

Lemma no_first_line_hash_not_ok_witness :
  Calcishash (disk [] indFile snpFile) "d.geno" "no.ind" "no.snp"
  = Returns false None /\
  ProcessGenoRows (disk [] indFile snpFile) "d.geno" "no.ind" "no.snp"
                  (Ended (Some (ErrNew "Hash is not ok"))) [].
Proof.
  destruct (no_first_line_hash_not_ok
              (disk [] indFile snpFile) "d.geno" "no.ind" "no.snp" [])
    as (Hhash & Hrun & _).
  - reflexivity.
  - left. reflexivity.
  - split; [exact Hhash | exact Hrun].
Defined.

(** X13: a file that cannot be opened.  Without the geno file
    ProcessGenoRows returns the error of opening it.  With a geno file
    whose first line the scanner delivers, it returns the error of opening
    the table of individuals, or else of opening the table of markers.
    In each case [processFunc] is not called. *)
Theorem ProcessGenoRows_missing_file `{FloatParser}
  (fs : filesystem) (genoPath indPath snpPath missing : string) :
  (fs genoPath = None /\ missing = genoPath) \/
  (exists geno header,
     fs genoPath = Some geno /\ firstLine geno = Some header /\
     ((fs indPath = None /\ missing = indPath) \/
      (fs indPath <> None /\ fs snpPath = None /\ missing = snpPath))) ->
  ProcessGenoRows fs genoPath indPath snpPath
                  (Ended (Some (ErrNotExist missing))) [] /\
  forall e calls,
    ProcessGenoRows fs genoPath indPath snpPath e calls ->
    e = Ended (Some (ErrNotExist missing)) /\ calls = [].
Proof.
  intros Hmissing.
  assert (Hhash : Calcishash fs genoPath indPath snpPath
                  = Returns false (Some (ErrNotExist missing))).
  { unfold Calcishash, HashFileFirstColumn, Open.
    destruct Hmissing as [[Hg ->]|(geno & header & Hg & Hh & Hmissing)].
    - rewrite Hg. reflexivity.
    - rewrite Hg. cbn [bind]. rewrite Hh.
      destruct Hmissing as [[Hi ->]|(Hi & Hs & ->)].
      + rewrite Hi. reflexivity.
      + destruct (fs indPath) as [ind|]; [|contradiction].
        rewrite Hs. reflexivity. }
  split.
  - apply run_fail. unfold prelude. rewrite Hhash. reflexivity.
  - intros e calls. apply ProcessGenoRows_hash_error with (ok := false).
    exact Hhash.
Qed.

Lemma ProcessGenoRows_missing_file_witness :
  ProcessGenoRows (disk genoFile indFile snpFile) "d.geno" "d.ind" "no.snp"
                  (Ended (Some (ErrNotExist "no.snp"))) [] /\
  forall e calls,
    ProcessGenoRows (disk genoFile indFile snpFile)
                    "d.geno" "d.ind" "no.snp" e calls ->
    e = Ended (Some (ErrNotExist "no.snp")) /\ calls = [].
Proof.
  apply (ProcessGenoRows_missing_file
           (disk genoFile indFile snpFile) "d.geno" "d.ind" "no.snp"
           "no.snp").
  right. exists genoFile, genoFile.
  split; [reflexivity|]. split; [vm_compute; reflexivity|].
  right. split; [discriminate|]. split; reflexivity.
Defined.

(** ** Packed rows *)

Lemma quarter_digit (c r : Z) :
  0 <= c < 4 -> (c + 4 * r) mod 4 = c /\ (c + 4 * r) / 4 = r.
Proof.
  intros Hc. rewrite (Z.mul_comm 4 r).
  rewrite Z.mod_add, Z.div_add, Z.mod_small, Z.div_small by lia.
  split; reflexivity.
Qed.

(** The two bits at position [m] of a byte made of four codes. *)
Lemma unpack_code (c0 c1 c2 c3 : Z) (m : Z) :
  0 <= c0 < 4 -> 0 <= c1 < 4 -> 0 <= c2 < 4 -> 0 <= c3 < 4 ->
  0 <= m < 4 ->
  Z.land (Z.shiftr (c0 + 4 * c1 + 16 * c2 + 64 * c3) (m * 2)) 3
  = if m =? 0 then c0 else if m =? 1 then c1 else if m =? 2 then c2 else c3.
Proof.
  intros H0 H1 H2 H3 Hm.
  change 3 with (Z.ones 2). rewrite Z.land_ones, Z.shiftr_div_pow2 by lia.
  change (2 ^ 2) with 4.
  replace (c0 + 4 * c1 + 16 * c2 + 64 * c3)
    with (c0 + 4 * (c1 + 4 * (c2 + 4 * c3))) by ring.
  destruct (quarter_digit c0 (c1 + 4 * (c2 + 4 * c3)) H0) as [Hm0 Hd0].
  destruct (quarter_digit c1 (c2 + 4 * c3) H1) as [Hm1 Hd1].
  destruct (quarter_digit c2 c3 H2) as [Hm2 Hd2].
  assert (Hcases : m = 0 \/ m = 1 \/ m = 2 \/ m = 3) by lia.
  set (r1 := c1 + 4 * (c2 + 4 * c3)) in *.
  set (r2 := c2 + 4 * c3) in *.
  destruct Hcases as [->|[->|[->| ->]]].
  - change (2 ^ (0 * 2)) with 1. rewrite Z.div_1_r. exact Hm0.
  - change (2 ^ (1 * 2)) with 4. rewrite Hd0. exact Hm1.
  - change (2 ^ (2 * 2)) with (4 * 4).
    rewrite <- Z.div_div, Hd0, Hd1 by lia. exact Hm2.
  - change (2 ^ (3 * 2)) with (4 * (4 * 4)).
    rewrite <- Z.div_div, Hd0 by lia.
    rewrite <- Z.div_div, Hd1, Hd2 by lia.
    apply Z.mod_small. exact H3.
Qed.

Lemma nth_in_range (codes : list Z) (k : nat) :
  Forall (fun c => 0 <= c < 4) codes -> 0 <= nth k codes 0 < 4.
Proof.
  intros Hall. destruct (nth_in_or_default k codes 0) as [Hin|Hd].
  - rewrite Forall_forall in Hall. apply Hall. exact Hin.
  - rewrite Hd. lia.
Qed.

(** X14: unpacking undoes the packing of PACKEDANCESTRYMAP.  When byte [j]
    of a record holds the codes of the individuals [4j] to [4j + 3] as
    [c0 + 4 * c1 + 16 * c2 + 64 * c3], each code being 0, 1, 2 or 3, the
    row unpacked for [n] individuals is the first [n] codes.  The bytes of
    the record beyond the last individual's are not looked at. *)
Theorem decodeRow_inverts_packing
  (record : list byte) (codes : list Z) (n : nat) :
  Z.of_nat n <= 2 ^ 53 ->
  (n <= List.length codes)%nat ->
  Forall (fun c => 0 <= c < 4) codes ->
  (forall j, (4 * j < n)%nat ->
     exists b,
       nth_error record j = Some b /\
       byteval b = nth (4 * j) codes 0 + 4 * nth (4 * j + 1) codes 0
                   + 16 * nth (4 * j + 2) codes 0
                   + 64 * nth (4 * j + 3) codes 0) ->
  decodeRow record n = Some (firstn n codes).
Proof.
  intros Hn Hlen Hcodes Hpacked.
  assert (Hsize : chunkSize (Z.of_nat n) <= Z.of_nat (List.length record)).
  { rewrite chunkSize_exact by lia.
    destruct n as [|n]; [cbn; lia|].
    destruct (Hpacked (n / 4)%nat) as (b & Hb & _).
    { pose proof (Nat.div_mod_eq n 4) as Hdm.
      pose proof (Nat.mod_upper_bound n 4 ltac:(lia)). lia. }
    assert (Hlt : (n / 4 < List.length record)%nat)
      by (apply nth_error_Some; rewrite Hb; discriminate).
    assert (Heq : (Z.of_nat (S n) + 3) / 4 = Z.of_nat (n / 4) + 1).
    { rewrite Nat2Z.inj_div, Nat2Z.inj_succ.
      replace (Z.succ (Z.of_nat n) + 3) with (Z.of_nat n + 1 * 4) by lia.
      rewrite Z.div_add by lia. reflexivity. }
    rewrite Heq. lia. }
  destruct (decodeRow_total record n Hn Hsize) as (row & Hrow & Hl & Hnth).
  rewrite Hrow. f_equal.
  apply (nth_ext _ _ 0 0).
  { rewrite Hl, length_firstn. lia. }
  intros k Hk. rewrite Hl in Hk. specialize (Hnth k Hk).
  rewrite genotypeAt_exact in Hnth by lia.
  pose proof (Nat.div_mod_eq k 4) as Hdm.
  pose proof (Nat.mod_upper_bound k 4 ltac:(lia)) as Hmod.
  destruct (Hpacked (k / 4)%nat) as (b & Hb & Hval); [lia|].
  replace (Z.to_nat (Z.of_nat k / 4)) with (k / 4)%nat in Hnth
    by (rewrite <- (Nat2Z.id (k / 4)), Nat2Z.inj_div; reflexivity).
  rewrite Hb in Hnth. injection Hnth as Hnth. rewrite <- Hnth, Hval.
  rewrite unpack_code;
    try apply nth_in_range; try exact Hcodes;
    [|apply Z.mod_pos_bound; lia].
  rewrite nth_firstn.
  replace (k <? n)%nat with true by (symmetry; apply Nat.ltb_lt; exact Hk).
  assert (Hm : Z.of_nat k mod 4 = Z.of_nat (k mod 4))
    by (rewrite Nat2Z.inj_mod; reflexivity).
  rewrite Hm.
  assert (Hcases : (k mod 4 = 0 \/ k mod 4 = 1 \/ k mod 4 = 2
                    \/ k mod 4 = 3)%nat) by lia.
  destruct Hcases as [Hc|[Hc|[Hc|Hc]]]; rewrite Hc;
    [change (Z.of_nat 0) with 0 | change (Z.of_nat 1) with 1
    | change (Z.of_nat 2) with 2 | change (Z.of_nat 3) with 3];
    cbv beta iota delta [Z.eqb Pos.eqb]; f_equal; lia.
Qed.

Lemma decodeRow_inverts_packing_witness :
  decodeRow (ascii_of_nat 228 :: ascii_of_nat 2 :: repeat zero 46) 5
  = Some [0; 1; 2; 3; 2].
Proof.
  apply (decodeRow_inverts_packing
           (ascii_of_nat 228 :: ascii_of_nat 2 :: repeat zero 46)
           [0; 1; 2; 3; 2] 5).
  - vm_compute. discriminate.
  - cbn. lia.
  - repeat constructor; lia.
  - intros [|[|j]] Hj.
    + exists (ascii_of_nat 228). split; reflexivity.
    + exists (ascii_of_nat 2). split; reflexivity.
    + lia.
Defined.

(** X15: the loop of ProcessGenoRows never indexes its record buffer out
    of range: when a call of ProcessGenoRows panics, the panic comes from a
    table reader, after the hash check has said yes, and [processFunc] has
    not been called.  (The table of individuals has at most 2^53
    lines.) *)
Theorem ProcessGenoRows_panics_in_readers_only `{FloatParser}
  (fs : filesystem) (genoPath indPath snpPath : string)
  (calls : list Call) :
  (forall inds, ReadIndFile fs indPath = Returns inds None ->
                Z.of_nat (List.length inds) <= 2 ^ 53) ->
  ProcessGenoRows fs genoPath indPath snpPath Aborted calls ->
  calls = [] /\
  Calcishash fs genoPath indPath snpPath = Returns true None /\
  (ReadSnpFile fs snpPath = Panics \/
   (exists snps, ReadSnpFile fs snpPath = Returns snps None) /\
   ReadIndFile fs indPath = Panics).
Proof.
  intros Hbound Hrun.
  destruct (prelude fs genoPath indPath snpPath) as [[[snps inds] r]|err|]
    eqn:Hp.
  - destruct (prelude_Val fs genoPath indPath snpPath snps inds r Hp)
      as (_ & _ & Hind & _).
    destruct (ProcessGenoRows_Val fs genoPath indPath snpPath snps inds r Hp
                (Hbound inds Hind))
      as (dispatched & _ & _ & _ & _ & Hruns & _).
    destruct (Hruns _ _ Hrun) as [Habs _]. discriminate.
  - destruct (ProcessGenoRows_Fail fs genoPath indPath snpPath err _ _
                Hp Hrun) as [Habs _].
    discriminate.
  - destruct (ProcessGenoRows_Crash fs genoPath indPath snpPath _ _ Hp Hrun)
      as [_ ->].
    split; [reflexivity|]. unfold prelude in Hp.
    pose proof (Calcishash_no_panic fs genoPath indPath snpPath) as Hno.
    destruct (Calcishash fs genoPath indPath snpPath) as [[|] [e|]|];
      cbn in Hp; try discriminate; [|contradiction].
    split; [reflexivity|].
    destruct (ReadSnpFile fs snpPath) as [snps [e|]|]; cbn in Hp;
      try discriminate; [|left; reflexivity].
    right. split; [exists snps; reflexivity|].
    destruct (ReadIndFile fs indPath) as [inds [e|]|]; cbn in Hp;
      try discriminate; [|reflexivity].
    unfold Open in Hp. destruct (fs genoPath); discriminate.
Qed.

Lemma ProcessGenoRows_panics_in_readers_only_witness :
  ReadSnpFile (disk genoFile indFile fourColumns) "d.snp" = Panics \/
  (exists snps,
     ReadSnpFile (disk genoFile indFile fourColumns) "d.snp"
     = Returns snps None) /\
  ReadIndFile (disk genoFile indFile fourColumns) "d.ind" = Panics.
Proof.
  apply (ProcessGenoRows_panics_in_readers_only
           (disk genoFile indFile fourColumns)
           "d.geno" "d.ind" "d.snp" []).
  - intros inds Hinds. vm_compute in Hinds. injection Hinds as <-.
    vm_compute. discriminate.
  - apply run_crash. vm_compute. reflexivity.
Defined.

(** ** Records that are read whole *)

Lemma divide_sub_self (w n : nat) :
  Nat.divide w n -> Nat.divide w (n - w).
Proof.
  intros [q Hq]. destruct q as [|q].
  - exists 0%nat. lia.
  - exists q. lia.
Qed.

Lemma divide_le_pos (w n : nat) :
  Nat.divide w n -> (0 < n)%nat -> (w <= n)%nat.
Proof. intros [q Hq] Hn. destruct q as [|q]; nia. Qed.

(** The three ways of [Read]. *)
Lemma Read_direct (r : Reader) (p : list byte) :
  p <> [] -> buffered r = [] ->
  defaultBufSize <= Z.of_nat (List.length p) ->
  Read r p
  = ({| buffered := []; unread := skipn (List.length p) (unread r) |},
     firstn (List.length p) (unread r)
     ++ skipn (List.length (firstn (List.length p) (unread r))) p).
Proof.
  intros Hp Hbuf Hbig. unfold Read. rewrite Hbuf.
  destruct p as [|c p]; [contradiction|].
  apply Z.leb_le in Hbig. rewrite Hbig. reflexivity.
Qed.

Lemma Read_fill (r : Reader) (p : list byte) :
  p <> [] -> buffered r = [] ->
  Z.of_nat (List.length p) < defaultBufSize ->
  Read r p
  = copyOut {| buffered := firstn 4096 (unread r);
               unread := skipn 4096 (unread r) |} p.
Proof.
  intros Hp Hbuf Hsmall. unfold Read. rewrite Hbuf.
  destruct p as [|c p]; [contradiction|].
  apply Z.leb_gt in Hsmall. rewrite Hsmall. reflexivity.
Qed.

Lemma Read_copy (r : Reader) (p : list byte) :
  p <> [] -> buffered r <> [] -> Read r p = copyOut r p.
Proof.
  intros Hp Hbuf. unfold Read.
  destruct p as [|c p]; [contradiction|].
  destruct (buffered r); [contradiction | reflexivity].
Qed.

(** [copy] fills the record buffer when the reader holds a record. *)
Lemma copyOut_whole (w : nat) (r : Reader) (p : list byte) :
  List.length p = w -> (w <= List.length (buffered r))%nat ->
  copyOut r p
  = ({| buffered := skipn w (buffered r); unread := unread r |},
     firstn w (buffered r)).
Proof.
  intros Hp Hfits. unfold copyOut. rewrite Hp.
  replace (Nat.min w (List.length (buffered r))) with w by lia.
  rewrite (skipn_all2 p) by lia. rewrite app_nil_r. reflexivity.
Qed.

(** One read of a record. *)
Lemma Read_whole (w : nat) (r : Reader) (p : list byte) :
  List.length p = w -> (0 < w)%nat ->
  (w <= List.length (buffered r) + List.length (unread r))%nat ->
  readsWhole w r ->
  exists r',
    Read r p = (r', firstn w (buffered r ++ unread r)) /\
    buffered r' ++ unread r' = skipn w (buffered r ++ unread r) /\
    readsWhole w r'.
Proof.
  intros Hp Hw Havail Hinv. unfold readsWhole in Hinv.
  assert (Hne : p <> []) by (intros ->; cbn in Hp; lia).
  destruct (buffered r) as [|b bs] eqn:Hbuf.
  - cbn [List.length app] in *.
    destruct (Z_le_gt_dec defaultBufSize (Z.of_nat (List.length p)))
      as [Hbig|Hsmall].
    + rewrite (Read_direct r p Hne Hbuf Hbig). rewrite Hp.
      unfold defaultBufSize in Hbig.
      eexists. split; [|split].
      * f_equal. rewrite length_firstn.
        replace (Nat.min w (List.length (unread r))) with w by lia.
        rewrite (skipn_all2 p) by lia. apply app_nil_r.
      * reflexivity.
      * left. split; [lia | reflexivity].
    + rewrite (Read_fill r p Hne Hbuf) by lia.
      unfold defaultBufSize in Hsmall.
      rewrite (copyOut_whole w _ p Hp);
        cbn [buffered unread]; [|rewrite length_firstn; lia].
      eexists. split; [|split].
      * f_equal. rewrite firstn_firstn. f_equal. lia.
      * cbn [buffered unread].
        rewrite <- (firstn_skipn 4096 (unread r)) at 3.
        rewrite skipn_app, length_firstn.
        replace (w - Nat.min 4096 (List.length (unread r)))%nat
          with 0%nat by lia.
        reflexivity.
      * unfold readsWhole. cbn [buffered unread].
        destruct (Nat.le_gt_cases 4096 (List.length (unread r)))
          as [Hfull|Hpart].
        -- destruct Hinv as [[Hwide _]|[[Hdiv _]|[Hnone|[Hsmall' _]]]].
           ++ lia.
           ++ right. left. split; [exact Hdiv|].
              rewrite length_skipn, length_firstn.
              replace (Nat.min 4096 (List.length (unread r)))
                with 4096%nat by lia.
              apply divide_sub_self. exact Hdiv.
           ++ rewrite Hnone in Hfull. cbn in Hfull. lia.
           ++ right. right. left. apply skipn_all2. lia.
        -- right. right. left. apply skipn_all2. lia.
  - assert (Hfits : (w <= List.length (buffered r))%nat).
    { rewrite Hbuf.
      destruct Hinv as [[_ Habs]|[[_ Hdiv]|[Hnone|[_ Habs]]]];
        try discriminate Habs.
      - apply divide_le_pos; [exact Hdiv | cbn; lia].
      - rewrite Hnone in Havail. cbn [List.length] in Havail |- *. lia. }
    rewrite (Read_copy r p Hne) by (rewrite Hbuf; discriminate).
    rewrite (copyOut_whole w r p Hp Hfits). rewrite Hbuf in *.
    eexists. split; [|split].
    + f_equal. rewrite firstn_app.
      replace (w - List.length (b :: bs))%nat with 0%nat by lia.
      rewrite firstn_O, app_nil_r. reflexivity.
    + cbn [buffered unread]. rewrite skipn_app.
      replace (w - List.length (b :: bs))%nat with 0%nat by lia.
      reflexivity.
    + unfold readsWhole. cbn [buffered unread].
      destruct Hinv as [[_ Habs]|[[Hd Hdiv]|[Hnone|[_ Habs]]]];
        try discriminate Habs.
      * right. left. split; [exact Hd|].
        rewrite length_skipn. apply divide_sub_self. exact Hdiv.
      * right. right. left. exact Hnone.
Qed.

(** The [k]-th of successive reads delivers the [k]-th record. *)
Lemma reads_whole (w : nat) (k : nat) :
  forall (r : Reader) (p : list byte),
    List.length p = w -> (0 < w)%nat ->
    (w * S k <= List.length (buffered r) + List.length (unread r))%nat ->
    readsWhole w r ->
    snd (reads (S k) r p)
    = firstn w (skipn (w * k) (buffered r ++ unread r)).
Proof.
  induction k as [|k IH]; intros r p Hp Hw Havail Hinv.
  - destruct (Read_whole w r p Hp Hw ltac:(lia) Hinv) as (r' & HR & _).
    cbn [reads]. rewrite HR, Nat.mul_0_r. reflexivity.
  - destruct (Read_whole w r p Hp Hw ltac:(lia) Hinv)
      as (r' & HR & Hrest & Hinv').
    change (reads (S (S k)) r p)
      with (let '(r', p') := Read r p in reads (S k) r' p').
    rewrite HR.
    assert (Hlen : List.length (buffered r' ++ unread r')
                   = (List.length (buffered r ++ unread r) - w)%nat)
      by (rewrite Hrest, length_skipn; reflexivity).
    rewrite !length_app in Hlen.
    rewrite IH; [| |exact Hw| |exact Hinv'].
    + rewrite Hrest, skipn_skipn. do 2 f_equal. lia.
    + rewrite length_firstn, length_app. lia.
    + nia.
Qed.

Lemma readsWhole_NewReader (w : nat) (geno : gostring) :
  (4096 <= w)%nat \/ Nat.divide w 4096 \/ (List.length geno <= 4096)%nat ->
  readsWhole w (NewReader geno).
Proof.
  unfold readsWhole, NewReader. cbn [buffered unread].
  intros [Hwide|[Hdiv|Hsmall]].
  - left. split; [exact Hwide | reflexivity].
  - right. left. split; [exact Hdiv | exists 0%nat; reflexivity].
  - right. right. right. split; [exact Hsmall | reflexivity].
Qed.

Lemma prelude_intro `{FloatParser}
  (fs : filesystem) (genoPath indPath snpPath : string)
  (snps : list Snp) (inds : list Ind) (geno : gostring) :
  Calcishash fs genoPath indPath snpPath = Returns true None ->
  ReadSnpFile fs snpPath = Returns snps None ->
  ReadIndFile fs indPath = Returns inds None ->
  fs genoPath = Some geno ->
  prelude fs genoPath indPath snpPath = Val (snps, inds, NewReader geno).
Proof.
  intros Hhash Hsnp Hind Hg. unfold prelude, Open.
  rewrite Hhash, Hsnp, Hind, Hg. reflexivity.
Qed.

(** X16: every call of [processFunc] gets the row of its own marker's
    record: the marker at index [k] of the table comes with the codes
    unpacked from the bytes [w * (k + 1)] to [w * (k + 2)] of the geno
    file, [w] being the record width.  This holds when the geno file has a
    record for the header and for every marker and the reads of the loop do
    not come short, for which one of these is enough: the record is at
    least as wide as the reader's buffer of 4096 bytes; its width divides
    4096; or the whole file is at most 4096 bytes. *)
Theorem rows_of_their_own_records `{FloatParser}
  (fs : filesystem) (genoPath indPath snpPath : string)
  (snps : list Snp) (inds : list Ind) (geno : gostring) (w : nat) :
  Calcishash fs genoPath indPath snpPath = Returns true None ->
  ReadSnpFile fs snpPath = Returns snps None ->
  ReadIndFile fs indPath = Returns inds None ->
  fs genoPath = Some geno ->
  Z.of_nat (List.length inds) <= 2 ^ 53 ->
  Z.of_nat w = genoChunkSize (Z.of_nat (List.length inds)) ->
  (w * S (List.length snps) <= List.length geno)%nat ->
  (4096 <= w)%nat \/ Nat.divide w 4096 \/ (List.length geno <= 4096)%nat ->
  forall e calls,
    ProcessGenoRows fs genoPath indPath snpPath e calls ->
    e = Ended None /\
    forall c, In c calls ->
      exists k,
        nth_error snps k = Some (snpArg c) /\
        decodeRow (firstn w (skipn (w * S k) geno)) (List.length inds)
        = Some (genoRowArg c).
Proof.
  intros Hhash Hsnp Hind Hg Hn Hw Hall Hregime e calls Hrun.
  pose proof (prelude_intro fs genoPath indPath snpPath snps inds geno
                Hhash Hsnp Hind Hg) as Hp.
  destruct (ProcessGenoRows_Val fs genoPath indPath snpPath snps inds _ Hp Hn)
    as (dispatched & Hrows & Hmap & _ & _ & Hruns & _).
  destruct (Hruns e calls Hrun) as [-> Hperm].
  split; [reflexivity|]. intros c Hc.
  apply (Permutation_in _ Hperm) in Hc.
  destruct (In_nth_error _ _ Hc) as [k Hk]. exists k.
  destruct (rowsFrom_nth snps inds _ _ dispatched k c Hrows Hk)
    as (Hs & _ & Hrow).
  split; [exact Hs|]. rewrite <- Hrow. f_equal.
  assert (Hlt : (k < List.length snps)%nat)
    by (apply nth_error_Some; rewrite Hs; discriminate).
  pose proof (makeChunk_length inds) as Hl. rewrite <- Hw in Hl.
  apply Nat2Z.inj in Hl.
  pose proof (genoChunkSize_pos (Z.of_nat (List.length inds))) as Hpos.
  symmetry.
  transitivity (snd (reads (S (S k)) (NewReader geno) (makeChunk inds))).
  - change (reads (S (S k)) (NewReader geno) (makeChunk inds))
      with (let '(r', p') := Read (NewReader geno) (makeChunk inds) in
            reads (S k) r' p').
    unfold enter. destruct (Read (NewReader geno) (makeChunk inds)).
    reflexivity.
  - rewrite (reads_whole w (S k)); cbn [NewReader buffered unread app].
    + reflexivity.
    + exact Hl.
    + lia.
    + cbn [List.length]. nia.
    + apply readsWhole_NewReader. exact Hregime.
Qed.

Lemma rows_of_their_own_records_witness :
  (exists e calls,
     ProcessGenoRows (disk genoFile indFile snpFile)
                     "d.geno" "d.ind" "d.snp" e calls) /\
  forall e calls,
    ProcessGenoRows (disk genoFile indFile snpFile)
                    "d.geno" "d.ind" "d.snp" e calls ->
    e = Ended None /\
    forall c, In c calls ->
      exists k,
        nth_error [theSnp] k = Some (snpArg c) /\
        decodeRow (firstn 48 (skipn (48 * S k) genoFile)) 1
        = Some (genoRowArg c).
Proof.
  split.
  - destruct (ProcessGenoRows_Val
                (disk genoFile indFile snpFile) "d.geno" "d.ind" "d.snp"
                [theSnp] [theInd] (NewReader genoFile))
      as (_ & _ & _ & _ & _ & _ & calls & Hrun).
    + vm_compute. reflexivity.
    + vm_compute. discriminate.
    + exists (Ended None), calls. exact Hrun.
  - apply (rows_of_their_own_records
             (disk genoFile indFile snpFile) "d.geno" "d.ind" "d.snp"
             [theSnp] [theInd] genoFile 48).
    + vm_compute. reflexivity.
    + vm_compute. reflexivity.
    + vm_compute. reflexivity.
    + reflexivity.
    + vm_compute. discriminate.
    + reflexivity.
    + vm_compute. lia.
    + right. right. vm_compute. lia.
Defined.

(** ** The goroutines *)

Section Orders.
Context `{FloatParser}.
Variable snps : list Snp.
Variable inds : list Ind.
Hypothesis inds_bound : Z.of_nat (List.length inds) <= 2 ^ 53.
Variable genoReader : Reader.
Variable dispatched : list Call.
Hypothesis rows_dispatched : rows snps inds genoReader = Some dispatched.

(** The loop can run to its end before any goroutine gets to run: the rows
    still to come are then all waiting to be called. *)
Lemma run_loop_first (n : nat) :
  forall st, loopInvariant snps inds dispatched st -> at_ st = InLoop ->
    (List.length snps - snpIndex st = n)%nat ->
    exists st', steps snps inds st st' /\
                at_ st' = InLoop /\
                nth_error snps (snpIndex st') = None /\
                started st' = started st ++ skipn (snpIndex st) dispatched /\
                running st' = running st /\
                finished st' = finished st.
Proof.
  induction n as [|n IH]; intros st Hinv Hat Hn.
  - exists st. split; [constructor|]. split; [exact Hat|].
    assert (Hend : nth_error snps (snpIndex st) = None)
      by (apply nth_error_None; lia).
    split; [exact Hend|].
    destruct (dispatched_markers snps inds inds_bound genoReader dispatched
                rows_dispatched) as [Hmap _].
    rewrite skipn_all2, app_nil_r; [repeat split|].
    rewrite <- (length_map snpArg), Hmap. lia.
  - destruct (nth_error snps (snpIndex st)) as [s|] eqn:Hs.
    2:{ apply nth_error_None in Hs. lia. }
    destruct (Read (reader st) (rchunk st)) as [r chunk] eqn:HR.
    destruct (decodeRow chunk (List.length inds)) as [row|] eqn:Hrow.
    + pose proof (step_row snps inds st s r chunk row Hat Hs HR Hrow)
        as Hstep.
      pose proof Hinv as (_ & Hrows & _).
      rewrite (skipn_nth_error _ _ _ Hs) in Hrows. cbn [rowsFrom] in Hrows.
      rewrite HR, Hrow in Hrows.
      destruct (rowsFrom (skipn (S (snpIndex st)) snps) inds r chunk)
        as [calls|] eqn:Hcalls; [|discriminate].
      injection Hrows as Hrows. symmetry in Hrows.
      destruct (skipn_cons_inv _ _ _ _ Hrows) as [Hskip _].
      match type of Hstep with step _ _ _ ?s1 =>
        destruct (IH s1)
          as (st' & Hsteps & Hat' & Hend & Hst' & Hrun' & Hfin')
      end.
      * apply (invariant_step snps inds dispatched st); assumption.
      * reflexivity.
      * cbn [snpIndex]. lia.
      * cbn [started running finished snpIndex] in Hst', Hrun', Hfin'.
        exists st'. split; [|repeat split; try assumption].
        -- eapply steps_trans; [|exact Hsteps].
           eapply steps_step; [constructor | exact Hstep].
        -- rewrite Hst', Hrows, Hskip, <- app_assoc. reflexivity.
    + pose proof (step_row_panic snps inds st s r chunk Hat Hs HR Hrow)
        as Hstep.
      destruct (invariant_step snps inds dispatched st _ Hinv Hstep)
        as [Hno _].
      exfalso. apply Hno. reflexivity.
Qed.

(** The goroutines that wait can be called, and return, in any order. *)
Lemma drain_in_order (order : list Call) :
  forall st, Permutation (started st) order -> running st = [] ->
    exists st', steps snps inds st st' /\
                started st' = [] /\ running st' = [] /\
                finished st' = finished st ++ order /\
                at_ st' = at_ st /\ snpIndex st' = snpIndex st.
Proof.
  induction order as [|c order IH]; intros st Hperm Hrun.
  - apply Permutation_sym, Permutation_nil in Hperm.
    exists st. split; [constructor|]. rewrite app_nil_r. repeat split;
      assumption.
  - assert (Hin : In c (started st)).
    { apply (Permutation_in c (Permutation_sym Hperm)). left. reflexivity. }
    destruct (in_split _ _ Hin) as (before & after & Hst).
    pose proof (step_call snps inds st before c after Hst) as Hcall.
    match type of Hcall with step _ _ _ ?s1 =>
      pose proof (step_done snps inds s1 [] c [])
        as Hdone
    end.
    cbn [running started finished at_ reader rchunk snpIndex counter app]
      in Hdone.
    rewrite Hrun in Hdone, Hcall. specialize (Hdone eq_refl).
    match type of Hdone with step _ _ _ ?s2 =>
      destruct (IH s2)
        as (st' & Hsteps & Hst' & Hrun' & Hfin' & Hat' & Hk')
    end.
    + cbn [started]. rewrite Hst in Hperm.
      apply Permutation_sym in Hperm.
      apply Permutation_cons_app_inv in Hperm.
      apply Permutation_sym. exact Hperm.
    + reflexivity.
    + cbn [finished at_ snpIndex] in Hfin', Hat', Hk'.
      exists st'. split; [|repeat split; try assumption].
      * eapply steps_trans; [|exact Hsteps].
        eapply steps_step; [|exact Hdone].
        eapply steps_step; [constructor | exact Hcall].
      * rewrite Hfin', <- app_assoc. reflexivity.
Qed.

Lemma any_order_returns (order : list Call) :
  Permutation order dispatched ->
  exists st, steps snps inds (enter inds genoReader) st /\
             at_ st = Returned /\ finished st = order.
Proof.
  intros Hperm.
  pose proof (invariant_enter snps inds genoReader dispatched
                rows_dispatched) as Hinv0.
  destruct (enter_fields inds genoReader) as (Hat & Hk & Hs & Hr & Hf & _).
  destruct (run_loop_first _ _ Hinv0 Hat eq_refl)
    as (st1 & H1 & Hat1 & Hend1 & Hst1 & Hrun1 & Hfin1).
  rewrite Hs, Hk in Hst1. cbn [app skipn] in Hst1.
  rewrite Hr in Hrun1. rewrite Hf in Hfin1.
  destruct (drain_in_order order st1)
    as (st2 & H2 & Hst2 & Hrun2 & Hfin2 & Hat2 & Hk2).
  { rewrite Hst1. apply Permutation_sym. exact Hperm. }
  { exact Hrun1. }
  assert (Hsteps : steps snps inds (enter inds genoReader) st2)
    by (eapply (steps_trans snps inds); [exact H1 | exact H2]).
  pose proof (invariant_steps snps inds dispatched _ _ Hinv0 Hsteps)
    as (_ & _ & _ & Hcount & _).
  rewrite Hst2, Hrun2 in Hcount. cbn in Hcount.
  assert (Hat2' : at_ st2 = InLoop) by congruence.
  assert (Hend2 : nth_error snps (snpIndex st2) = None) by congruence.
  pose proof (step_return snps inds st2 Hat2' Hend2 Hcount) as Hret.
  eexists. split; [eapply steps_step; [exact Hsteps | exact Hret]|].
  cbn [at_ finished]. split; [reflexivity|].
  rewrite Hfin2, Hfin1. reflexivity.
Qed.

(** There is a moment at which every row has been handed to a goroutine
    and no call has begun. *)
Lemma all_started :
  exists st, steps snps inds (enter inds genoReader) st /\
             at_ st = InLoop /\ started st = dispatched /\
             running st = [] /\ finished st = [] /\
             counter st = Z.of_nat (List.length snps).
Proof.
  pose proof (invariant_enter snps inds genoReader dispatched
                rows_dispatched) as Hinv0.
  destruct (enter_fields inds genoReader) as (Hat & Hk & Hs & Hr & Hf & _).
  destruct (run_loop_first _ _ Hinv0 Hat eq_refl)
    as (st1 & H1 & Hat1 & Hend1 & Hst1 & Hrun1 & Hfin1).
  rewrite Hs, Hk in Hst1. cbn [app skipn] in Hst1.
  rewrite Hr in Hrun1. rewrite Hf in Hfin1.
  exists st1. repeat split; try assumption.
  pose proof (invariant_steps snps inds dispatched _ _ Hinv0 H1)
    as (_ & _ & _ & Hcount & _).
  rewrite Hcount, Hst1, Hrun1. cbn [List.length]. rewrite Nat.add_0_r.
  destruct (dispatched_markers snps inds inds_bound genoReader dispatched
              rows_dispatched) as [Hmap _].
  rewrite <- Hmap, length_map. reflexivity.
Qed.

Lemma snpIndex_bound (st : State) :
  steps snps inds (enter inds genoReader) st ->
  (snpIndex st <= List.length snps)%nat.
Proof.
  intros Hsteps. remember (enter inds genoReader) as st0 eqn:Hst0.
  induction Hsteps as [st1|st1 st2 st3 _ IH Hstep]; subst.
  - destruct (enter_fields inds genoReader) as (_ & -> & _). lia.
  - specialize (IH eq_refl).
    destruct Hstep as [st s r chunk row _ Hs _ _ | | | | ];
      cbn [snpIndex]; try exact IH.
    assert (Hlt : (snpIndex st < List.length snps)%nat)
      by (apply nth_error_Some; rewrite Hs; discriminate).
    lia.
Qed.

End Orders.

(** X17: the order in which the calls of [processFunc] return is not
    fixed: on an input that passes the hash check and whose tables load,
    ProcessGenoRows can return nil with the calls having returned in any
    order of the rows that the loop handed out, the order of the table and
    its reverse among them.  (The table of individuals has at most 2^53
    lines.) *)
Theorem calls_return_in_any_order `{FloatParser}
  (fs : filesystem) (genoPath indPath snpPath : string)
  (snps : list Snp) (inds : list Ind) (r : Reader)
  (dispatched order : list Call) :
  prelude fs genoPath indPath snpPath = Val (snps, inds, r) ->
  Z.of_nat (List.length inds) <= 2 ^ 53 ->
  rows snps inds r = Some dispatched ->
  Permutation order dispatched ->
  ProcessGenoRows fs genoPath indPath snpPath (Ended None) order.
Proof.
  intros Hp Hn Hrows Hperm.
  destruct (any_order_returns snps inds Hn r dispatched Hrows order Hperm)
    as (st & Hsteps & Hat & <-).
  eapply run_return; eassumption.
Qed.

Lemma calls_return_in_any_order_witness :
  ProcessGenoRows
    (disk (genoOf (str "GENO 1 2 9a0 10a181") 2) indFile (snpTable 2))
    "d.geno" "d.ind" "d.snp" (Ended None)
    [{| genoRowArg := [1];
        snpArg := {| Name := str "rs2"; Chromosome := 1;
                     GeneticPos := str "0.0"; PhysicalPos := 1002;
                     Ref := 65; Alt := 71 |};
        indsArg := [theInd] |};
     {| genoRowArg := [1];
        snpArg := {| Name := str "rs1"; Chromosome := 1;
                     GeneticPos := str "0.0"; PhysicalPos := 1001;
                     Ref := 65; Alt := 71 |};
        indsArg := [theInd] |}].
Proof.
  eapply (calls_return_in_any_order
            (disk (genoOf (str "GENO 1 2 9a0 10a181") 2) indFile
                  (snpTable 2))
            "d.geno" "d.ind" "d.snp").
  - vm_compute. reflexivity.
  - vm_compute. discriminate.
  - vm_compute. reflexivity.
  - apply perm_swap.
Defined.

(** X18: the WaitGroup counts the goroutines, and nothing limits their
    number.  In every state that the loop of ProcessGenoRows can reach the
    counter is the number of goroutines that have not finished, so it never
    is negative; goroutines and finished calls together are the markers
    handled so far.  And the loop never waits for a call: there is a state
    in which a goroutine has been started for every marker of the table and
    no call of [processFunc] has begun.  (The table of individuals has at
    most 2^53 lines.) *)
Theorem WaitGroup_counts_goroutines `{FloatParser}
  (snps : list Snp) (inds : list Ind) (r : Reader) :
  Z.of_nat (List.length inds) <= 2 ^ 53 ->
  (forall st, steps snps inds (enter inds r) st ->
     counter st
     = Z.of_nat (List.length (started st) + List.length (running st)) /\
     (List.length (started st) + List.length (running st)
      + List.length (finished st) = snpIndex st)%nat /\
     (snpIndex st <= List.length snps)%nat) /\
  (exists st, steps snps inds (enter inds r) st /\
              at_ st = InLoop /\
              counter st = Z.of_nat (List.length snps) /\
              List.length (started st) = List.length snps /\
              running st = [] /\ finished st = []).
Proof.
  intros Hn.
  destruct (rowsFrom_total inds Hn snps (reader (enter inds r))
              (rchunk (enter inds r)))
    as (dispatched & Hd & Hmap & _).
  { rewrite enter_length, makeChunk_length. apply genoChunkSize_lower. }
  change (rows snps inds r = Some dispatched) in Hd.
  assert (Hlen : List.length dispatched = List.length snps)
    by (rewrite <- Hmap, length_map; reflexivity).
  split.
  - intros st Hsteps.
    pose proof (invariant_steps snps inds dispatched _ _
                  (invariant_enter snps inds r dispatched Hd) Hsteps)
      as (_ & _ & Hperm & Hcount & _).
    pose proof (snpIndex_bound snps inds r st Hsteps) as Hk.
    split; [exact Hcount|]. split; [|exact Hk].
    apply Permutation_length in Hperm.
    rewrite !length_app, length_firstn in Hperm. lia.
  - destruct (all_started snps inds Hn r dispatched Hd)
      as (st & Hsteps & Hat & Hst & Hrun & Hfin & Hcount).
    exists st. repeat split; try assumption.
    rewrite Hst. exact Hlen.
Qed.

Lemma WaitGroup_counts_goroutines_witness :
  exists st,
    steps [theSnp; theSnp] [theInd] (enter [theInd] (NewReader genoFile)) st
    /\ counter st = 2.
Proof.
  destruct (WaitGroup_counts_goroutines
              [theSnp; theSnp] [theInd] (NewReader genoFile))
    as (_ & st & Hsteps & _ & Hcount & _).
  - vm_compute. discriminate.
  - exists st. split; [exact Hsteps | exact Hcount].
Defined.

(** ** Carriage returns *)

Lemma dropCR_cons (c : byte) (l : gostring) :
  c <> "013"%char -> dropCR (c :: l) = c :: dropCR l.
Proof.
  intros Hc. destruct l as [|x l].
  - cbn. destruct (Ascii.eqb c "013"%char) eqn:E; [|reflexivity].
    apply Ascii.eqb_eq in E. contradiction.
  - unfold dropCR.
    change (last (c :: x :: l) zero) with (last (x :: l) zero).
    destruct (Ascii.eqb (last (x :: l) zero) "013"%char); reflexivity.
Qed.

Lemma dropCR_plain (l : gostring) :
  Forall (fun c => c <> "013"%char) l -> dropCR l = l.
Proof.
  induction 1 as [|c l Hc _ IH]; [reflexivity|].
  rewrite dropCR_cons, IH by exact Hc. reflexivity.
Qed.

(** The lines of a file after every newline has been given a carriage
    return: the scanner delivers the same lines. *)
Lemma splitLines_crlf (data : gostring) :
  Forall (fun c => c <> "013"%char) data ->
  Forall2 (fun l' l => dropCR l' = dropCR l /\
                       (List.length l' <= S (List.length l))%nat)
          (splitLines
             (flat_map (fun c => if Ascii.eqb c newline
                                 then ["013"%char; newline] else [c])
                       data))
          (splitLines data).
Proof.
  induction 1 as [|c data Hc Hdata IH]; [constructor|].
  cbn [flat_map]. destruct (Ascii.eqb c newline) eqn:Hnl.
  - cbn [app splitLines]. rewrite Hnl.
    change (Ascii.eqb "013"%char newline) with false.
    change (Ascii.eqb newline newline) with true. cbn iota.
    constructor; [|exact IH]. split; [reflexivity | cbn; lia].
  - cbn [app splitLines]. rewrite Hnl.
    inversion IH as [Ha Hb | l' l ls' ls [Hl Hlen] Hrest Ha Hb].
    + constructor; [|constructor]. split; [reflexivity | lia].
    + constructor; [|exact Hrest]. split; [|cbn; lia].
      rewrite !dropCR_cons by exact Hc. rewrite Hl. reflexivity.
Qed.

Lemma scanTokens_crlf (raw' raw : list gostring) :
  Forall2 (fun l' l => dropCR l' = dropCR l /\
                       (List.length l' <= S (List.length l))%nat)
          raw' raw ->
  Forall (fun l => Z.of_nat (List.length l) + 1 < MaxScanTokenSize) raw ->
  scanTokens raw' = scanTokens raw.
Proof.
  induction 1 as [|l' l raw' raw [Hl Hlen] _ IH]; intros Hshort;
    [reflexivity|].
  inversion Hshort as [|? ? Hs Hshort']; subst.
  cbn [scanTokens].
  replace (MaxScanTokenSize <=? Z.of_nat (List.length l')) with false
    by (symmetry; apply Z.leb_gt; lia).
  replace (MaxScanTokenSize <=? Z.of_nat (List.length l)) with false
    by (symmetry; apply Z.leb_gt; lia).
  rewrite (IH Hshort'), Hl. reflexivity.
Qed.

Lemma terminatedLines_crlf (data : gostring) :
  terminatedLines
    (flat_map (fun c => if Ascii.eqb c newline
                        then ["013"%char; newline] else [c]) data)
  = map (fun l => l ++ ["013"%char]) (terminatedLines data).
Proof.
  induction data as [|c data IH]; [reflexivity|].
  cbn [flat_map]. destruct (Ascii.eqb c newline) eqn:Hnl.
  - cbn [app terminatedLines]. rewrite Hnl.
    change (Ascii.eqb "013"%char newline) with false.
    change (Ascii.eqb newline newline) with true. cbn iota.
    rewrite IH. reflexivity.
  - cbn [app terminatedLines]. rewrite Hnl, IH.
    destruct (terminatedLines data); reflexivity.
Qed.

(** X19: carriage returns before the newlines make no difference.  A
    table without carriage returns and the same table with a carriage
    return put before every newline are read to the same markers, the same
    individuals, the same error or panic, and have the same hash, when the
    lines leave room for the added byte in the scanner's buffer. *)
Theorem carriage_returns_make_no_difference `{FloatParser}
  (fs : filesystem) (unix dos : string) (data : gostring) :
  fs unix = Some data ->
  fs dos = Some (flat_map (fun c => if Ascii.eqb c newline
                                    then ["013"%char; newline] else [c])
                          data) ->
  Forall (fun c => c <> "013"%char) data ->
  Forall (fun l => Z.of_nat (List.length l) + 1 < MaxScanTokenSize)
         (splitLines data) ->
  ReadSnpFile fs dos = ReadSnpFile fs unix /\
  ReadIndFile fs dos = ReadIndFile fs unix /\
  HashFileFirstColumn fs dos = HashFileFirstColumn fs unix.
Proof.
  intros Hunix Hdos Hplain Hshort.
  pose proof (scanTokens_crlf _ _ (splitLines_crlf data Hplain) Hshort)
    as Hscan.
  unfold ReadSnpFile, ReadIndFile, HashFileFirstColumn, Open, scanLines.
  rewrite Hunix, Hdos, Hscan.
  split; [reflexivity|]. split; [reflexivity|]. f_equal.
  rewrite !hashOfData_tokens, terminatedLines_crlf, map_map.
  f_equal. apply map_ext. intros l.
  apply FindString_nonspace_app_spaces. reflexivity.
Qed.

Lemma carriage_returns_make_no_difference_witness :
  ReadSnpFile (disk genoFile snpFile (str "rs1 1 0.0 100 A G"
                                      ++ ["013"%char; newline])) "d.snp"
  = ReadSnpFile (disk genoFile snpFile (str "rs1 1 0.0 100 A G"
                                        ++ ["013"%char; newline])) "d.ind"
  /\
  HashFileFirstColumn (disk genoFile snpFile (str "rs1 1 0.0 100 A G"
                                              ++ ["013"%char; newline]))
                      "d.snp"
  = HashFileFirstColumn (disk genoFile snpFile (str "rs1 1 0.0 100 A G"
                                                ++ ["013"%char; newline]))
                        "d.ind".
Proof.
  destruct (carriage_returns_make_no_difference
              (disk genoFile snpFile (str "rs1 1 0.0 100 A G"
                                      ++ ["013"%char; newline]))
              "d.ind" "d.snp" snpFile)
    as (Hsnp & _ & Hhash).
  - reflexivity.
  - reflexivity.
  - vm_compute. repeat constructor; discriminate.
  - vm_compute. repeat constructor.
  - split; [exact Hsnp | exact Hhash].
Defined.

(** ** When the table readers panic *)

Lemma indOfFields_Crash (fields : list gostring) :
  indOfFields fields = Crash <-> (List.length fields < 3)%nat.
Proof.
  unfold indOfFields, index.
  destruct fields as [|f0 [|f1 [|f2 rest]]]; cbn; split;
    try discriminate; try reflexivity; lia.
Qed.

Lemma indLoop_Panics (texts : list gostring) (scanErr : option error) :
  forall acc,
    indLoop texts scanErr acc = Panics <->
    exists text, In text texts /\ (List.length (fieldsOf text) < 3)%nat.
Proof.
  induction texts as [|text texts IH]; intros acc.
  - cbn. split; [discriminate | intros (text & [] & _)].
  - cbn [indLoop].
    destruct (indOfFields (fieldsOf text)) as [ind|err|] eqn:Hind.
    + rewrite IH. split.
      * intros (t & Hin & Hshort). exists t. split; [right|]; assumption.
      * intros (t & [->|Hin] & Hshort).
        -- apply indOfFields_Crash in Hshort. congruence.
        -- exists t. split; assumption.
    + exfalso. exact (indOfFields_no_error _ _ Hind).
    + split; [|reflexivity]. intros _. exists text.
      split; [left; reflexivity|]. apply indOfFields_Crash. exact Hind.
Qed.

Lemma indLoop_error (texts : list gostring) (scanErr : option error) :
  forall acc inds err,
    indLoop texts scanErr acc = Returns inds (Some err) ->
    scanErr = Some err.
Proof.
  induction texts as [|text texts IH]; intros acc inds err Hloop.
  - cbn in Hloop. injection Hloop as _ ->. reflexivity.
  - cbn [indLoop] in Hloop.
    destruct (indOfFields (fieldsOf text)) as [ind|e|] eqn:Hind.
    + apply (IH _ _ _ Hloop).
    + exfalso. exact (indOfFields_no_error _ _ Hind).
    + discriminate.
Qed.

Lemma scanTokens_error (raw : list gostring) (err : error) :
  snd (scanTokens raw) = Some err -> err = ErrTooLong.
Proof.
  induction raw as [|l raw IH]; [discriminate|].
  cbn [scanTokens].
  destruct (MaxScanTokenSize <=? Z.of_nat (List.length l)).
  - intros Herr. injection Herr as <-. reflexivity.
  - destruct (scanTokens raw) as [ts e]. exact IH.
Qed.

(** X20: ReadIndFile has no error for a malformed line.  Of a file that
    can be opened it returns an error only when a line does not fit the
    scanner's buffer, and it panics exactly when one of the lines that the
    scanner delivers has fewer than three fields, a blank line for
    instance. *)
Theorem ReadIndFile_short_line_panics
  (fs : filesystem) (path : string) (file : gostring) :
  fs path = Some file ->
  (forall inds err,
     ReadIndFile fs path = Returns inds (Some err) -> err = ErrTooLong) /\
  (ReadIndFile fs path = Panics <->
   exists text,
     In text (fst (scanLines file)) /\
     (List.length (fieldsOf text) < 3)%nat).
Proof.
  intros Hfile. unfold ReadIndFile, Open, scanLines. rewrite Hfile.
  pose proof (scanTokens_error (splitLines file)) as Herr.
  destruct (scanTokens (splitLines file)) as [texts scanErr].
  cbn [fst snd] in *. split.
  - intros inds err Hloop. apply Herr.
    apply (indLoop_error _ _ _ _ _ Hloop).
  - apply indLoop_Panics.
Qed.

Lemma ReadIndFile_short_line_panics_witness :
  ReadIndFile (disk genoFile (indFile ++ [newline]) snpFile) "d.ind"
  = Panics.
Proof.
  apply (ReadIndFile_short_line_panics
           (disk genoFile (indFile ++ [newline]) snpFile) "d.ind"
           (indFile ++ [newline]) eq_refl).
  exists []. split; [right; left; reflexivity | cbn; lia].
Defined.

(** [strings.Fields] returns no empty field. *)
Lemma fieldsFrom_nonempty (s : gostring) :
  forall skip field, Forall (fun f => f <> []) (fieldsFrom s skip field).
Proof.
  assert (Hclose : forall field fields,
            Forall (fun f : gostring => f <> []) fields ->
            Forall (fun f : gostring => f <> []) (closeField field fields)).
  { intros [|c field] fields Hall; [exact Hall|].
    cbn [closeField]. constructor; [|exact Hall].
    cbn [rev]. intros Hnil. apply app_eq_nil in Hnil.
    destruct Hnil as [_ Hnil]. discriminate. }
  induction s as [|c s IH]; intros skip field.
  - cbn [fieldsFrom]. apply Hclose. constructor.
  - cbn [fieldsFrom]. destruct skip as [|skip]; [|apply IH].
    destruct (spaceWidth (c :: s)); [apply IH|].
    apply Hclose. apply IH.
Qed.

Lemma Atoi_no_crash (s : gostring) : Atoi s <> Crash.
Proof.
  unfold Atoi.
  destruct (match s with
            | [] => (false, s)
            | c :: s' =>
                if Ascii.eqb c "-"%char then (true, s')
                else if Ascii.eqb c "+"%char then (false, s')
                else (false, s)
            end) as [neg body].
  destruct (decimal body) as [v|]; [|discriminate].
  destruct ((- 2 ^ 63 <=? (if neg then - v else v))
            && ((if neg then - v else v) <? 2 ^ 63)); discriminate.
Qed.

Lemma ParseUint_no_crash (s : gostring) : ParseUint s <> Crash.
Proof.
  unfold ParseUint. destruct (decimal s) as [v|]; [|discriminate].
  destruct (v <? 2 ^ 64); discriminate.
Qed.

Lemma snpOfFields_Crash `{FloatParser} (fields : list gostring) :
  Forall (fun f => f <> []) fields ->
  snpOfFields fields = Crash -> (List.length fields < 6)%nat.
Proof.
  intros Hne. unfold snpOfFields, index, ParseFloat.
  destruct fields as [|id [|chr [|gpos [|ppos [|ref [|alt rest]]]]]];
    cbn [List.length]; try lia.
  intros Hcrash. exfalso. cbn [nth_error bind] in Hcrash.
  pose proof (Atoi_no_crash chr) as Hchr.
  pose proof (ParseUint_no_crash ppos) as Hppos.
  destruct (Atoi chr); cbn [bind] in Hcrash; try discriminate Hcrash;
    [|contradiction].
  destruct (parseFloat32 gpos); cbn [bind] in Hcrash;
    try discriminate Hcrash.
  destruct (ParseUint ppos); cbn [bind] in Hcrash; try discriminate Hcrash;
    [|contradiction].
  inversion Hne as [|? ? _ H1]; subst. inversion H1 as [|? ? _ H2]; subst.
  inversion H2 as [|? ? _ H3]; subst. inversion H3 as [|? ? _ H4]; subst.
  inversion H4 as [|? ? Href H5]; subst.
  inversion H5 as [|? ? Halt _]; subst.
  destruct ref as [|? ref]; [contradiction|].
  destruct alt as [|? alt]; [contradiction|].
  discriminate Hcrash.
Qed.

Lemma snpLoop_Panics `{FloatParser} (texts : list gostring)
  (scanErr : option error) :
  forall acc,
    snpLoop texts scanErr acc = Panics ->
    exists text, In text texts /\ (List.length (fieldsOf text) < 6)%nat.
Proof.
  induction texts as [|text texts IH]; intros acc; [discriminate|].
  cbn [snpLoop].
  destruct (snpOfFields (fieldsOf text)) as [s|err|] eqn:Hs.
  - intros Hloop. destruct (IH _ Hloop) as (t & Hin & Hshort).
    exists t. split; [right|]; assumption.
  - discriminate.
  - intros _. exists text. split; [left; reflexivity|].
    apply snpOfFields_Crash; [|exact Hs]. apply fieldsFrom_nonempty.
Qed.

(** X21: ReadSnpFile panics only on a line with fewer than six fields.
    With six fields or more on every line it returns: the first bytes of
    the fifth and sixth field, which it indexes, are always there, because
    [strings.Fields] returns no empty field. *)
Theorem ReadSnpFile_panics_on_short_line_only `{FloatParser}
  (fs : filesystem) (path : string) :
  ReadSnpFile fs path = Panics ->
  exists file text,
    fs path = Some file /\
    In text (fst (scanLines file)) /\
    (List.length (fieldsOf text) < 6)%nat.
Proof.
  unfold ReadSnpFile, Open.
  destruct (fs path) as [file|]; [|discriminate].
  destruct (scanLines file) as [texts scanErr] eqn:Hscan. intros Hloop.
  destruct (snpLoop_Panics _ _ _ Hloop) as (text & Hin & Hshort).
  exists file, text. rewrite Hscan. split; [reflexivity|].
  split; assumption.
Qed.

Lemma ReadSnpFile_panics_on_short_line_only_witness :
  exists file text,
    disk genoFile indFile fourColumns "d.snp"%string = Some file /\
    In text (fst (scanLines file)) /\
    (List.length (fieldsOf text) < 6)%nat.
Proof.
  apply (ReadSnpFile_panics_on_short_line_only
           (disk genoFile indFile fourColumns) "d.snp").
  vm_compute. reflexivity.
Defined.

(** ** A geno file with fewer records than markers *)

Lemma reads_add (a b : nat) :
  forall (r : Reader) (p : list byte),
    reads (a + b) r p = let '(r', p') := reads a r p in reads b r' p'.
Proof.
  induction a as [|a IH]; intros r p; [reflexivity|].
  cbn [Nat.add reads]. destruct (Read r p) as [r' p']. apply IH.
Qed.

(** At the end of the file the record buffer keeps what it holds. *)
Lemma reads_at_end (k : nat) (p : list byte) :
  reads k {| buffered := []; unread := [] |} p
  = ({| buffered := []; unread := [] |}, p).
Proof.
  induction k as [|k IH]; [reflexivity|].
  cbn [reads]. rewrite Read_at_end. exact IH.
Qed.

(** The reader after the [k]-th of successive reads of whole records. *)
Lemma reads_whole_reader (w : nat) (k : nat) :
  forall (r : Reader) (p : list byte),
    List.length p = w -> (0 < w)%nat ->
    (w * S k <= List.length (buffered r) + List.length (unread r))%nat ->
    readsWhole w r ->
    buffered (fst (reads (S k) r p)) ++ unread (fst (reads (S k) r p))
    = skipn (w * S k) (buffered r ++ unread r).
Proof.
  induction k as [|k IH]; intros r p Hp Hw Havail Hinv.
  - destruct (Read_whole w r p Hp Hw ltac:(lia) Hinv) as (r' & HR & Hrest & _).
    cbn [reads]. rewrite HR, Nat.mul_1_r. exact Hrest.
  - destruct (Read_whole w r p Hp Hw ltac:(lia) Hinv)
      as (r' & HR & Hrest & Hinv').
    change (reads (S (S k)) r p)
      with (let '(r', p') := Read r p in reads (S k) r' p').
    rewrite HR.
    assert (Hlen : List.length (buffered r' ++ unread r')
                   = (List.length (buffered r ++ unread r) - w)%nat)
      by (rewrite Hrest, length_skipn; reflexivity).
    rewrite !length_app in Hlen.
    rewrite IH; [| |exact Hw| |exact Hinv'].
    + rewrite Hrest, skipn_skipn. f_equal. lia.
    + rewrite length_firstn, length_app. lia.
    + nia.
Qed.

(** The record buffer after [k + 1] reads of a file of [m + 1] records:
    record [k], or the last one when the file has ended before. *)
Lemma reads_past_the_end (w m k : nat) (geno p : gostring) :
  List.length p = w -> (0 < w)%nat ->
  List.length geno = (w * S m)%nat ->
  readsWhole w (NewReader geno) ->
  snd (reads (S k) (NewReader geno) p)
  = firstn w (skipn (w * Nat.min k m) geno).
Proof.
  intros Hp Hw Hlen Hinv.
  destruct (Nat.le_gt_cases k m) as [Hle|Hgt].
  - rewrite (reads_whole w k); cbn [NewReader buffered unread app];
      try assumption.
    + rewrite Nat.min_l by exact Hle. reflexivity.
    + cbn [List.length]. nia.
  - replace (S k) with (S m + (k - m))%nat by lia.
    rewrite reads_add.
    pose proof (reads_whole w m (NewReader geno) p Hp Hw) as Hchunk.
    pose proof (reads_whole_reader w m (NewReader geno) p Hp Hw) as Hreader.
    cbn [NewReader buffered unread app List.length] in Hchunk, Hreader.
    specialize (Hchunk ltac:(lia) Hinv).
    specialize (Hreader ltac:(lia) Hinv).
    destruct (reads (S m) (NewReader geno) p) as [[b u] chunk].
    cbn [fst snd buffered unread] in Hchunk, Hreader.
    rewrite skipn_all2 in Hreader by lia.
    apply app_eq_nil in Hreader. destruct Hreader as [-> ->].
    rewrite reads_at_end. cbn [snd]. rewrite Hchunk.
    rewrite Nat.min_r by lia. reflexivity.
Qed.

(** X22: a geno file that ends early is not noticed.  When the file holds
    the header record and [m] whole records, fewer than there are markers,
    ProcessGenoRows still returns nil and calls [processFunc] for every
    marker: the first [m] markers come with the rows of their records, and
    every later marker comes with the row unpacked from what the record
    buffer still holds, the last record of the file, or the header when
    the file has no record at all.  (The reads do not come short in the
    middle of the file: one of the three conditions of X16 holds.) *)
Theorem missing_records_repeat_the_last `{FloatParser}
  (fs : filesystem) (genoPath indPath snpPath : string)
  (snps : list Snp) (inds : list Ind) (geno : gostring) (w m : nat) :
  Calcishash fs genoPath indPath snpPath = Returns true None ->
  ReadSnpFile fs snpPath = Returns snps None ->
  ReadIndFile fs indPath = Returns inds None ->
  fs genoPath = Some geno ->
  Z.of_nat (List.length inds) <= 2 ^ 53 ->
  Z.of_nat w = genoChunkSize (Z.of_nat (List.length inds)) ->
  List.length geno = (w * S m)%nat ->
  (4096 <= w)%nat \/ Nat.divide w 4096 \/ (List.length geno <= 4096)%nat ->
  (exists calls,
     ProcessGenoRows fs genoPath indPath snpPath (Ended None) calls) /\
  forall e calls,
    ProcessGenoRows fs genoPath indPath snpPath e calls ->
    e = Ended None /\
    List.length calls = List.length snps /\
    forall c, In c calls ->
      exists k,
        nth_error snps k = Some (snpArg c) /\
        decodeRow (firstn w (skipn (w * Nat.min (S k) m) geno))
                  (List.length inds)
        = Some (genoRowArg c).
Proof.
  intros Hhash Hsnp Hind Hg Hn Hw Hlen Hregime.
  pose proof (prelude_intro fs genoPath indPath snpPath snps inds geno
                Hhash Hsnp Hind Hg) as Hp.
  destruct (ProcessGenoRows_Val fs genoPath indPath snpPath snps inds _ Hp Hn)
    as (dispatched & Hrows & Hmap & _ & _ & Hruns & Hex).
  split; [exact Hex|]. intros e calls Hrun.
  destruct (Hruns e calls Hrun) as [-> Hperm].
  split; [reflexivity|]. split.
  { rewrite (Permutation_length Hperm), <- Hmap, length_map. reflexivity. }
  intros c Hc. apply (Permutation_in _ Hperm) in Hc.
  destruct (In_nth_error _ _ Hc) as [k Hk]. exists k.
  destruct (rowsFrom_nth snps inds _ _ dispatched k c Hrows Hk)
    as (Hs & _ & Hrow).
  split; [exact Hs|]. rewrite <- Hrow. f_equal.
  pose proof (makeChunk_length inds) as Hl. rewrite <- Hw in Hl.
  apply Nat2Z.inj in Hl.
  pose proof (genoChunkSize_pos (Z.of_nat (List.length inds))) as Hpos.
  symmetry.
  transitivity (snd (reads (S (S k)) (NewReader geno) (makeChunk inds))).
  - change (reads (S (S k)) (NewReader geno) (makeChunk inds))
      with (let '(r', p') := Read (NewReader geno) (makeChunk inds) in
            reads (S k) r' p').
    unfold enter. destruct (Read (NewReader geno) (makeChunk inds)).
    reflexivity.
  - apply (reads_past_the_end w m (S k) geno _ Hl); [lia | exact Hlen|].
    apply readsWhole_NewReader. exact Hregime.
Qed.

Lemma missing_records_repeat_the_last_witness :
  (exists calls,
     ProcessGenoRows (disk genoCut indFile snpFile)
                     "d.geno" "d.ind" "d.snp" (Ended None) calls) /\
  forall e calls,
    ProcessGenoRows (disk genoCut indFile snpFile)
                    "d.geno" "d.ind" "d.snp" e calls ->
    e = Ended None /\
    List.length calls = 1%nat /\
    forall c, In c calls ->
      exists k,
        nth_error [theSnp] k = Some (snpArg c) /\
        decodeRow (firstn 48 (skipn (48 * Nat.min (S k) 0) genoCut)) 1
        = Some (genoRowArg c).
Proof.
  apply (missing_records_repeat_the_last
           (disk genoCut indFile snpFile) "d.geno" "d.ind" "d.snp"
           [theSnp] [theInd] genoCut 48 0).
  - vm_compute. reflexivity.
  - vm_compute. reflexivity.
  - vm_compute. reflexivity.
  - reflexivity.
  - vm_compute. discriminate.
  - reflexivity.
  - reflexivity.
  - right. right. vm_compute. lia.
Defined.
